(** * taskg: discovery engine and interactive browser of Taskfile tasks

    A shallow embedding of [internal/taskmeta] (task discovery) and
    [internal/app] (the Bubble Tea model of the task browser), with the
    properties of the design document stated over it.

    Conventions.
    - Go [string] is [string] (a byte sequence); Go [int] is [Z] (every
      integer of the program is a list length, a list index or a terminal
      coordinate, far from the 64-bit limits, so no wrap-around occurs).
    - A Go slice is a [list]; a slice element updated through a pointer is
      a list updated by index.
    - [map[string][]Task] is a [gmap string (list Task)]; a [map[string]bool]
      used as a set is a [gset string].
    - A Go function returning [(value, error)] returns a pair whose second
      component is an [option error] ([None] is [nil]).
    - Whatever the program obtains from outside (processes, files, the JSON
      and YAML decoders, the text input widget, the Unicode tables and the
      functions of [strings] that go through them, the path functions of
      the platform, the renderer) is a field of a record, or a parameter,
      the definitions are parameterised by.  The functions of [strings]
      that work on bytes alone are defined here. *)

From Stdlib Require Import ZArith Ascii String List Lia Permutation Sorted DecimalString.
From stdpp Require Import base option list gmap strings.

Local Open Scope string_scope.
Local Open Scope list_scope.
Local Open Scope Z_scope.
#[local] Set Warnings "-register-all".

(** Go's [len] of a slice. *)
Definition len {A} (l : list A) : Z := Z.of_nat (length l).

(** ** The parts of Go's [strings] package the program uses *)

Module strings.

(** [strings.TrimSpace], [strings.ToLower] and [strings.ToUpper] work on
    runes through the Unicode tables; the program's result depends on
    tables that are not part of it, so the models below take the three
    functions as given ([strings_TrimSpace] in [taskmeta.Env],
    [strings_ToLower] and [strings_ToUpper] in [app.Lib]).  What follows
    is what the three return on ASCII text, for the examples. *)

(** ASCII white space. *)
Definition isSpace (c : ascii) : bool :=
  match N_of_ascii c with
  | 9%N | 10%N | 11%N | 12%N | 13%N | 32%N => true
  | _ => false
  end.

Fixpoint trimLeft (s : string) : string :=
  match s with
  | String c s' => if isSpace c then trimLeft s' else s
  | EmptyString => EmptyString
  end.

Fixpoint trimRight (s : string) : string :=
  match s with
  | String c s' =>
      match trimRight s' with
      | EmptyString => if isSpace c then EmptyString else String c EmptyString
      | r => String c r
      end
  | EmptyString => EmptyString
  end.

Definition asciiTrimSpace (s : string) : string := trimRight (trimLeft s).

Fixpoint HasPrefix (s p : string) : bool :=
  match p, s with
  | EmptyString, _ => true
  | String a p', String b s' => if Ascii.eqb a b then HasPrefix s' p' else false
  | String _ _, EmptyString => false
  end.

Fixpoint drop (n : nat) (s : string) : string :=
  match n, s with
  | S n', String _ s' => drop n' s'
  | _, _ => s
  end.

Definition TrimPrefix (s p : string) : string :=
  if HasPrefix s p then drop (String.length p) s else s.

(** [strings.Contains(s, sub)] *)
Fixpoint Contains (s sub : string) : bool :=
  HasPrefix s sub ||
  match s with
  | String _ s' => Contains s' sub
  | EmptyString => false
  end.

(** [strings.Index(s, sep)] for a one-byte separator (the program only
    searches for [":"]); -1 when absent. *)
Fixpoint Index (s : string) (sep : ascii) : Z :=
  match s with
  | EmptyString => -1
  | String c s' =>
      if Ascii.eqb c sep then 0
      else let i := Index s' sep in if i =? -1 then -1 else i + 1
  end.

(** The slices [s[:i]] and [s[i:]]. *)
Definition slice_to (s : string) (i : Z) : string := substring 0 (Z.to_nat i) s.
Definition slice_from (s : string) (i : Z) : string := drop (Z.to_nat i) s.

(** [strings.Split(s, sep)] for a one-byte separator. *)
Fixpoint Split (s : string) (sep : ascii) : list string :=
  match s with
  | EmptyString => [EmptyString]
  | String c s' =>
      if Ascii.eqb c sep then EmptyString :: Split s' sep
      else match Split s' sep with
           | h :: t => String c h :: t
           | [] => [String c EmptyString]
           end
  end.

(** [strings.SplitN(s, sep, n)] for a one-byte separator and [n >= 0]. *)
Fixpoint SplitN (s : string) (sep : ascii) (n : nat) : list string :=
  match n with
  | O => []
  | S O => [s]
  | S n' =>
      let i := Index s sep in
      if i =? -1 then [s]
      else slice_to s i :: SplitN (slice_from s (i + 1)) sep n'
  end.

Fixpoint Join (elems : list string) (sep : string) : string :=
  match elems with
  | [] => EmptyString
  | [e] => e
  | e :: rest => e +:+ sep +:+ Join rest sep
  end.

(** The case mappings of the ASCII letters. *)
Definition lowerByte (c : ascii) : ascii :=
  let n := N_of_ascii c in
  if ((65 <=? n) && (n <=? 90))%N then ascii_of_N (n + 32) else c.

Fixpoint asciiToLower (s : string) : string :=
  match s with
  | EmptyString => EmptyString
  | String c s' => String (lowerByte c) (asciiToLower s')
  end.

Fixpoint asciiToUpper (s : string) : string :=
  match s with
  | EmptyString => EmptyString
  | String c s' =>
      let n := N_of_ascii c in
      String (if ((97 <=? n) && (n <=? 122))%N then ascii_of_N (n - 32) else c)
             (asciiToUpper s')
  end.

(** Byte-wise lexicographic [<] of Go strings. *)
Fixpoint ltb (a b : string) : bool :=
  match a, b with
  | EmptyString, EmptyString => false
  | EmptyString, String _ _ => true
  | String _ _, EmptyString => false
  | String x a', String y b' =>
      if (N_of_ascii x <? N_of_ascii y)%N then true
      else if (N_of_ascii y <? N_of_ascii x)%N then false
      else ltb a' b'
  end.

End strings.

(** [sort.SliceStable]: the stable sort of a slice by [less].  A stable sort
    has one possible result, so insertion from the right stands for Go's
    insertion-and-merge implementation. *)
Module sort.

Section SliceStable.
Context {A : Type} (less : A -> A -> bool).

Fixpoint insert (x : A) (l : list A) : list A :=
  match l with
  | [] => [x]
  | y :: l' => if less y x then y :: insert x l' else x :: l
  end.

Fixpoint SliceStable (l : list A) : list A :=
  match l with
  | [] => []
  | x :: l' => insert x (SliceStable l')
  end.

End SliceStable.

End sort.

(** ** Package [taskmeta]: task discovery *)

Module taskmeta.

Definition error := string.

(** [type Task struct] *)
Record Task := mkTask {
  Name : string;
  Desc : string;
  Cmds : list string;
  Line : Z
}.

#[export] Instance Task_eq_dec : EqDecision Task.
Proof. solve_decision. Defined.

Definition with_Cmds (t : Task) (c : list string) : Task :=
  mkTask (Name t) (Desc t) c (Line t).
Definition with_Desc (t : Task) (d : string) : Task :=
  mkTask (Name t) d (Cmds t) (Line t).

(** One element of [listJSON.Tasks]. *)
Record jsonTask := mkJsonTask {
  jName : string;
  jDesc : string;
  jLocationLine : Z
}.

(** A decoded YAML value, as [yaml.Unmarshal] stores it in an [any].  A
    [map[string]any] is listed in the order in which [range] visits it,
    which the Go runtime chooses; [nil] and the scalars that are not
    strings are [AOther]. *)
Inductive any :=
| AString (s : string)
| ASlice (l : list any)
| AStrings (l : list string)
| AMap (m : list (string * any))
| AOther.

(** [m[k]] with its [ok] flag. *)
Fixpoint mapIndex (m : list (string * any)) (k : string) : option any :=
  match m with
  | [] => None
  | (k', v) :: m' => if decide (k' = k) then Some v else mapIndex m' k
  end.

(** What discovery obtains from outside the program: the operating
    system, the [task] binary, the decoders, and the two library functions
    whose result depends on the Unicode tables, respectively on the
    platform. *)
Record Env := mkEnv {
  (** [strings.TrimSpace] *)
  strings_TrimSpace : string -> string;
  (** [filepath.Join] of two elements *)
  filepath_Join : string -> string -> string;
  os_Getwd : string;
  exec_LookPath : string -> option error;
  (** [cmd.Run()] of [exec.Command(name, args...)] in [dir]: its standard
      output, or the error. *)
  exec_Run : string -> string -> list string -> string * option error;
  json_Unmarshal : string -> list jsonTask * option error;
  os_Stat : string -> option error;
  os_ReadFile : string -> string * option error;
  (** [yaml.Unmarshal(data, &node)] with [node] a [map[string]any]. *)
  yaml_Unmarshal : string -> list (string * any) * option error
}.

(** The external operations a run performs, in order. *)
Inductive Call :=
| CLookPath (file : string)
| CRun (dir name : string) (args : list string)
| CStat (path : string)
| CReadFile (path : string).

(** A computation with its log of external operations. *)
Definition IO (A : Type) : Type := A * list Call.

#[export] Instance IO_ret : MRet IO := fun A a => (a, []).
#[export] Instance IO_bind : MBind IO := fun A B f x =>
  let '(a, l1) := x in let '(b, l2) := f a in (b, l1 ++ l2).
Definition value {A} (x : IO A) : A := fst x.
Definition calls {A} (x : IO A) : list Call := snd x.

Definition taskfileRootCandidates : list string :=
  [ "Taskfile.yml"; "Taskfile.yaml"; "Taskfile.dist.yml"; "Taskfile.dist.yaml";
    "taskfile.yml"; "taskfile.yaml"; "taskfile.dist.yml"; "taskfile.dist.yaml" ].

Section Discovery.
Context (env : Env).

Fixpoint extractCmds (v : any) : list string :=
  match v with
  | AString vv => if decide (strings_TrimSpace env vv = "") then [] else [vv]
  | ASlice vv =>
      (fix items (l : list any) : list string :=
         match l with
         | [] => []
         | it :: l' => extractCmds it ++ items l'
         end) vv
  | AStrings vv => vv
  | AMap _ | AOther => []
  end.

(** The body of the loop over the [tasks] section in [parseTaskfileYAML]:
    the task of one entry, or nothing when the entry is not a map. *)
Definition yamlTask (name : string) (raw : any) : option Task :=
  match raw with
  | AMap rm =>
      let desc := match mapIndex rm "desc" with
                  | Some (AString d) => d
                  | _ => ""
                  end in
      let cmds := match mapIndex rm "cmds" with
                  | Some v => extractCmds v
                  | None => []
                  end in
      let cmds := if decide (len cmds = 0)
                  then match mapIndex rm "cmd" with
                       | Some v => extractCmds v
                       | None => cmds
                       end
                  else cmds in
      Some (mkTask name desc cmds 0)
  | _ => None
  end.

Fixpoint yamlTasks (section : list (string * any)) : list Task :=
  match section with
  | [] => []
  | (name, raw) :: rest =>
      match yamlTask name raw with
      | Some tsk => tsk :: yamlTasks rest
      | None => yamlTasks rest
      end
  end.

(** The body of the loop over the lines in [listViaPlain]. *)
Definition plainLine (l : string) : option Task :=
  let l := strings_TrimSpace env l in
  if strings.HasPrefix l "*" then
    let l := strings.TrimPrefix l "*" in
    let l := strings_TrimSpace env l in
    let idx := strings.Index l ":" in
    let name := if idx =? -1 then l
                else strings_TrimSpace env (strings.slice_to l idx) in
    let desc := if idx =? -1 then ""
                else strings_TrimSpace env (strings.slice_from l (idx + 1)) in
    if decide (name = "") then None else Some (mkTask name desc [] 0)
  else None.

(** The loop over [lj.Tasks] in [listViaJSON]. *)
Definition jsonTasks (lj : list jsonTask) : list Task :=
  map (fun t => mkTask (jName t) (jDesc t) [] (jLocationLine t)) lj.

Definition plainTasks (out : string) : list Task :=
  omap plainLine (strings.Split out "010").

Definition LookPath (file : string) : IO (option error) :=
  (exec_LookPath env file, [CLookPath file]).
Definition Run (dir name : string) (args : list string) : IO (string * option error) :=
  (exec_Run env dir name args, [CRun dir name args]).
Definition Stat (path : string) : IO (option error) :=
  (os_Stat env path, [CStat path]).
Definition ReadFile (path : string) : IO (string * option error) :=
  (os_ReadFile env path, [CReadFile path]).

Definition listViaJSON (root : string) : IO (list Task * option error) :=
  '(out, err) ← Run root "task" ["--list"; "--json"] ;
  match err with
  | Some e => mret ([], Some e)
  | None =>
      let '(lj, err) := json_Unmarshal env out in
      match err with
      | Some e => mret ([], Some e)
      | None =>
          mret (jsonTasks lj, None)
      end
  end.

Definition listViaPlain (root : string) : IO (list Task * option error) :=
  '(out, err) ← Run root "task" ["--list"] ;
  match err with
  | Some e => mret ([], Some e)
  | None => mret (plainTasks out, None)
  end.

(** The first candidate that exists in [root], or [""]. *)
Fixpoint firstCandidate (root : string) (cs : list string) : IO string :=
  match cs with
  | [] => mret ""
  | c :: cs' =>
      err ← Stat (filepath_Join env root c) ;
      match err with
      | None => mret (filepath_Join env root c)
      | Some _ => firstCandidate root cs'
      end
  end.

Definition parseTaskfileYAML (root : string) : IO (list Task * option error) :=
  path ← firstCandidate root taskfileRootCandidates ;
  if decide (path = "") then mret ([], Some "no Taskfile found")
  else
    '(data, err) ← ReadFile path ;
    match err with
    | Some e => mret ([], Some e)
    | None =>
        let '(node, err) := yaml_Unmarshal env data in
        match err with
        | Some e => mret ([], Some e)
        | None =>
            match mapIndex node "tasks" with
            | Some (AMap section) => mret (yamlTasks section, None)
            | _ => mret ([], Some "no tasks map in Taskfile")
            end
        end
    end.

(** [idx[tasks[i].Name] = &tasks[i]] for [i] from [i0] on: a name that
    occurs twice keeps its last position. *)
Fixpoint enrichIndex (tasks : list Task) (i0 : nat) (idx : gmap string nat)
  : gmap string nat :=
  match tasks with
  | [] => idx
  | t :: rest => enrichIndex rest (S i0) (<[Name t := i0]> idx)
  end.

(** One iteration of the loop over [parsed]; [t] points into [tasks]. *)
Definition enrichOne (idx : gmap string nat) (tasks : list Task) (p : Task)
  : list Task :=
  match idx !! Name p with
  | Some i =>
      match tasks !! i with
      | Some t =>
          let t := if (len (Cmds t) =? 0) && (0 <? len (Cmds p))
                   then with_Cmds t (Cmds p) else t in
          let t := if String.eqb (Desc t) "" && negb (String.eqb (Desc p) "")
                   then with_Desc t (Desc p) else t in
          <[i := t]> tasks
      | None => tasks
      end
  | None => tasks
  end.

Definition enrichWith (parsed tasks : list Task) : list Task :=
  fold_left (enrichOne (enrichIndex tasks 0 ∅)) parsed tasks.

(** [enrichTaskCmds] updates the caller's slice in place; the updated slice
    is returned here. *)
Definition enrichTaskCmds (root : string) (tasks : list Task) : IO (list Task) :=
  '(parsed, err) ← parseTaskfileYAML root ;
  match err with
  | Some _ => mret tasks
  | None => mret (enrichWith parsed tasks)
  end.

(** [%v] of an error value. *)
Definition fmt_v (e : option error) : string :=
  match e with
  | Some s => s
  | None => "<nil>"
  end.

Definition usable (r : list Task * option error) : bool :=
  match r with
  | (tasks, None) => 0 <? len tasks
  | (_, Some _) => false
  end.

Definition DiscoverTasks (root : string) : IO (list Task * option error) :=
  let root := if decide (root = "") then os_Getwd env else root in
  err ← LookPath "task" ;
  match err with
  | Some e => mret ([], Some ("task binary not found in PATH: " +:+ e))
  | None =>
      r ← listViaJSON root ;
      if usable r then
        tasks ← enrichTaskCmds root (fst r) ;
        mret (tasks, None)
      else
        rPlain ← listViaPlain root ;
        if usable rPlain then
          tasks ← enrichTaskCmds root (fst rPlain) ;
          mret (tasks, None)
        else
          rY ← parseTaskfileYAML root ;
          if usable rY then mret (fst rY, None)
          else
            mret ([], Some ("failed to discover tasks (json:" +:+ fmt_v (snd r)
                           +:+ " plain:" +:+ fmt_v (snd rPlain)
                           +:+ " yaml:" +:+ fmt_v (snd rY) +:+ ")"))
  end.

End Discovery.

(** *** The source locator *)

Section Locator.
Context (env : Env).
(** [filepath.Dir] and [filepath.Join] of the platform; the locator is
    defined for any two such functions. *)
Context (filepath_Dir : string -> string).
Context (filepath_Join : string -> string -> string).

(** The inner loop of [FindNearestTaskfileRoot]: whether some candidate
    exists in [dir]. *)
Fixpoint anyCandidate (dir : string) (cs : list string) : IO bool :=
  match cs with
  | [] => mret false
  | name :: cs' =>
      err ← Stat env (filepath_Join dir name) ;
      match err with
      | None => mret true
      | Some _ => anyCandidate dir cs'
      end
  end.

(** The outer loop, from [dir] on, for at most [fuel] directories; [None]
    when the fuel runs out before the loop ends. *)
Fixpoint findRootFrom (fuel : nat) (dir : string)
  : IO (option (string * option error)) :=
  match fuel with
  | O => mret None
  | S fuel' =>
      found ← anyCandidate dir taskfileRootCandidates ;
      if (found : bool) then mret (Some (dir, None))
      else
        let parent := filepath_Dir dir in
        if decide (parent = dir)
        then mret (Some ("", Some "no Taskfile found in parent directories"))
        else findRootFrom fuel' parent
  end.

Definition FindNearestTaskfileRoot (fuel : nat) (start : string)
  : IO (option (string * option error)) :=
  findRootFrom fuel start.

End Locator.

End taskmeta.

(** ** Package [app]: the browser model *)

Module app.
Import taskmeta.

(** The source's own [max] and [min]. *)
Definition max (a b : Z) : Z := if a >? b then a else b.
Definition min (a b : Z) : Z := if a <? b then a else b.

(** A rune is its code point. *)
Definition rune := Z.

Definition byte (n : Z) : ascii := ascii_of_N (Z.to_N n).

(** [string(r)]: the UTF-8 encoding, U+FFFD for what is not a scalar value. *)
Definition utf8 (r : rune) : string :=
  if (0 <=? r) && (r <? 128) then String (byte r) ""
  else if (128 <=? r) && (r <? 2048) then
    String (byte (192 + r / 64)) (String (byte (128 + r mod 64)) "")
  else if ((2048 <=? r) && (r <? 55296)) || ((57344 <=? r) && (r <? 65536)) then
    String (byte (224 + r / 4096))
      (String (byte (128 + (r / 64) mod 64)) (String (byte (128 + r mod 64)) ""))
  else if (65536 <=? r) && (r <? 1114112) then
    String (byte (240 + r / 262144))
      (String (byte (128 + (r / 4096) mod 64))
         (String (byte (128 + (r / 64) mod 64)) (String (byte (128 + r mod 64)) "")))
  else String (byte 239) (String (byte 191) (String (byte 189) "")).

(** [string(runes)] *)
Fixpoint string_of_runes (rs : list rune) : string :=
  match rs with
  | [] => ""
  | r :: rs' => utf8 r +:+ string_of_runes rs'
  end.

(** [tea.KeyMsg].  A key that is not text is identified by its entry in
    Bubble Tea's table of key names (["up"], ["pgdown"], ["enter"], ["esc"],
    ["ctrl+c"], ["shift+tab"], [" "] for the space key, ...). *)
Inductive KeyType :=
| KeyRunes
| KeyNamed (name : string).

Record KeyMsg := mkKeyMsg {
  keyType : KeyType;
  Runes : list rune;
  Alt : bool
}.

(** [msg.String()] *)
Definition KeyMsg_String (k : KeyMsg) : string :=
  (if Alt k then "alt+" else "") +:+
  match keyType k with
  | KeyRunes => string_of_runes (Runes k)
  | KeyNamed name => name
  end.

(** [tea.MouseMsg]; the constant [tea.MouseLeft | tea.MouseMotion] of the
    second case of [handleMouse] has the value of [tea.MouseMotion]. *)
Inductive MouseEventType :=
| MouseLeft
| MouseMotion
| MouseOtherEvent.

Record MouseMsg := mkMouseMsg {
  X : Z;
  Y : Z;
  mouseType : MouseEventType
}.

Inductive Msg :=
| WindowSizeMsg (Width Height : Z)
| KeyMsg_ (msg : KeyMsg)
| MouseMsg_ (msg : MouseMsg)
| tickMsg
| refreshMsg (tasks : list Task) (err : option error)
| otherMsg.

(** [tea.Cmd], by what the command will do. *)
Inductive Cmd :=
| CmdNil
| CmdQuit
| CmdTick
| CmdRefresh
| CmdInput.

Inductive Theme :=
| DarkTheme
| LightTheme.

(** What the model obtains from its libraries: the text input of
    [bubbles/textinput], the tables of [unicode] and the case mappings of
    [strings] that go through them, the frame size and the rendering of
    [lipgloss].  The two laws are what the program relies on
    when it seeds or clears the query. *)
Class Lib := mkLib {
  textinput_Model : Type;
  (** [textinput.New()] with the placeholder, limit, width and prompt of
      [NewTaskModel]. *)
  textinput_New : textinput_Model;
  textinput_Update : textinput_Model -> KeyMsg -> textinput_Model;
  textinput_Value : textinput_Model -> string;
  textinput_SetValue : textinput_Model -> string -> textinput_Model;
  textinput_Reset : textinput_Model -> textinput_Model;
  textinput_Focus : textinput_Model -> textinput_Model;
  unicode_IsPrint : rune -> bool;
  unicode_IsSpace : rune -> bool;
  strings_ToLower : string -> string;
  strings_ToUpper : string -> string;
  (** The horizontal frame size of [theme.AppContainer]. *)
  appFrameW : Theme -> Z;
  (** The number of newlines in
      [theme.CommandBox.Copy().Width(w).Render(sampleContent)]. *)
  renderedNewlines : Theme -> Z -> Z;
  Value_SetValue_rune : forall ti r,
    unicode_IsPrint r = true ->
    textinput_Value (textinput_SetValue ti (utf8 r)) = utf8 r;
  Value_SetValue_empty : forall ti,
    textinput_Value (textinput_SetValue ti "") = ""
}.

Section Model.
Context {lib : Lib}.

(** [type TaskModel struct]; [favorites] is never read and is left out,
    [time.Time] is a number of milliseconds. *)
Record TaskModel := mkTaskModel {
  tasks : list Task;
  originalTasks : list Task;
  filteredTasks : list Task;
  selected : Z;
  searchMode : bool;
  searchQuery : string;
  searchInput : textinput_Model;
  theme : Theme;
  mouseEnabled : bool;
  width : Z;
  height : Z;
  lastCommand : string;
  statusMessage : string;
  statusTimeout : Z;
  projectName : string;
  projectRoot : string;
  errorMessage : string;
  quitAfterSelect : bool;
  tabOffset : Z;
  headerIndent : Z;
  listOffset : Z;
  itemHeight : Z;
  tabs : list string;
  activeTab : string;
  tabTasks : gmap string (list Task);
  sortMode : string
}.

Definition set_tasks (v : list Task) (m : TaskModel) : TaskModel :=
  mkTaskModel v (originalTasks m) (filteredTasks m) (selected m) (searchMode
    m) (searchQuery m) (searchInput m) (theme m) (mouseEnabled m) (width m)
    (height m) (lastCommand m) (statusMessage m) (statusTimeout m)
    (projectName m) (projectRoot m) (errorMessage m) (quitAfterSelect m)
    (tabOffset m) (headerIndent m) (listOffset m) (itemHeight m) (tabs m)
    (activeTab m) (tabTasks m) (sortMode m).
Definition set_filteredTasks (v : list Task) (m : TaskModel) : TaskModel :=
  mkTaskModel (tasks m) (originalTasks m) v (selected m) (searchMode m)
    (searchQuery m) (searchInput m) (theme m) (mouseEnabled m) (width m)
    (height m) (lastCommand m) (statusMessage m) (statusTimeout m)
    (projectName m) (projectRoot m) (errorMessage m) (quitAfterSelect m)
    (tabOffset m) (headerIndent m) (listOffset m) (itemHeight m) (tabs m)
    (activeTab m) (tabTasks m) (sortMode m).
Definition set_selected (v : Z) (m : TaskModel) : TaskModel :=
  mkTaskModel (tasks m) (originalTasks m) (filteredTasks m) v (searchMode m)
    (searchQuery m) (searchInput m) (theme m) (mouseEnabled m) (width m)
    (height m) (lastCommand m) (statusMessage m) (statusTimeout m)
    (projectName m) (projectRoot m) (errorMessage m) (quitAfterSelect m)
    (tabOffset m) (headerIndent m) (listOffset m) (itemHeight m) (tabs m)
    (activeTab m) (tabTasks m) (sortMode m).
Definition set_searchMode (v : bool) (m : TaskModel) : TaskModel :=
  mkTaskModel (tasks m) (originalTasks m) (filteredTasks m) (selected m) v
    (searchQuery m) (searchInput m) (theme m) (mouseEnabled m) (width m)
    (height m) (lastCommand m) (statusMessage m) (statusTimeout m)
    (projectName m) (projectRoot m) (errorMessage m) (quitAfterSelect m)
    (tabOffset m) (headerIndent m) (listOffset m) (itemHeight m) (tabs m)
    (activeTab m) (tabTasks m) (sortMode m).
Definition set_searchQuery (v : string) (m : TaskModel) : TaskModel :=
  mkTaskModel (tasks m) (originalTasks m) (filteredTasks m) (selected m)
    (searchMode m) v (searchInput m) (theme m) (mouseEnabled m) (width m)
    (height m) (lastCommand m) (statusMessage m) (statusTimeout m)
    (projectName m) (projectRoot m) (errorMessage m) (quitAfterSelect m)
    (tabOffset m) (headerIndent m) (listOffset m) (itemHeight m) (tabs m)
    (activeTab m) (tabTasks m) (sortMode m).
Definition set_searchInput (v : textinput_Model) (m : TaskModel) : TaskModel :=
  mkTaskModel (tasks m) (originalTasks m) (filteredTasks m) (selected m)
    (searchMode m) (searchQuery m) v (theme m) (mouseEnabled m) (width m)
    (height m) (lastCommand m) (statusMessage m) (statusTimeout m)
    (projectName m) (projectRoot m) (errorMessage m) (quitAfterSelect m)
    (tabOffset m) (headerIndent m) (listOffset m) (itemHeight m) (tabs m)
    (activeTab m) (tabTasks m) (sortMode m).
Definition set_width (v : Z) (m : TaskModel) : TaskModel :=
  mkTaskModel (tasks m) (originalTasks m) (filteredTasks m) (selected m)
    (searchMode m) (searchQuery m) (searchInput m) (theme m) (mouseEnabled m)
    v (height m) (lastCommand m) (statusMessage m) (statusTimeout m)
    (projectName m) (projectRoot m) (errorMessage m) (quitAfterSelect m)
    (tabOffset m) (headerIndent m) (listOffset m) (itemHeight m) (tabs m)
    (activeTab m) (tabTasks m) (sortMode m).
Definition set_height (v : Z) (m : TaskModel) : TaskModel :=
  mkTaskModel (tasks m) (originalTasks m) (filteredTasks m) (selected m)
    (searchMode m) (searchQuery m) (searchInput m) (theme m) (mouseEnabled m)
    (width m) v (lastCommand m) (statusMessage m) (statusTimeout m)
    (projectName m) (projectRoot m) (errorMessage m) (quitAfterSelect m)
    (tabOffset m) (headerIndent m) (listOffset m) (itemHeight m) (tabs m)
    (activeTab m) (tabTasks m) (sortMode m).
Definition set_lastCommand (v : string) (m : TaskModel) : TaskModel :=
  mkTaskModel (tasks m) (originalTasks m) (filteredTasks m) (selected m)
    (searchMode m) (searchQuery m) (searchInput m) (theme m) (mouseEnabled m)
    (width m) (height m) v (statusMessage m) (statusTimeout m) (projectName m)
    (projectRoot m) (errorMessage m) (quitAfterSelect m) (tabOffset m)
    (headerIndent m) (listOffset m) (itemHeight m) (tabs m) (activeTab m)
    (tabTasks m) (sortMode m).
Definition set_statusMessage (v : string) (m : TaskModel) : TaskModel :=
  mkTaskModel (tasks m) (originalTasks m) (filteredTasks m) (selected m)
    (searchMode m) (searchQuery m) (searchInput m) (theme m) (mouseEnabled m)
    (width m) (height m) (lastCommand m) v (statusTimeout m) (projectName m)
    (projectRoot m) (errorMessage m) (quitAfterSelect m) (tabOffset m)
    (headerIndent m) (listOffset m) (itemHeight m) (tabs m) (activeTab m)
    (tabTasks m) (sortMode m).
Definition set_statusTimeout (v : Z) (m : TaskModel) : TaskModel :=
  mkTaskModel (tasks m) (originalTasks m) (filteredTasks m) (selected m)
    (searchMode m) (searchQuery m) (searchInput m) (theme m) (mouseEnabled m)
    (width m) (height m) (lastCommand m) (statusMessage m) v (projectName m)
    (projectRoot m) (errorMessage m) (quitAfterSelect m) (tabOffset m)
    (headerIndent m) (listOffset m) (itemHeight m) (tabs m) (activeTab m)
    (tabTasks m) (sortMode m).
Definition set_projectRoot (v : string) (m : TaskModel) : TaskModel :=
  mkTaskModel (tasks m) (originalTasks m) (filteredTasks m) (selected m)
    (searchMode m) (searchQuery m) (searchInput m) (theme m) (mouseEnabled m)
    (width m) (height m) (lastCommand m) (statusMessage m) (statusTimeout m)
    (projectName m) v (errorMessage m) (quitAfterSelect m) (tabOffset m)
    (headerIndent m) (listOffset m) (itemHeight m) (tabs m) (activeTab m)
    (tabTasks m) (sortMode m).
Definition set_errorMessage (v : string) (m : TaskModel) : TaskModel :=
  mkTaskModel (tasks m) (originalTasks m) (filteredTasks m) (selected m)
    (searchMode m) (searchQuery m) (searchInput m) (theme m) (mouseEnabled m)
    (width m) (height m) (lastCommand m) (statusMessage m) (statusTimeout m)
    (projectName m) (projectRoot m) v (quitAfterSelect m) (tabOffset m)
    (headerIndent m) (listOffset m) (itemHeight m) (tabs m) (activeTab m)
    (tabTasks m) (sortMode m).
Definition set_quitAfterSelect (v : bool) (m : TaskModel) : TaskModel :=
  mkTaskModel (tasks m) (originalTasks m) (filteredTasks m) (selected m)
    (searchMode m) (searchQuery m) (searchInput m) (theme m) (mouseEnabled m)
    (width m) (height m) (lastCommand m) (statusMessage m) (statusTimeout m)
    (projectName m) (projectRoot m) (errorMessage m) v (tabOffset m)
    (headerIndent m) (listOffset m) (itemHeight m) (tabs m) (activeTab m)
    (tabTasks m) (sortMode m).
Definition set_tabOffset (v : Z) (m : TaskModel) : TaskModel :=
  mkTaskModel (tasks m) (originalTasks m) (filteredTasks m) (selected m)
    (searchMode m) (searchQuery m) (searchInput m) (theme m) (mouseEnabled m)
    (width m) (height m) (lastCommand m) (statusMessage m) (statusTimeout m)
    (projectName m) (projectRoot m) (errorMessage m) (quitAfterSelect m) v
    (headerIndent m) (listOffset m) (itemHeight m) (tabs m) (activeTab m)
    (tabTasks m) (sortMode m).
Definition set_listOffset (v : Z) (m : TaskModel) : TaskModel :=
  mkTaskModel (tasks m) (originalTasks m) (filteredTasks m) (selected m)
    (searchMode m) (searchQuery m) (searchInput m) (theme m) (mouseEnabled m)
    (width m) (height m) (lastCommand m) (statusMessage m) (statusTimeout m)
    (projectName m) (projectRoot m) (errorMessage m) (quitAfterSelect m)
    (tabOffset m) (headerIndent m) v (itemHeight m) (tabs m) (activeTab m)
    (tabTasks m) (sortMode m).
Definition set_itemHeight (v : Z) (m : TaskModel) : TaskModel :=
  mkTaskModel (tasks m) (originalTasks m) (filteredTasks m) (selected m)
    (searchMode m) (searchQuery m) (searchInput m) (theme m) (mouseEnabled m)
    (width m) (height m) (lastCommand m) (statusMessage m) (statusTimeout m)
    (projectName m) (projectRoot m) (errorMessage m) (quitAfterSelect m)
    (tabOffset m) (headerIndent m) (listOffset m) v (tabs m) (activeTab m)
    (tabTasks m) (sortMode m).
Definition set_tabs (v : list string) (m : TaskModel) : TaskModel :=
  mkTaskModel (tasks m) (originalTasks m) (filteredTasks m) (selected m)
    (searchMode m) (searchQuery m) (searchInput m) (theme m) (mouseEnabled m)
    (width m) (height m) (lastCommand m) (statusMessage m) (statusTimeout m)
    (projectName m) (projectRoot m) (errorMessage m) (quitAfterSelect m)
    (tabOffset m) (headerIndent m) (listOffset m) (itemHeight m) v (activeTab
    m) (tabTasks m) (sortMode m).
Definition set_activeTab (v : string) (m : TaskModel) : TaskModel :=
  mkTaskModel (tasks m) (originalTasks m) (filteredTasks m) (selected m)
    (searchMode m) (searchQuery m) (searchInput m) (theme m) (mouseEnabled m)
    (width m) (height m) (lastCommand m) (statusMessage m) (statusTimeout m)
    (projectName m) (projectRoot m) (errorMessage m) (quitAfterSelect m)
    (tabOffset m) (headerIndent m) (listOffset m) (itemHeight m) (tabs m) v
    (tabTasks m) (sortMode m).
Definition set_tabTasks (v : gmap string (list Task)) (m : TaskModel) : TaskModel :=
  mkTaskModel (tasks m) (originalTasks m) (filteredTasks m) (selected m)
    (searchMode m) (searchQuery m) (searchInput m) (theme m) (mouseEnabled m)
    (width m) (height m) (lastCommand m) (statusMessage m) (statusTimeout m)
    (projectName m) (projectRoot m) (errorMessage m) (quitAfterSelect m)
    (tabOffset m) (headerIndent m) (listOffset m) (itemHeight m) (tabs m)
    (activeTab m) v (sortMode m).
Definition set_sortMode (v : string) (m : TaskModel) : TaskModel :=
  mkTaskModel (tasks m) (originalTasks m) (filteredTasks m) (selected m)
    (searchMode m) (searchQuery m) (searchInput m) (theme m) (mouseEnabled m)
    (width m) (height m) (lastCommand m) (statusMessage m) (statusTimeout m)
    (projectName m) (projectRoot m) (errorMessage m) (quitAfterSelect m)
    (tabOffset m) (headerIndent m) (listOffset m) (itemHeight m) (tabs m)
    (activeTab m) (tabTasks m) v.

(** [len] of a string and [l[i]] for an index the caller has checked. *)
Definition slen (s : string) : Z := Z.of_nat (String.length s).
Definition index {A} (d : A) (l : list A) (i : Z) : A :=
  default d (l !! Z.to_nat i).

(** [fmt.Sprintf("%d", n)] *)
Definition itoa (n : Z) : string := NilZero.string_of_int (Z.to_int n).

(** [switch s { case c1, c2, ...: }] *)
Definition case_ (s : string) (cs : list string) : bool :=
  existsb (String.eqb s) cs.

Definition setStatus (now : Z) (message : string) (m : TaskModel) : TaskModel :=
  set_statusTimeout (now + 3000) (set_statusMessage message m).

Definition measureItemHeight (m : TaskModel) : Z :=
  let termWidth := if width m <=? 0 then 100 else width m in
  let innerWidth := termWidth - appFrameW (theme m) in
  let innerWidth := if innerWidth <? 40 then 40 else innerWidth in
  renderedNewlines (theme m) innerWidth + 1.

Definition containerOverhead : Z := 4.
Definition headerHeight : Z := 2.
Definition tabsHeight : Z := 3.
Definition searchHeight : Z := 3.
Definition statusHeight : Z := 1.
Definition footerHeight : Z := 3.

(** [visibleListHeight] caches the measured item height in the model. *)
Definition visibleListHeight (m : TaskModel) : Z * TaskModel :=
  let m := if itemHeight m =? 0
           then let m := set_itemHeight (measureItemHeight m) m in
                if itemHeight m <=? 0 then set_itemHeight 7 m else m
           else m in
  let avail := if height m <=? 0 then 24 else height m in
  let inner := avail - containerOverhead in
  let inner := if inner <? 10 then 10 else inner in
  let overhead := headerHeight + statusHeight + footerHeight in
  let overhead := if len (tabs m) >? 1 then overhead + tabsHeight else overhead in
  let overhead := if searchMode m || negb (String.eqb (searchQuery m) "")
                  then overhead + searchHeight else overhead in
  let remaining := inner - overhead in
  if remaining <? itemHeight m then (1, m)
  else
    let items := Z.quot remaining (itemHeight m) in
    let items := if items <? 1 then 1 else items in
    (items, m).

Definition ensureSelectionVisible (m : TaskModel) : TaskModel :=
  let '(listHeight, m) := visibleListHeight m in
  let m := if selected m <? listOffset m
           then set_listOffset (selected m) m else m in
  let m := if selected m >=? listOffset m + listHeight
           then set_listOffset (selected m - listHeight + 1) m else m in
  let maxOffset := max 0 (len (filteredTasks m) - listHeight) in
  let m := if listOffset m >? maxOffset then set_listOffset maxOffset m else m in
  let m := if listOffset m <? 0 then set_listOffset 0 m else m in
  m.

(** The haystack of one task and the test of [updateFilter]'s loop. *)
Definition hay (t : Task) : string :=
  strings_ToLower (Name t +:+ " " +:+ Desc t +:+ " " +:+ strings.Join (Cmds t) " ").

Definition matches (q : string) (t : Task) : bool :=
  strings.Contains (hay t) q.

Definition updateFilter (m : TaskModel) : TaskModel :=
  let baseTasks := if negb (String.eqb (searchQuery m) "")
                   then tasks m
                   else default [] (tabTasks m !! activeTab m) in
  let m := if String.eqb (searchQuery m) ""
           then set_filteredTasks baseTasks m
           else let q := strings_ToLower (searchQuery m) in
                set_filteredTasks (List.filter (matches q) baseTasks) m in
  let m := if selected m >=? len (filteredTasks m)
           then set_selected (max 0 (len (filteredTasks m) - 1)) m else m in
  ensureSelectionVisible m.

(** The tab of a task name. *)
Definition tabPrefix (name : string) : string :=
  let parts := strings.SplitN name "-" 2 in
  if len parts >? 1 then index "" parts 0 else "main".

(** One iteration of the grouping loop of [buildTabs]. *)
Definition groupTask
    (acc : gmap string (list Task) * list string * gset string) (task : Task)
  : gmap string (list Task) * list string * gset string :=
  let '(prefixMap, prefixes, prefixSet) := acc in
  let prefix := tabPrefix (Name task) in
  let '(prefixes, prefixSet) :=
    if bool_decide (prefix ∈ prefixSet) then (prefixes, prefixSet)
    else (prefixes ++ [prefix], {[prefix]} ∪ prefixSet) in
  (<[prefix := default [] (prefixMap !! prefix) ++ [task]]> prefixMap,
   prefixes, prefixSet).

Definition byName (a b : Task) : bool := strings.ltb (Name a) (Name b).
Definition byLine (a b : Task) : bool := Line a <? Line b.

(** The position of the first [x] in [l], counted from [i]; -1 if none. *)
Fixpoint indexOf (x : string) (l : list string) (i : Z) : Z :=
  match l with
  | [] => -1
  | y :: l' => if String.eqb y x then i else indexOf x l' (i + 1)
  end.

(** [sort.Strings] *)
Definition sort_Strings (l : list string) : list string :=
  sort.SliceStable strings.ltb l.

Definition buildTabs (m : TaskModel) : TaskModel :=
  let tasksToProcess := originalTasks m in
  let '(prefixMap, prefixes, _) :=
    fold_left groupTask tasksToProcess (∅, [], ∅) in
  let prefixMap :=
    if String.eqb (sortMode m) "alpha"
    then sort.SliceStable byName <$> prefixMap
    else sort.SliceStable byLine <$> prefixMap in
  let prefixes :=
    if String.eqb (sortMode m) "alpha" then sort_Strings prefixes else prefixes in
  let mainIndex := indexOf "main" prefixes 0 in
  let prefixes :=
    if mainIndex >? 0
    then "main" :: (take (Z.to_nat mainIndex) prefixes
                    ++ drop (Z.to_nat (mainIndex + 1)) prefixes)
    else prefixes in
  let m := set_tabTasks prefixMap (set_tabs prefixes m) in
  let foundActive := existsb (fun t => String.eqb t (activeTab m)) (tabs m) in
  if negb foundActive && (len (tabs m) >? 0)
  then set_activeTab (index "" (tabs m) 0) m else m.

Definition titleCase (s : string) : string :=
  if slen s =? 0 then s
  else strings_ToUpper (strings.slice_to s 1) +:+ strings_ToLower (strings.slice_from s 1).

(** The counting loop of [ensureTabVisible]. *)
Fixpoint countVisibleTabs (availableWidth currentWidth visibleCount : Z)
    (ts : list string) : Z :=
  match ts with
  | [] => visibleCount
  | tab :: ts' =>
      let tabName := if String.eqb tab "main" then "Main" else titleCase tab in
      let tabWidth := slen tabName + 8 in
      if currentWidth + tabWidth >? availableWidth then visibleCount
      else countVisibleTabs availableWidth (currentWidth + tabWidth)
             (visibleCount + 1) ts'
  end.

Definition ensureTabVisible (tabIndex : Z) (m : TaskModel) : TaskModel :=
  if len (tabs m) <=? 1 then m
  else
    let availableWidth := width m - 14 in
    let availableWidth := if availableWidth <? 20 then 20 else availableWidth in
    let visibleCount := countVisibleTabs availableWidth 0 0 (tabs m) in
    let visibleCount := if visibleCount =? 0 then 1 else visibleCount in
    let m := if tabIndex <? tabOffset m then set_tabOffset tabIndex m
             else if tabIndex >=? tabOffset m + visibleCount
                  then set_tabOffset (tabIndex - visibleCount + 1) m
                  else m in
    let maxOffset := len (tabs m) - visibleCount in
    let maxOffset := if maxOffset <? 0 then 0 else maxOffset in
    let m := if tabOffset m >? maxOffset then set_tabOffset maxOffset m else m in
    let m := if tabOffset m <? 0 then set_tabOffset 0 m else m in
    m.

(** The loop of [getTabIndexAtX] over the tabs from position [i] on. *)
Fixpoint tabAtX (x pos i : Z) (ts : list string) : Z :=
  match ts with
  | [] => -1
  | tab :: ts' =>
      let tabWidth := slen tab + 8 in
      if (x >=? pos) && (x <? pos + tabWidth) then i
      else tabAtX x (pos + tabWidth) (i + 1) ts'
  end.

(** With more than one tab the loop starts at [m.tabs[m.tabOffset]], which
    panics ([None]) when the offset is negative. *)
Definition getTabIndexAtX (x : Z) (m : TaskModel) : option Z :=
  if len (tabs m) <=? 1 then Some (-1)
  else if tabOffset m <? 0 then None
  else Some (tabAtX x (2 + headerIndent m) (tabOffset m)
               (drop (Z.to_nat (tabOffset m)) (tabs m))).

Definition moveToNextTab (m : TaskModel) : TaskModel :=
  if len (tabs m) <=? 1 then m
  else
    let currentIndex := indexOf (activeTab m) (tabs m) 0 in
    let m := if (currentIndex >=? 0) && (currentIndex <? len (tabs m) - 1)
             then let nextIndex := currentIndex + 1 in
                  ensureTabVisible nextIndex
                    (set_activeTab (index "" (tabs m) nextIndex) m)
             else m in
    updateFilter m.

Definition moveToPrevTab (m : TaskModel) : TaskModel :=
  if len (tabs m) <=? 1 then m
  else
    let currentIndex := indexOf (activeTab m) (tabs m) 0 in
    let m := if (currentIndex >=? 0) && (currentIndex >? 0)
             then let prevIndex := currentIndex - 1 in
                  ensureTabVisible prevIndex
                    (set_activeTab (index "" (tabs m) prevIndex) m)
             else m in
    updateFilter m.

(** [markForExecution]; [None] is the run-time panic of
    [m.filteredTasks[m.selected]] with the index out of range. *)
Definition markForExecution (m : TaskModel) : option (TaskModel * Cmd) :=
  if len (filteredTasks m) =? 0 then Some (m, CmdNil)
  else if (selected m <? 0) || (selected m >=? len (filteredTasks m)) then None
  else
    task ← filteredTasks m !! Z.to_nat (selected m);
    Some (set_quitAfterSelect true (set_lastCommand (Name task) m), CmdQuit).

(** The loop of [toggleSortMode] that looks the remembered name up. *)
Fixpoint indexOfName (name : string) (l : list Task) (i : Z) : Z :=
  match l with
  | [] => -1
  | t :: l' => if String.eqb (Name t) name then i else indexOfName name l' (i + 1)
  end.

Definition toggleSortMode (m : TaskModel) : TaskModel :=
  let selectedTaskName :=
    if (len (filteredTasks m) >? 0) && (selected m >=? 0)
       && (selected m <? len (filteredTasks m))
    then Name (index (mkTask "" "" [] 0) (filteredTasks m) (selected m))
    else "" in
  let m := if String.eqb (sortMode m) "file"
           then set_sortMode "alpha" m else set_sortMode "file" m in
  let m := buildTabs m in
  let m := updateFilter m in
  let m := if negb (String.eqb selectedTaskName "")
           then let i := indexOfName selectedTaskName (filteredTasks m) 0 in
                if i >=? 0 then set_selected i m else m
           else m in
  ensureSelectionVisible m.

Definition ShouldRun (m : TaskModel) : bool :=
  quitAfterSelect m && negb (String.eqb (lastCommand m) "").
Definition TaskToRun (m : TaskModel) : string := lastCommand m.

(** The navigation cases shared by the two modes of [handleKeys]. *)
Definition navigate (s : string) (m : TaskModel) : option TaskModel :=
  if case_ s ["up"; "k"] then
    Some (if selected m >? 0
          then ensureSelectionVisible (set_selected (selected m - 1) m) else m)
  else if case_ s ["down"; "j"] then
    Some (if selected m <? len (filteredTasks m) - 1
          then ensureSelectionVisible (set_selected (selected m + 1) m) else m)
  else if case_ s ["pgup"] then
    let '(step, m) := visibleListHeight m in
    Some (ensureSelectionVisible (set_selected (max 0 (selected m - step)) m))
  else if case_ s ["pgdown"] then
    let '(step, m) := visibleListHeight m in
    Some (ensureSelectionVisible
            (set_selected (min (len (filteredTasks m) - 1) (selected m + step)) m))
  else if case_ s ["home"] then
    Some (ensureSelectionVisible (set_selected 0 m))
  else if case_ s ["end"] then
    Some (ensureSelectionVisible (set_selected (len (filteredTasks m) - 1) m))
  else None.

(** The condition of the type-to-search trigger on the rune [r]. *)
Definition triggersSearch (r : rune) : bool :=
  negb (r =? 113) && negb (r =? 106) && negb (r =? 107) && negb (r =? 114)
  && unicode_IsPrint r && negb (unicode_IsSpace r).

(** The type-to-search block of [handleKeys]: the model it returns with,
    or nothing when the key falls through to the [switch]. *)
Definition typeToSearch (msg : KeyMsg) (m : TaskModel) : option TaskModel :=
  match keyType msg, Runes msg with
  | KeyRunes, [r] =>
      if triggersSearch r then
        let m := set_searchMode true m in
        let m := set_searchInput (textinput_Focus (searchInput m)) m in
        let m := set_searchInput (textinput_SetValue (searchInput m) (utf8 r)) m in
        let m := set_searchQuery (textinput_Value (searchInput m)) m in
        Some (updateFilter m)
      else None
  | _, _ => None
  end.

Definition handleKeys (now : Z) (msg : KeyMsg) (m : TaskModel)
  : option (TaskModel * Cmd) :=
  let s := KeyMsg_String msg in
  if searchMode m then
    match navigate s m with
    | Some m => Some (m, CmdNil)
    | None =>
        let m := set_searchInput (textinput_Update (searchInput m) msg) m in
        let m := set_searchQuery (textinput_Value (searchInput m)) m in
        let m := updateFilter m in
        let m := if String.eqb s "esc"
                 then updateFilter
                        (set_searchQuery ""
                           (set_searchInput (textinput_Reset (searchInput m))
                              (set_searchMode false m)))
                 else m in
        if String.eqb s "enter" then
          let m := set_searchMode false m in
          if len (filteredTasks m) >? 0 then markForExecution m
          else Some (m, CmdInput)
        else Some (m, CmdInput)
    end
  else
    match typeToSearch msg m with
    | Some m => Some (m, CmdNil)
    | None =>
        if case_ s ["ctrl+s"] then
          let m := toggleSortMode m in
          Some (setStatus now ("Sorted by " +:+ sortMode m) m, CmdNil)
        else if case_ s ["q"; "ctrl+c"] then Some (m, CmdQuit)
        else if case_ s ["r"; "ctrl+r"] then
          Some (setStatus now "Refreshing tasks..." m, CmdRefresh)
        else
          match navigate s m with
          | Some m => Some (m, CmdNil)
          | None =>
              if case_ s ["enter"] then markForExecution m
              else if case_ s ["/"] then
                let m := set_searchMode true m in
                let m := set_searchInput (textinput_Focus (searchInput m)) m in
                let m := set_searchInput
                           (textinput_SetValue (searchInput m) "") m in
                Some (set_searchQuery "" m, CmdNil)
              else if case_ s ["esc"] then
                if negb (String.eqb (searchQuery m) "")
                then Some (updateFilter (set_searchQuery "" m), CmdNil)
                else Some (m, CmdQuit)
              else if case_ s ["tab"; "right"] then
                Some ((if len (tabs m) >? 1 then moveToNextTab m else m), CmdNil)
              else if case_ s ["shift+tab"; "left"] then
                Some ((if len (tabs m) >? 1 then moveToPrevTab m else m), CmdNil)
              else Some (m, CmdNil)
          end
    end.

(** The list row under the pointer at line [y]. *)
Definition rowAt (y : Z) (m : TaskModel) : Z :=
  let adjustY := y - 4 in
  if searchMode m || negb (String.eqb (searchQuery m) "")
  then adjustY - 1 else adjustY.

Definition handleMouse (msg : MouseMsg) (m : TaskModel)
  : option (TaskModel * Cmd) :=
  match mouseType msg with
  | MouseLeft =>
      if (Y msg =? 2) && (len (tabs m) >? 1) then
        match getTabIndexAtX (X msg) m with
        | None => None
        | Some tabIndex =>
            if (tabIndex >=? 0) && (tabIndex <? len (tabs m))
            then Some (updateFilter
                         (set_activeTab (index "" (tabs m) tabIndex) m),
                       CmdNil)
            else Some (m, CmdNil)
        end
      else if Y msg >=? 4 then
        let adjustY := rowAt (Y msg) m in
        if (adjustY >=? 0) && (adjustY <? len (filteredTasks m))
        then Some (set_selected adjustY m, CmdNil)
        else Some (m, CmdNil)
      else Some (m, CmdNil)
  | MouseMotion =>
      if Y msg >=? 4 then
        let adjustY := rowAt (Y msg) m in
        if (adjustY >=? 0) && (adjustY <? len (filteredTasks m))
           && (adjustY =? selected m)
        then markForExecution m
        else Some (m, CmdNil)
      else Some (m, CmdNil)
  | MouseOtherEvent => Some (m, CmdNil)
  end.

(** [Update] at clock reading [now]; [None] is a run-time panic. *)
Definition Update (now : Z) (msg : Msg) (m : TaskModel)
  : option (TaskModel * Cmd) :=
  match msg with
  | WindowSizeMsg w h =>
      Some (ensureSelectionVisible (set_height h (set_width w m)), CmdNil)
  | KeyMsg_ msg => handleKeys now msg m
  | MouseMsg_ msg =>
      if negb (mouseEnabled m) then Some (m, CmdNil) else handleMouse msg m
  | tickMsg => Some (m, CmdTick)
  | refreshMsg newTasks err =>
      match err with
      | Some e => Some (setStatus now ("Refresh failed: " +:+ e) m, CmdNil)
      | None =>
          let m := set_tasks newTasks m in
          let m := buildTabs m in
          let m := updateFilter m in
          Some (setStatus now ("Refreshed - " +:+ itoa (len newTasks)
                               +:+ " tasks found") m, CmdNil)
      end
  | otherMsg => Some (m, CmdNil)
  end.

(** The message the command of [refreshCmd] delivers. *)
Definition refreshCmd (env : Env) (m : TaskModel) : Msg :=
  if String.eqb (projectRoot m) "" then refreshMsg [] (Some "no project root set")
  else let '(tasks, err) := value (DiscoverTasks env (projectRoot m)) in
       refreshMsg tasks err.

Definition NewTaskModel (tasks : list Task) (themeName : string)
    (mouseEnabled : bool) (projectName : string) (now : Z) : TaskModel :=
  let theme := if String.eqb themeName "light" then LightTheme else DarkTheme in
  let tasks := sort.SliceStable byLine tasks in
  let originalTasks := tasks in
  let m := mkTaskModel tasks originalTasks tasks 0 false "" textinput_New theme
             mouseEnabled 0 0 "" "" now projectName "" "" false 0 0 0 0 [] ""
             ∅ "file" in
  updateFilter (buildTabs m).

Definition Error (msg : string) (m : TaskModel) : TaskModel := set_errorMessage msg m.
Definition SetProjectRoot (root : string) (m : TaskModel) : TaskModel :=
  set_projectRoot root m.

(** A run of the event loop: the messages with the clock reading at which
    each is handled.  It stops at the first panic. *)
Fixpoint run (events : list (Z * Msg)) (m : TaskModel) : option TaskModel :=
  match events with
  | [] => Some m
  | (now, msg) :: rest =>
      match Update now msg m with
      | Some (m', _) => run rest m'
      | None => None
      end
  end.

(** The run ends in a panic. *)
Definition panics (events : list (Z * Msg)) (m : TaskModel) : Prop :=
  match run events m with
  | Some _ => False
  | None => True
  end.

(** [P] holds of the state the run ends in. *)
Definition after (events : list (Z * Msg)) (m : TaskModel)
    (P : TaskModel -> Prop) : Prop :=
  match run events m with
  | Some m' => P m'
  | None => False
  end.

End Model.

(** The concatenation of the tab groups, tabs in tab order. *)
Definition flatten `{Lib} (m : TaskModel) : list Task :=
  concat (map (fun tab => default [] (tabTasks m !! tab)) (tabs m)).

(** *** A plain instance of the libraries

    The text input keeps the text it is given: typed runes and the space
    key append, backspace removes the last byte, every other key leaves the
    text alone.  The Unicode tables and the case mappings are those of
    ASCII.  Both themes frame
    the container with a border and one column of padding on each side, and
    the sample box is two lines of text between two border lines. *)
Fixpoint removeLast (s : string) : string :=
  match s with
  | EmptyString => EmptyString
  | String c EmptyString => EmptyString
  | String c s' => String c (removeLast s')
  end.

Definition plainInput_Update (ti : string) (msg : KeyMsg) : string :=
  if Alt msg then ti
  else match keyType msg with
       | KeyRunes => ti +:+ string_of_runes (Runes msg)
       | KeyNamed name =>
           if String.eqb name " " then ti +:+ " "
           else if String.eqb name "backspace" then removeLast ti
           else ti
       end.

Definition ascii_IsPrint (r : rune) : bool := (32 <=? r) && (r <=? 126).
Definition ascii_IsSpace (r : rune) : bool :=
  ((9 <=? r) && (r <=? 13)) || (r =? 32).

#[export] Instance plainLib : Lib := {|
  textinput_Model := string;
  textinput_New := "";
  textinput_Update := plainInput_Update;
  textinput_Value := fun ti => ti;
  textinput_SetValue := fun _ s => s;
  textinput_Reset := fun _ => "";
  textinput_Focus := fun ti => ti;
  unicode_IsPrint := ascii_IsPrint;
  unicode_IsSpace := ascii_IsSpace;
  strings_ToLower := strings.asciiToLower;
  strings_ToUpper := strings.asciiToUpper;
  appFrameW := fun _ => 4;
  renderedNewlines := fun _ _ => 3;
  Value_SetValue_rune := fun _ _ _ => eq_refl;
  Value_SetValue_empty := fun _ => eq_refl
|}.

(** Text typed on the keyboard, one key message per rune. *)
Definition rune_key (r : rune) : Msg := KeyMsg_ (mkKeyMsg KeyRunes [r] false).
Definition named_key (name : string) : Msg :=
  KeyMsg_ (mkKeyMsg (KeyNamed name) [] false).

End app.

(** ** Package [main]: the model the program starts with *)

Module main.
Import taskmeta app.

Section Run.
Context {lib : Lib} (env : Env).
(** [filepath.Dir], [filepath.Base] and [filepath.Join] of the platform *)
Context (filepath_Dir filepath_Base : string -> string).
Context (filepath_Join : string -> string -> string).

(** The model [rootCmd.Run] hands to Bubble Tea, from the flags
    [--project], [--theme] and [--no-mouse]; [None] when the locator runs
    out of [fuel]. *)
Definition startModel (fuel : nat) (projectDir theme : string) (noMouse : bool)
    (now : Z) : option TaskModel :=
  let startDir := if String.eqb projectDir "" then os_Getwd env else projectDir in
  r ← value (FindNearestTaskfileRoot env filepath_Dir filepath_Join fuel startDir) ;
  let '(root, err) := r in
  match err with
  | Some _ =>
      let model := NewTaskModel [] theme (negb noMouse) (filepath_Base startDir) now in
      Some (Error ("No Taskfile found in this or parent directories. "
                   +:+ "Use --project to point elsewhere or create a Taskfile.yml.")
              model)
  | None =>
      let '(tasks, err) := value (DiscoverTasks env root) in
      match err with
      | Some e =>
          let model := NewTaskModel [] theme (negb noMouse) (filepath_Base root) now in
          Some (Error ("Failed to enumerate tasks: " +:+ e) (SetProjectRoot root model))
      | None =>
          if len tasks =? 0 then
            let model := NewTaskModel [] theme (negb noMouse) (filepath_Base root) now in
            Some (Error "No tasks discovered in Taskfile." (SetProjectRoot root model))
          else
            let model := NewTaskModel tasks theme (negb noMouse) (filepath_Base root) now in
            Some (SetProjectRoot root model)
      end
  end.

End Run.

End main.

(** * Properties *)

Import taskmeta app.

(** ** Specification vocabulary *)

(** [enriched parsed t t']: [t'] is [t] with, at most, an empty command
    list and an empty description filled from an entry of [parsed] that
    has the name of [t]. *)
Definition enriched (parsed : list Task) (t t' : Task) : Prop :=
  Name t' = Name t /\ Line t' = Line t /\
  (Cmds t' = Cmds t \/
   (Cmds t = [] /\ exists p, p ∈ parsed /\ Name p = Name t /\ Cmds t' = Cmds p)) /\
  (Desc t' = Desc t \/
   (Desc t = "" /\ exists p, p ∈ parsed /\ Name p = Name t /\ Desc t' = Desc p)).

(** The keys of a [tasks] section whose value is a map, in [range] order. *)
Definition mapEntries (section : list (string * any)) : list string :=
  omap (fun e => match snd e with AMap _ => Some (fst e) | _ => None end) section.

(** An external operation on the file system. *)
Definition fileOp (c : Call) : Prop :=
  match c with
  | CStat _ | CReadFile _ => True
  | _ => False
  end.

(** ** The log of external operations *)

Section IOLaws.
Context {A B : Type}.

Lemma value_bind (x : IO A) (f : A -> IO B) :
  value (x ≫= f) = value (f (value x)).
Proof.
  destruct x as [a l1]. unfold mbind, IO_bind, value. simpl.
  destruct (f a). reflexivity.
Qed.

Lemma calls_bind (x : IO A) (f : A -> IO B) :
  calls (x ≫= f) = calls x ++ calls (f (value x)).
Proof.
  destruct x as [a l1]. unfold mbind, IO_bind, value, calls. simpl.
  destruct (f a). reflexivity.
Qed.

Lemma value_ret (a : A) : value (mret a : IO A) = a.
Proof. reflexivity. Qed.

Lemma calls_ret (a : A) : calls (mret a : IO A) = [].
Proof. reflexivity. Qed.

End IOLaws.

Section DiscoveryFacts.
Context (env : Env).

Lemma calls_listViaJSON root :
  calls (listViaJSON env root) = [CRun root "task" ["--list"; "--json"]].
Proof.
  unfold listViaJSON. rewrite calls_bind. unfold Run at 1. simpl.
  destruct (exec_Run env root "task" _) as [out [e|]]; simpl; [reflexivity|].
  destruct (json_Unmarshal env out) as [lj [e|]]; reflexivity.
Qed.

Lemma calls_listViaPlain root :
  calls (listViaPlain env root) = [CRun root "task" ["--list"]].
Proof.
  unfold listViaPlain. rewrite calls_bind. unfold Run at 1. simpl.
  destruct (exec_Run env root "task" _) as [out [e|]]; reflexivity.
Qed.

Lemma calls_firstCandidate root cs :
  Forall fileOp (calls (firstCandidate env root cs)).
Proof.
  induction cs as [|c cs IH]; cbn [firstCandidate]; [constructor|].
  rewrite calls_bind. unfold Stat at 1. simpl. constructor; [exact I|].
  destruct (os_Stat env _); [exact IH | constructor].
Qed.

Lemma calls_parseTaskfileYAML root :
  Forall fileOp (calls (parseTaskfileYAML env root)).
Proof.
  unfold parseTaskfileYAML. rewrite calls_bind. apply Forall_app. split.
  - apply calls_firstCandidate.
  - destruct (decide _); [constructor|].
    rewrite calls_bind. unfold ReadFile at 1. simpl. constructor; [exact I|].
    destruct (os_ReadFile env _) as [data [e|]]; simpl; [constructor|].
    destruct (yaml_Unmarshal env data) as [node [e|]]; [constructor|].
    destruct (mapIndex node "tasks") as [[]|]; constructor.
Qed.

Lemma calls_enrichTaskCmds root tasks :
  calls (enrichTaskCmds env root tasks) = calls (parseTaskfileYAML env root).
Proof.
  unfold enrichTaskCmds. rewrite calls_bind.
  destruct (value (parseTaskfileYAML env root)) as [parsed [e|]];
    simpl; apply app_nil_r.
Qed.

Lemma value_enrichTaskCmds root tasks :
  value (enrichTaskCmds env root tasks) =
  match snd (value (parseTaskfileYAML env root)) with
  | Some _ => tasks
  | None => enrichWith (fst (value (parseTaskfileYAML env root))) tasks
  end.
Proof.
  unfold enrichTaskCmds. rewrite value_bind.
  destruct (value (parseTaskfileYAML env root)) as [parsed [e|]]; reflexivity.
Qed.

End DiscoveryFacts.

(** ** Tasks of the plain listing and of the direct parse *)

Section ParsedTasks.
Context (env : Env).

Lemma plainLine_Line l t : plainLine env l = Some t -> Line t = 0.
Proof.
  unfold plainLine. intros H.
  repeat case_match; simplify_eq; reflexivity.
Qed.

Lemma plainTasks_Line out : Forall (fun t => Line t = 0) (plainTasks env out).
Proof.
  apply Forall_forall. intros t Ht. unfold plainTasks in Ht.
  apply list_elem_of_omap in Ht as (l & _ & Hl). eapply plainLine_Line, Hl.
Qed.

Lemma yamlTask_Some name raw t :
  yamlTask env name raw = Some t ->
  Name t = name /\ Line t = 0 /\ exists rm, raw = AMap rm.
Proof.
  unfold yamlTask. destruct raw; try discriminate.
  intros [= <-]. simpl. eauto.
Qed.

Lemma yamlTasks_Line section : Forall (fun t => Line t = 0) (yamlTasks env section).
Proof.
  induction section as [|[name raw] rest IH]; simpl; [constructor|].
  destruct (yamlTask env name raw) eqn:E; [|exact IH].
  constructor; [|exact IH]. apply yamlTask_Some in E. tauto.
Qed.

Lemma yamlTasks_names section : map Name (yamlTasks env section) = mapEntries section.
Proof.
  unfold mapEntries.
  induction section as [|[name raw] rest IH]; simpl; [reflexivity|].
  destruct (yamlTask env name raw) eqn:E.
  - apply yamlTask_Some in E as (<- & _ & rm & ->). simpl. f_equal. exact IH.
  - destruct raw; try exact IH. discriminate.
Qed.

End ParsedTasks.

Lemma listViaPlain_Line env root :
  Forall (fun t => Line t = 0) (fst (value (listViaPlain env root))).
Proof.
  unfold listViaPlain. rewrite value_bind. unfold Run at 1. simpl.
  destruct (exec_Run env root "task" _) as [out [e|]]; simpl.
  - constructor.
  - apply plainTasks_Line.
Qed.

Lemma parseTaskfileYAML_Line env root :
  Forall (fun t => Line t = 0) (fst (value (parseTaskfileYAML env root))).
Proof.
  unfold parseTaskfileYAML. rewrite value_bind.
  destruct (decide _); [constructor|].
  rewrite value_bind. unfold ReadFile at 1. simpl.
  destruct (os_ReadFile env _) as [data [e|]]; simpl; [constructor|].
  destruct (yaml_Unmarshal env data) as [node [e|]]; [constructor|].
  destruct (mapIndex node "tasks") as [[]|]; simpl; try constructor.
  apply yamlTasks_Line.
Qed.

(** ** Enrichment *)

Lemma enriched_refl parsed t : enriched parsed t t.
Proof. unfold enriched. tauto. Qed.

(** [idx] sends a name to a position that holds a task of that name. *)
Definition indexes (idx : gmap string nat) (tasks : list Task) : Prop :=
  forall name i, idx !! name = Some i ->
    exists t, tasks !! i = Some t /\ Name t = name.

Lemma enrichIndex_indexes pre rest idx :
  indexes idx (pre ++ rest) ->
  indexes (enrichIndex rest (length pre) idx) (pre ++ rest).
Proof.
  revert pre idx. induction rest as [|t rest IH]; intros pre idx Hidx; simpl.
  - exact Hidx.
  - specialize (IH (pre ++ [t]) (<[Name t := length pre]> idx)).
    rewrite length_app, <- app_assoc in IH. simpl in IH.
    replace (length pre + 1)%nat with (S (length pre)) in IH by lia.
    apply IH. intros name i Hi.
    destruct (decide (Name t = name)) as [<-|Hne].
    + rewrite lookup_insert_eq in Hi. injection Hi as <-.
      exists t. split; [|reflexivity].
      rewrite lookup_app_r by lia. rewrite Nat.sub_diag. reflexivity.
    + rewrite lookup_insert_ne in Hi by exact Hne. apply Hidx, Hi.
Qed.

Lemma indexes_names idx (l k : list Task) :
  Forall2 (fun t t' => Name t' = Name t) l k -> indexes idx l -> indexes idx k.
Proof.
  intros HF Hidx name i Hi. destruct (Hidx name i Hi) as (t & Ht & Hn).
  destruct (Forall2_lookup_l _ _ _ _ _ HF Ht) as (t' & Ht' & Hn').
  exists t'. split; [exact Ht' | congruence].
Qed.

(** What one iteration does to the task it points at. *)
Lemma enrichOne_spec idx cur p :
  indexes idx cur ->
  Forall2 (enriched [p]) cur (enrichOne idx cur p).
Proof.
  intros Hidx. unfold enrichOne.
  destruct (idx !! Name p) as [i|] eqn:Ei;
    [|apply Forall_Forall2_diag, Forall_forall; intros; apply enriched_refl].
  destruct (Hidx _ _ Ei) as (t & Ht & Hname). rewrite Ht.
  rewrite <- (list_insert_id cur i t Ht) at 1.
  apply Forall2_insert;
    [apply Forall_Forall2_diag, Forall_forall; intros; apply enriched_refl|].
  assert (Hp : p ∈ [p]) by (apply list_elem_of_here).
  unfold enriched.
  destruct ((len (Cmds t) =? 0) && (0 <? len (Cmds p))) eqn:Ec;
    destruct (String.eqb (Desc _) "" && negb (String.eqb (Desc p) "")) eqn:Ed;
    simpl in *; repeat split; auto.
  - right. apply andb_prop in Ec as [Ec _]. apply Z.eqb_eq in Ec.
    unfold len in Ec. destruct (Cmds t); [|discriminate Ec]. eauto.
  - right. apply andb_prop in Ed as [Ed _]. apply String.eqb_eq in Ed. eauto.
  - right. apply andb_prop in Ec as [Ec _]. apply Z.eqb_eq in Ec.
    unfold len in Ec. destruct (Cmds t); [|discriminate Ec]. eauto.
  - right. apply andb_prop in Ed as [Ed _]. apply String.eqb_eq in Ed. eauto.
Qed.

Lemma enriched_trans parsed p t t1 t2 :
  p ∈ parsed -> enriched parsed t t1 -> enriched [p] t1 t2 -> enriched parsed t t2.
Proof.
  intros Hp (Hn1 & Hl1 & Hc1 & Hd1) (Hn2 & Hl2 & Hc2 & Hd2).
  assert (Hin : forall q, q ∈ [p] -> q ∈ parsed)
    by (intros q Hq; apply list_elem_of_singleton in Hq; subst; exact Hp).
  unfold enriched. repeat split; try congruence.
  - destruct Hc2 as [Hc2|(He & q & Hq & Hqn & Hqc)].
    + rewrite Hc2. exact Hc1.
    + destruct Hc1 as [Hc1|(He1 & _)].
      * right. split; [congruence|]. exists q.
        repeat split; [auto | congruence | exact Hqc].
      * right. split; [exact He1|]. exists q.
        repeat split; [auto | congruence | exact Hqc].
  - destruct Hd2 as [Hd2|(He & q & Hq & Hqn & Hqc)].
    + rewrite Hd2. exact Hd1.
    + destruct Hd1 as [Hd1|(He1 & _)].
      * right. split; [congruence|]. exists q.
        repeat split; [auto | congruence | exact Hqc].
      * right. split; [exact He1|]. exists q.
        repeat split; [auto | congruence | exact Hqc].
Qed.

Lemma Forall2_chain {A} (R S T : A -> A -> Prop) (l k j : list A) :
  (forall x y z, R x y -> S y z -> T x z) ->
  Forall2 R l k -> Forall2 S k j -> Forall2 T l j.
Proof.
  intros HT HR. revert j. induction HR as [|x y l k Hxy HR IH]; intros j HS.
  - inversion HS. constructor.
  - inversion HS as [|? z ? j' Hyz HS']; subst. constructor; eauto.
Qed.

Lemma enriched_names parsed (l k : list Task) :
  Forall2 (enriched parsed) l k -> Forall2 (fun t t' => Name t' = Name t) l k.
Proof. intros H. eapply Forall2_impl; [exact H|]. intros t t' (Hn & _). exact Hn. Qed.

Lemma enrich_fold idx parsed ps tasks0 cur :
  (forall p, p ∈ ps -> p ∈ parsed) ->
  indexes idx cur ->
  Forall2 (enriched parsed) tasks0 cur ->
  Forall2 (enriched parsed) tasks0 (fold_left (enrichOne idx) ps cur).
Proof.
  revert cur. induction ps as [|p ps IH]; intros cur Hps Hidx HF; simpl.
  - exact HF.
  - pose proof (enrichOne_spec idx cur p Hidx) as Hstep.
    apply IH.
    + intros q Hq. apply Hps. apply list_elem_of_further, Hq.
    + eapply indexes_names; [|exact Hidx]. eapply enriched_names, Hstep.
    + eapply Forall2_chain; [|exact HF|exact Hstep].
      intros x y z. apply enriched_trans, Hps, list_elem_of_here.
Qed.

Lemma enrichWith_enriched parsed tasks :
  Forall2 (enriched parsed) tasks (enrichWith parsed tasks).
Proof.
  unfold enrichWith. apply enrich_fold.
  - auto.
  - apply (enrichIndex_indexes [] tasks ∅). intros name i Hi.
    rewrite lookup_empty in Hi. discriminate.
  - apply Forall_Forall2_diag, Forall_forall. intros. apply enriched_refl.
Qed.

Lemma enrichTaskCmds_enriched env root tasks :
  Forall2 (enriched (fst (value (parseTaskfileYAML env root)))) tasks
          (value (enrichTaskCmds env root tasks)).
Proof.
  rewrite value_enrichTaskCmds.
  destruct (snd (value (parseTaskfileYAML env root))).
  - apply Forall_Forall2_diag, Forall_forall. intros. apply enriched_refl.
  - apply enrichWith_enriched.
Qed.

(** C7.  Enrichment after a listing relates the listed tasks to the
    returned ones position by position: the same number of tasks with the
    same names and lines, where a command list or a description differs
    from the listed one only if the listed one was empty, and then it is
    that of an entry of the directly parsed file with the task's name. *)
Theorem enrichTaskCmds_fills_only_empty_fields :
  forall (env : Env) (root : string) (tasks : list Task),
    let parsed := fst (value (parseTaskfileYAML env root)) in
    let tasks' := value (enrichTaskCmds env root tasks) in
    length tasks' = length tasks /\ Forall2 (enriched parsed) tasks tasks'.
Proof.
  intros env root tasks parsed tasks'.
  pose proof (enrichTaskCmds_enriched env root tasks) as H.
  split; [|exact H]. symmetry. eapply Forall2_length, H.
Qed.

(** ** Which fields each method of the model writes *)

Section Frames.
Context {lib : Lib}.

(** The list [updateFilter] makes visible. *)
Definition visibleOf (m : TaskModel) : list Task :=
  if String.eqb (searchQuery m) ""
  then default [] (tabTasks m !! activeTab m)
  else List.filter (matches (strings_ToLower (searchQuery m))) (tasks m).

Lemma set_itemHeight_id m : set_itemHeight (itemHeight m) m = m.
Proof. destruct m; reflexivity. Qed.

Lemma set_listOffset_id m : set_listOffset (listOffset m) m = m.
Proof. destruct m; reflexivity. Qed.

Lemma set_selected_id m : set_selected (selected m) m = m.
Proof. destruct m; reflexivity. Qed.

Lemma set_activeTab_id m : set_activeTab (activeTab m) m = m.
Proof. destruct m; reflexivity. Qed.

Lemma visibleListHeight_frame m :
  exists ih, snd (visibleListHeight m) = set_itemHeight ih m.
Proof.
  unfold visibleListHeight.
  destruct (itemHeight m =? 0).
  - destruct (itemHeight (set_itemHeight (measureItemHeight m) m) <=? 0).
    + exists 7. repeat case_match; reflexivity.
    + exists (measureItemHeight m). repeat case_match; reflexivity.
  - exists (itemHeight m). rewrite set_itemHeight_id.
    repeat case_match; reflexivity.
Qed.

Lemma ensureSelectionVisible_frame m :
  exists ih lo, ensureSelectionVisible m = set_listOffset lo (set_itemHeight ih m).
Proof.
  unfold ensureSelectionVisible.
  destruct (visibleListHeight_frame m) as [ih Hih].
  destruct (visibleListHeight m) as [h m1]. simpl in Hih. subst m1.
  exists ih.
  repeat match goal with
         | |- context [if ?b then _ else _] => destruct b; cbn [listOffset set_listOffset set_itemHeight]
         end;
    eexists; try reflexivity;
    symmetry; apply (set_listOffset_id (set_itemHeight ih m)).
Qed.

Lemma updateFilter_frame m :
  exists sel ih lo,
    updateFilter m =
    set_listOffset lo (set_itemHeight ih
      (set_selected sel (set_filteredTasks (visibleOf m) m))).
Proof.
  assert (H : forall m0 : TaskModel, exists sel ih lo,
             ensureSelectionVisible
               (if selected m0 >=? len (filteredTasks m0)
                then set_selected (max 0 (len (filteredTasks m0) - 1)) m0 else m0) =
             set_listOffset lo (set_itemHeight ih (set_selected sel m0))).
  { intros m0. destruct (selected m0 >=? len (filteredTasks m0)).
    - destruct (ensureSelectionVisible_frame
                  (set_selected (max 0 (len (filteredTasks m0) - 1)) m0))
        as (ih & lo & ->). eauto.
    - destruct (ensureSelectionVisible_frame m0) as (ih & lo & ->).
      exists (selected m0), ih, lo. rewrite set_selected_id. reflexivity. }
  unfold updateFilter, visibleOf.
  destruct (String.eqb (searchQuery m) "").
  - exact (H (set_filteredTasks (default [] (tabTasks m !! activeTab m)) m)).
  - exact (H (set_filteredTasks
                (List.filter (matches (strings_ToLower (searchQuery m))) (tasks m))
                m)).
Qed.

End Frames.

(** ** The stable sort *)

Section SortFacts.
Context {A : Type} (less : A -> A -> bool).

(** [notAfter a b]: [b] does not have to go before [a]. *)
Definition notAfter (a b : A) : Prop := less b a = false.

Lemma insert_Permutation x l : sort.insert less x l ≡ₚ x :: l.
Proof.
  induction l as [|y l IH]; simpl; [reflexivity|].
  destruct (less y x); [|reflexivity].
  rewrite IH. apply perm_swap.
Qed.

Lemma SliceStable_Permutation l : sort.SliceStable less l ≡ₚ l.
Proof.
  induction l as [|x l IH]; simpl; [reflexivity|].
  rewrite insert_Permutation, IH. reflexivity.
Qed.

Lemma insert_first x l : HdRel notAfter x l -> sort.insert less x l = x :: l.
Proof.
  intros H. destruct H as [|y l Hy]; simpl; [reflexivity|].
  unfold notAfter in Hy. rewrite Hy. reflexivity.
Qed.

(** Sorting a slice that is already in order leaves it as it is. *)
Lemma SliceStable_sorted l : Sorted notAfter l -> sort.SliceStable less l = l.
Proof.
  induction 1 as [|x l Hs IH Hx]; simpl; [reflexivity|].
  rewrite IH. apply insert_first, Hx.
Qed.

Lemma filter_StronglySorted (f : A -> bool) l :
  StronglySorted notAfter l -> StronglySorted notAfter (List.filter f l).
Proof.
  induction 1 as [|x l Hs IH Hx]; simpl; [constructor|].
  destruct (f x); [|exact IH]. constructor; [exact IH|].
  rewrite List.Forall_forall in *. intros y Hy.
  apply List.filter_In in Hy as [Hy _]. apply Hx, Hy.
Qed.

End SortFacts.

Lemma byLine_notAfter a b : notAfter byLine a b <-> Line a <= Line b.
Proof. unfold notAfter, byLine. rewrite Z.ltb_ge. reflexivity. Qed.

Lemma byLine_insert_sorted x l :
  Sorted (notAfter byLine) l -> Sorted (notAfter byLine) (sort.insert byLine x l).
Proof.
  induction 1 as [|y l Hs IH Hy]; simpl.
  - repeat constructor.
  - destruct (byLine y x) eqn:E.
    + constructor; [exact IH|].
      destruct Hy as [|z l Hz]; simpl.
      * constructor. apply byLine_notAfter. unfold byLine in E. lia.
      * destruct (byLine z x) eqn:Ez; constructor; [exact Hz|].
        apply byLine_notAfter. unfold byLine in E. lia.
    + constructor; [constructor; assumption|]. constructor. exact E.
Qed.

Lemma byLine_SliceStable_sorted l :
  Sorted (notAfter byLine) (sort.SliceStable byLine l).
Proof.
  induction l as [|x l IH]; simpl; [constructor|].
  apply byLine_insert_sorted, IH.
Qed.

Lemma byLine_filter_sorted (f : Task -> bool) l :
  Sorted (notAfter byLine) l -> Sorted (notAfter byLine) (List.filter f l).
Proof.
  intros H. apply StronglySorted_Sorted, filter_StronglySorted.
  apply Sorted.Sorted_StronglySorted; [|exact H].
  intros a b c. rewrite !byLine_notAfter. lia.
Qed.

Lemma byLine_zero_sorted l :
  Forall (fun t => Line t = 0) l -> Sorted (notAfter byLine) l.
Proof.
  induction 1 as [|x l Hx Hl IH]; constructor; [exact IH|].
  destruct Hl as [|y l Hy _]; constructor.
  apply byLine_notAfter. lia.
Qed.

(** ** The tab partition *)

(** The tab a task belongs to, and the tasks of a tab. *)
Definition label (t : Task) : string := tabPrefix (Name t).
Definition hasLabel (p : string) (t : Task) : bool := String.eqb (label t) p.
Definition group (l : list Task) (p : string) : list Task :=
  List.filter (hasLabel p) l.

(** What the grouping loop of [buildTabs] has built after the tasks [l]. *)
Definition grouped (l : list Task)
    (acc : gmap string (list Task) * list string * gset string) : Prop :=
  let '(prefixMap, prefixes, prefixSet) := acc in
  (forall p, p ∈ prefixSet <-> p ∈ prefixes) /\
  NoDup prefixes /\
  (forall p, p ∈ prefixes <-> exists t, t ∈ l /\ label t = p) /\
  (forall p, p ∈ prefixes -> prefixMap !! p = Some (group l p)) /\
  (forall p, p ∉ prefixes -> prefixMap !! p = None).

Lemma hasLabel_true p t : hasLabel p t = true <-> label t = p.
Proof. unfold hasLabel. apply String.eqb_eq. Qed.

Lemma group_snoc l t p :
  group (l ++ [t]) p = if hasLabel p t then group l p ++ [t] else group l p.
Proof.
  unfold group. rewrite List.filter_app. simpl.
  destruct (hasLabel p t); [reflexivity | apply app_nil_r].
Qed.

Lemma group_nil l p : (forall t, t ∈ l -> label t <> p) -> group l p = [].
Proof.
  intros H. unfold group. induction l as [|t l IH]; simpl; [reflexivity|].
  destruct (hasLabel p t) eqn:E.
  - apply hasLabel_true in E. exfalso. eapply H; [apply list_elem_of_here | exact E].
  - apply IH. intros u Hu. apply H, list_elem_of_further, Hu.
Qed.

Lemma groupTask_grouped l acc t :
  grouped l acc -> grouped (l ++ [t]) (groupTask acc t).
Proof.
  destruct acc as [[pm ps] pset]. intros (Hset & Hnd & Hps & Hin & Hout).
  unfold groupTask. fold (label t).
  destruct (bool_decide (label t ∈ pset)) eqn:E.
  - apply bool_decide_eq_true in E. apply Hset in E.
    repeat split; auto; try apply Hset.
    + intros Hp. apply Hps in Hp as (u & Hu & Hlu). exists u.
      split; [|exact Hlu]. apply elem_of_app. left. exact Hu.
    + intros (u & Hu & Hlu). apply elem_of_app in Hu as [Hu|Hu].
      * apply Hps. eauto.
      * apply list_elem_of_singleton in Hu. subst. exact E.
    + intros p Hp. rewrite group_snoc.
      destruct (decide (label t = p)) as [<-|Hne].
      * rewrite lookup_insert_eq, (Hin _ E). simpl.
        replace (hasLabel (label t) t) with true
          by (symmetry; apply hasLabel_true; reflexivity).
        reflexivity.
      * rewrite lookup_insert_ne by exact Hne.
        destruct (hasLabel p t) eqn:El; [apply hasLabel_true in El; contradiction|].
        apply Hin, Hp.
    + intros p Hp. rewrite lookup_insert_ne; [apply Hout, Hp|].
      intros <-. contradiction.
  - apply bool_decide_eq_false in E.
    assert (Hnew : label t ∉ ps) by (intros H; apply E, Hset, H).
    repeat split.
    + intros Hp. apply elem_of_union in Hp as [Hp|Hp].
      * apply elem_of_singleton in Hp. subst. apply elem_of_app. right.
        apply list_elem_of_here.
      * apply elem_of_app. left. apply Hset, Hp.
    + intros Hp. apply elem_of_app in Hp as [Hp|Hp].
      * apply elem_of_union. right. apply Hset, Hp.
      * apply list_elem_of_singleton in Hp. subst. apply elem_of_union. left.
        apply elem_of_singleton. reflexivity.
    + apply NoDup_app. repeat split; [exact Hnd| |apply NoDup_singleton].
      intros p Hp Hp'. apply list_elem_of_singleton in Hp'. subst. contradiction.
    + intros Hp. apply elem_of_app in Hp as [Hp|Hp].
      * apply Hps in Hp as (u & Hu & Hlu). exists u.
        split; [|exact Hlu]. apply elem_of_app. left. exact Hu.
      * apply list_elem_of_singleton in Hp. subst. exists t.
        split; [|reflexivity]. apply elem_of_app. right. apply list_elem_of_here.
    + intros (u & Hu & Hlu). apply elem_of_app in Hu as [Hu|Hu].
      * apply elem_of_app. left. apply Hps. eauto.
      * apply list_elem_of_singleton in Hu. subst. apply elem_of_app. right.
        apply list_elem_of_here.
    + intros p Hp. rewrite group_snoc.
      destruct (decide (label t = p)) as [<-|Hne].
      * rewrite lookup_insert_eq, (Hout _ Hnew). simpl.
        replace (hasLabel (label t) t) with true
          by (symmetry; apply hasLabel_true; reflexivity).
        rewrite group_nil; [reflexivity|].
        intros u Hu Hlu. apply Hnew, Hps. eauto.
      * rewrite lookup_insert_ne by exact Hne.
        destruct (hasLabel p t) eqn:El; [apply hasLabel_true in El; contradiction|].
        apply Hin. apply elem_of_app in Hp as [Hp|Hp]; [exact Hp|].
        apply list_elem_of_singleton in Hp. congruence.
    + intros p Hp. rewrite lookup_insert_ne.
      * apply Hout. intros H. apply Hp, elem_of_app. left. exact H.
      * intros <-. apply Hp, elem_of_app. right. apply list_elem_of_here.
Qed.

Lemma fold_groupTask_grouped l :
  grouped l (fold_left groupTask l (∅, [], ∅)).
Proof.
  induction l as [|t l IH] using rev_ind.
  - simpl. repeat split.
    + intros H. apply elem_of_empty in H. contradiction.
    + intros H. apply elem_of_nil in H. contradiction.
    + apply NoDup_nil_2.
    + intros H. apply elem_of_nil in H. contradiction.
    + intros (t & Ht & _). apply elem_of_nil in Ht. contradiction.
    + intros p H. apply elem_of_nil in H. contradiction.
  - rewrite fold_left_app. simpl. apply groupTask_grouped, IH.
Qed.

Lemma concat_map_nil {A B} (ps : list A) :
  concat (map (fun _ => @nil B) ps) = [].
Proof. induction ps; simpl; auto. Qed.

Lemma concat_map_Permutation_ext {A B} (f g : A -> list B) ps :
  (forall p, p ∈ ps -> f p ≡ₚ g p) -> concat (map f ps) ≡ₚ concat (map g ps).
Proof.
  induction ps as [|p ps IH]; intros H; simpl; [reflexivity|].
  rewrite (H p) by apply list_elem_of_here.
  rewrite IH; [reflexivity|]. intros q Hq. apply H, list_elem_of_further, Hq.
Qed.

Lemma concat_map_Permutation {A B} (f : A -> list B) ps ps' :
  ps ≡ₚ ps' -> concat (map f ps) ≡ₚ concat (map f ps').
Proof.
  induction 1 as [|p ps ps' _ IH|p q ps|ps1 ps2 ps3 _ IH1 _ IH2]; simpl.
  - reflexivity.
  - rewrite IH. reflexivity.
  - rewrite !app_assoc. apply Permutation_app_tail, Permutation_app_comm.
  - rewrite IH1. exact IH2.
Qed.

Lemma group_cons_other t l p : label t <> p -> group (t :: l) p = group l p.
Proof.
  intros H. unfold group. simpl.
  destruct (hasLabel p t) eqn:E; [|reflexivity].
  apply hasLabel_true in E. contradiction.
Qed.

Lemma group_cons_same t l : group (t :: l) (label t) = t :: group l (label t).
Proof.
  unfold group. simpl.
  replace (hasLabel (label t) t) with true
    by (symmetry; apply hasLabel_true; reflexivity).
  reflexivity.
Qed.

Lemma map_group_cons_other t l ps :
  label t ∉ ps -> map (group (t :: l)) ps = map (group l) ps.
Proof.
  intros H. apply map_ext_in. intros p Hp. apply group_cons_other.
  intros <-. apply H, list_elem_of_In, Hp.
Qed.

(** The groups of the labels, one after another, hold the tasks once each. *)
Lemma groups_Permutation l ps :
  NoDup ps -> (forall t, t ∈ l -> label t ∈ ps) ->
  concat (map (group l) ps) ≡ₚ l.
Proof.
  intros Hnd. induction l as [|t l IH]; intros Hall.
  - unfold group. simpl. rewrite concat_map_nil. reflexivity.
  - assert (Hq : label t ∈ ps) by apply Hall, list_elem_of_here.
    apply list_elem_of_split in Hq as (ps1 & ps2 & Hps).
    assert (IH' : concat (map (group l) ps) ≡ₚ l).
    { apply IH. intros u Hu. apply Hall, list_elem_of_further, Hu. }
    rewrite Hps in Hnd, IH' |- *.
    apply NoDup_app in Hnd as (_ & H1 & H2).
    apply NoDup_cons in H2 as (H2 & _).
    rewrite !map_app, !concat_app in *. cbn [map concat] in *.
    rewrite (map_group_cons_other t l ps1), (map_group_cons_other t l ps2), group_cons_same.
    + etransitivity; [symmetry; apply Permutation_middle|].
      apply perm_skip, IH'.
    + exact H2.
    + intros H. apply (H1 _ H), list_elem_of_here.
Qed.

Lemma indexOf_lookup x l i0 :
  indexOf x l i0 <> -1 -> 0 <= i0 ->
  i0 <= indexOf x l i0 /\ l !! Z.to_nat (indexOf x l i0 - i0) = Some x.
Proof.
  revert i0. induction l as [|y l IH]; intros i0 H Hi0; simpl in *; [contradiction|].
  destruct (String.eqb y x) eqn:E.
  - apply String.eqb_eq in E. subst. rewrite Z.sub_diag. simpl. split; [lia|reflexivity].
  - destruct (IH (i0 + 1) H ltac:(lia)) as [Hle Hl]. split; [lia|].
    replace (Z.to_nat (indexOf x l (i0 + 1) - i0))
      with (S (Z.to_nat (indexOf x l (i0 + 1) - (i0 + 1)))) by lia.
    exact Hl.
Qed.

Lemma indexOf_ge x l i0 : indexOf x l i0 = -1 \/ i0 <= indexOf x l i0.
Proof.
  revert i0. induction l as [|y l IH]; intros i0; simpl; [left; reflexivity|].
  destruct (String.eqb y x); [right; lia|].
  destruct (IH (i0 + 1)); [left; assumption | right; lia].
Qed.

(** The block of [buildTabs] that moves ["main"] to the front. *)
Lemma hoist_Permutation (prefixes : list string) :
  let mainIndex := indexOf "main" prefixes 0 in
  (if mainIndex >? 0
   then "main" :: (take (Z.to_nat mainIndex) prefixes
                   ++ drop (Z.to_nat (mainIndex + 1)) prefixes)
   else prefixes) ≡ₚ prefixes.
Proof.
  intros mainIndex. destruct (mainIndex >? 0) eqn:E; [|reflexivity].
  destruct (indexOf_lookup "main" prefixes 0) as [_ H]; [fold mainIndex; lia|lia|].
  fold mainIndex in H. rewrite Z.sub_0_r in H.
  replace (Z.to_nat (mainIndex + 1)) with (S (Z.to_nat mainIndex)) by lia.
  rewrite <- (take_drop_middle _ _ _ H) at 3.
  apply Permutation_middle.
Qed.

Section BuildTabs.
Context {lib : Lib}.

(** The sort [buildTabs] applies inside every tab. *)
Definition tabSort (m : TaskModel) : list Task -> list Task :=
  if String.eqb (sortMode m) "alpha"
  then sort.SliceStable byName else sort.SliceStable byLine.

(** The first-seen labels of the tasks, as the grouping loop lists them. *)
Definition firstSeen (l : list Task) : list string :=
  snd (fst (fold_left groupTask l (∅, [], ∅))).

(** The tab order [buildTabs] derives from the first-seen labels. *)
Definition tabOrder (m : TaskModel) : list string :=
  let prefixes := firstSeen (originalTasks m) in
  let prefixes :=
    if String.eqb (sortMode m) "alpha" then sort_Strings prefixes else prefixes in
  let mainIndex := indexOf "main" prefixes 0 in
  if mainIndex >? 0
  then "main" :: (take (Z.to_nat mainIndex) prefixes
                  ++ drop (Z.to_nat (mainIndex + 1)) prefixes)
  else prefixes.

Lemma buildTabs_frame m :
  exists act,
    buildTabs m =
    set_activeTab act
      (set_tabTasks (tabSort m <$> fst (fst (fold_left groupTask (originalTasks m) (∅, [], ∅))))
         (set_tabs (tabOrder m) m)).
Proof.
  unfold buildTabs, tabOrder, firstSeen, tabSort.
  destruct (fold_left groupTask (originalTasks m) (∅, [], ∅)) as [[pm ps] pset].
  simpl fst. simpl snd.
  destruct (String.eqb (sortMode m) "alpha");
    match goal with
    | |- context [if negb ?b && ?c then _ else _] => destruct (negb b && c)
    end;
    eexists; try reflexivity;
    rewrite set_activeTab_id; reflexivity.
Qed.

Lemma tabOrder_Permutation m : tabOrder m ≡ₚ firstSeen (originalTasks m).
Proof.
  unfold tabOrder. rewrite hoist_Permutation.
  destruct (String.eqb (sortMode m) "alpha"); [|reflexivity].
  apply SliceStable_Permutation.
Qed.

Lemma tabTasks_buildTabs m p :
  p ∈ tabOrder m ->
  tabTasks (buildTabs m) !! p = Some (tabSort m (group (originalTasks m) p)).
Proof.
  intros Hp. destruct (buildTabs_frame m) as [act ->]. simpl.
  rewrite lookup_fmap.
  pose proof (fold_groupTask_grouped (originalTasks m)) as Hg.
  rewrite tabOrder_Permutation in Hp. unfold firstSeen in Hp.
  destruct (fold_left groupTask (originalTasks m) (∅, [], ∅)) as [[pm ps] pset].
  destruct Hg as (_ & _ & _ & Hin & _). simpl in *.
  rewrite (Hin p Hp). reflexivity.
Qed.

Lemma tabs_buildTabs m : tabs (buildTabs m) = tabOrder m.
Proof. destruct (buildTabs_frame m) as [act ->]. reflexivity. Qed.

Lemma originalTasks_buildTabs m : originalTasks (buildTabs m) = originalTasks m.
Proof. destruct (buildTabs_frame m) as [act ->]. reflexivity. Qed.

Lemma firstSeen_NoDup l : NoDup (firstSeen l).
Proof.
  pose proof (fold_groupTask_grouped l) as Hg. unfold firstSeen.
  destruct (fold_left groupTask l (∅, [], ∅)) as [[pm ps] pset].
  destruct Hg as (_ & H & _). exact H.
Qed.

Lemma firstSeen_labels l t : t ∈ l -> label t ∈ firstSeen l.
Proof.
  pose proof (fold_groupTask_grouped l) as Hg. unfold firstSeen.
  destruct (fold_left groupTask l (∅, [], ∅)) as [[pm ps] pset].
  destruct Hg as (_ & _ & H & _). intros Ht. apply H. eauto.
Qed.

(** After [buildTabs] the concatenation of the tab groups is the sorted
    groups of the tab order. *)
Lemma flatten_buildTabs m :
  flatten (buildTabs m) =
  concat (map (fun p => tabSort m (group (originalTasks m) p)) (tabOrder m)).
Proof.
  unfold flatten. rewrite tabs_buildTabs. f_equal.
  apply map_ext_in. intros p Hp. apply list_elem_of_In in Hp.
  rewrite (tabTasks_buildTabs m p Hp). reflexivity.
Qed.

Lemma tabSort_Permutation m l : tabSort m l ≡ₚ l.
Proof. unfold tabSort. destruct (String.eqb _ _); apply SliceStable_Permutation. Qed.

Lemma flatten_buildTabs_Permutation m : flatten (buildTabs m) ≡ₚ originalTasks m.
Proof.
  rewrite flatten_buildTabs.
  rewrite (concat_map_Permutation_ext _ (group (originalTasks m)))
    by (intros; apply tabSort_Permutation).
  rewrite (concat_map_Permutation _ _ _ (tabOrder_Permutation m)).
  apply groups_Permutation.
  - apply firstSeen_NoDup.
  - apply firstSeen_labels.
Qed.

End BuildTabs.

Section NewModel.
Context {lib : Lib}.

Lemma flatten_updateFilter m : flatten (updateFilter m) = flatten m.
Proof. destruct (updateFilter_frame m) as (sel & ih & lo & ->). reflexivity. Qed.

Lemma tabs_updateFilter m : tabs (updateFilter m) = tabs m.
Proof. destruct (updateFilter_frame m) as (sel & ih & lo & ->). reflexivity. Qed.

Lemma originalTasks_updateFilter m : originalTasks (updateFilter m) = originalTasks m.
Proof. destruct (updateFilter_frame m) as (sel & ih & lo & ->). reflexivity. Qed.

Lemma tasks_updateFilter m : tasks (updateFilter m) = tasks m.
Proof. destruct (updateFilter_frame m) as (sel & ih & lo & ->). reflexivity. Qed.

Lemma tasks_buildTabs m : tasks (buildTabs m) = tasks m.
Proof. destruct (buildTabs_frame m) as [act ->]. reflexivity. Qed.

Lemma sortMode_buildTabs m : sortMode (buildTabs m) = sortMode m.
Proof. destruct (buildTabs_frame m) as [act ->]. reflexivity. Qed.

Lemma originalTasks_NewTaskModel ts themeName mouse projectName now :
  originalTasks (NewTaskModel ts themeName mouse projectName now) =
  sort.SliceStable byLine ts.
Proof.
  unfold NewTaskModel.
  rewrite originalTasks_updateFilter, originalTasks_buildTabs. reflexivity.
Qed.

Lemma tasks_NewTaskModel ts themeName mouse projectName now :
  tasks (NewTaskModel ts themeName mouse projectName now) =
  sort.SliceStable byLine ts.
Proof.
  unfold NewTaskModel. rewrite tasks_updateFilter, tasks_buildTabs. reflexivity.
Qed.

Lemma NewTaskModel_tabs ts themeName mouse projectName now :
  let m := NewTaskModel ts themeName mouse projectName now in
  let m0 := mkTaskModel (sort.SliceStable byLine ts) (sort.SliceStable byLine ts)
              (sort.SliceStable byLine ts) 0 false "" textinput_New
              (if String.eqb themeName "light" then LightTheme else DarkTheme)
              mouse 0 0 "" "" now projectName "" "" false 0 0 0 0 [] "" ∅ "file" in
  originalTasks m = sort.SliceStable byLine ts /\
  flatten m = flatten (buildTabs m0) /\
  tabs m = tabs (buildTabs m0).
Proof.
  intros m m0. subst m. unfold NewTaskModel. fold m0.
  rewrite originalTasks_updateFilter, flatten_updateFilter, tabs_updateFilter.
  rewrite originalTasks_buildTabs. repeat split.
Qed.

(** Under the file order every tab holds its tasks in the order of
    [originalTasks], once that slice is in line order. *)
Lemma flatten_buildTabs_file m :
  sortMode m = "file" ->
  Sorted (notAfter byLine) (originalTasks m) ->
  flatten (buildTabs m) = concat (map (group (originalTasks m)) (tabOrder m)).
Proof.
  intros Hmode Hsorted. rewrite flatten_buildTabs. f_equal.
  apply map_ext. intros p. unfold tabSort. rewrite Hmode. simpl.
  apply SliceStable_sorted, byLine_filter_sorted, Hsorted.
Qed.

End NewModel.

Lemma indexOf_absent x l i0 : 0 <= i0 -> indexOf x l i0 = -1 -> x ∉ l.
Proof.
  revert i0. induction l as [|y l IH]; intros i0 Hi0 H Hin.
  - apply elem_of_nil in Hin. exact Hin.
  - simpl in H. destruct (String.eqb y x) eqn:E; [lia|].
    apply String.eqb_neq in E.
    apply elem_of_cons in Hin as [Hin|Hin]; [congruence|].
    apply (IH (i0 + 1)); [lia | exact H | exact Hin].
Qed.

Lemma indexOf_first x l i :
  NoDup l -> l !! i = Some x -> indexOf x l 0 = Z.of_nat i.
Proof.
  assert (G : forall i0, NoDup l -> l !! i = Some x ->
                         indexOf x l i0 = i0 + Z.of_nat i).
  { revert i. induction l as [|y l IH]; intros i i0 Hnd Hi; [discriminate|].
    apply NoDup_cons in Hnd as [Hy Hnd]. simpl.
    destruct i as [|i]; simpl in Hi.
    - injection Hi as ->. rewrite String.eqb_refl. lia.
    - destruct (String.eqb y x) eqn:E.
      + apply String.eqb_eq in E. subst. exfalso. apply Hy.
        eapply list_elem_of_lookup_2, Hi.
      + rewrite (IH i (i0 + 1) Hnd Hi). lia. }
  intros Hnd Hi. rewrite (G 0 Hnd Hi). lia.
Qed.

Lemma hoist_main_first (prefixes : list string) :
  let mainIndex := indexOf "main" prefixes 0 in
  let hoisted :=
    if mainIndex >? 0
    then "main" :: (take (Z.to_nat mainIndex) prefixes
                    ++ drop (Z.to_nat (mainIndex + 1)) prefixes)
    else prefixes in
  "main" ∈ hoisted -> head hoisted = Some "main".
Proof.
  intros mainIndex hoisted Hin. subst hoisted.
  destruct (mainIndex >? 0) eqn:E; [reflexivity|].
  rewrite Z.gtb_ltb in E. apply Z.ltb_ge in E.
  destruct (Z.eq_dec mainIndex (-1)) as [Hm|Hm].
  - exfalso. eapply (indexOf_absent "main" prefixes 0); [lia | exact Hm | exact Hin].
  - destruct (indexOf_lookup "main" prefixes 0 Hm ltac:(lia)) as [Hge Hl].
    fold mainIndex in Hge, Hl.
    replace (mainIndex - 0) with 0 in Hl by lia.
    destruct prefixes; [discriminate|]. simpl in *. exact Hl.
Qed.

Section TabOrderFacts.
Context {lib : Lib}.

Lemma tabOrder_main_first m :
  "main" ∈ tabOrder m -> head (tabOrder m) = Some "main".
Proof. unfold tabOrder. apply hoist_main_first. Qed.

Lemma tabOrder_labels m p :
  p ∈ tabOrder m <-> exists t, t ∈ originalTasks m /\ label t = p.
Proof.
  rewrite tabOrder_Permutation. unfold firstSeen.
  pose proof (fold_groupTask_grouped (originalTasks m)) as Hg.
  destruct (fold_left groupTask (originalTasks m) (∅, [], ∅)) as [[pm ps] pset].
  destruct Hg as (_ & _ & H & _). apply H.
Qed.

Lemma group_nonempty l t : t ∈ l -> group l (label t) <> [].
Proof.
  intros Ht Hnil.
  assert (Hin : t ∈ group l (label t)).
  { unfold group. apply list_elem_of_In, List.filter_In. split.
    - apply list_elem_of_In, Ht.
    - apply hasLabel_true. reflexivity. }
  rewrite Hnil in Hin. apply elem_of_nil in Hin. exact Hin.
Qed.

(** A task set that equals the concatenation of its groups, tabs in tab
    order, has the tasks of every tab in one block, and begins with a task
    of the tab "main" if it has one. *)
Lemma blocks_of_groups (l : list Task) (ps : list string) :
  (forall p, p ∈ ps <-> exists t, t ∈ l /\ label t = p) ->
  ("main" ∈ ps -> head ps = Some "main") ->
  l = concat (map (group l) ps) ->
  (forall p, exists pre post, l = pre ++ group l p ++ post) /\
  (forall t, t ∈ l -> label t = "main" ->
     exists t0 rest, l = t0 :: rest /\ label t0 = "main").
Proof.
  intros Hlabels Hmain Heq. split.
  - intros p. destruct (decide (p ∈ ps)) as [Hp|Hp].
    + apply list_elem_of_split in Hp as (ps1 & ps2 & Hps).
      exists (concat (map (group l) ps1)), (concat (map (group l) ps2)).
      etransitivity; [exact Heq|].
      rewrite Hps, map_app, concat_app. reflexivity.
    + exists l, []. rewrite group_nil; [rewrite !app_nil_r; reflexivity|].
      intros t Ht Hl. apply Hp, Hlabels. eauto.
  - intros t Ht Hl.
    assert (Hin : "main" ∈ ps) by (apply Hlabels; eauto).
    specialize (Hmain Hin). destruct ps as [|p ps']; [discriminate|].
    injection Hmain as ->. cbn [map concat] in Heq.
    pose proof (group_nonempty l t Ht) as Hne. rewrite Hl in Hne.
    destruct (group l "main") as [|t0 g] eqn:Eg; [contradiction|].
    exists t0, (g ++ concat (map (group l) ps')). split; [exact Heq|].
    assert (H0 : t0 ∈ group l "main") by (rewrite Eg; apply list_elem_of_here).
    unfold group in H0. apply list_elem_of_In, List.filter_In in H0 as [_ H0].
    apply hasLabel_true, H0.
Qed.

End TabOrderFacts.



(** ** Line numbers of the weaker strategies *)

Lemma enriched_Line_zero parsed (l k : list Task) :
  Forall2 (enriched parsed) l k ->
  Forall (fun t => Line t = 0) l -> Forall (fun t => Line t = 0) k.
Proof.
  induction 1 as [|t t' l k (_ & Hl & _) _ IH]; intros H; [constructor|].
  inversion H; subst. constructor; [congruence | auto].
Qed.

Lemma originalTasks_zero_lines `{Lib} ts themeName mouse projectName now :
  Forall (fun t => Line t = 0) ts ->
  originalTasks (NewTaskModel ts themeName mouse projectName now) = ts /\
  tasks (NewTaskModel ts themeName mouse projectName now) = ts.
Proof.
  intros Hz. rewrite originalTasks_NewTaskModel, tasks_NewTaskModel.
  split; apply SliceStable_sorted, byLine_zero_sorted, Hz.
Qed.

(** C10.  Every task of the plain-text listing and of the direct parse has
    line 0, also after enrichment, while the structured listing takes the
    line of each entry; so the model built from the tasks of either weaker
    strategy keeps them in the order the parser emitted them, which for the
    direct parse is the order in which [range] visited the [tasks] map. *)
Theorem weaker_strategies_have_line_zero :
  forall (lib : Lib) (env : Env) (root themeName : string)
         (mouseEnabled : bool) (projectName : string) (now : Z),
    let plain := fst (value (listViaPlain env root)) in
    let yaml := fst (value (parseTaskfileYAML env root)) in
    let plain' := value (enrichTaskCmds env root plain) in
    let model ts := NewTaskModel ts themeName mouseEnabled projectName now in
    Forall (fun t => Line t = 0) plain /\
    Forall (fun t => Line t = 0) plain' /\
    Forall (fun t => Line t = 0) yaml /\
    (forall lj, map Line (jsonTasks lj) = map jLocationLine lj) /\
    (originalTasks (model plain) = plain /\ tasks (model plain) = plain) /\
    (originalTasks (model plain') = plain' /\ tasks (model plain') = plain') /\
    (originalTasks (model yaml) = yaml /\ tasks (model yaml) = yaml) /\
    (forall section, map Name (yamlTasks env section) = mapEntries section).
Proof.
  intros lib env root themeName mouse projectName now plain yaml plain' model.
  assert (Hp : Forall (fun t => Line t = 0) plain) by apply listViaPlain_Line.
  assert (Hy : Forall (fun t => Line t = 0) yaml) by apply parseTaskfileYAML_Line.
  assert (Hp' : Forall (fun t => Line t = 0) plain').
  { eapply enriched_Line_zero; [|exact Hp].
    apply enrichTaskCmds_enriched. }
  split; [exact Hp|]. split; [exact Hp'|]. split; [exact Hy|].
  split; [intros lj; unfold jsonTasks; rewrite List.map_map; reflexivity|].
  subst model. cbv beta.
  split; [exact (originalTasks_zero_lines _ _ _ _ _ Hp)|].
  split; [exact (originalTasks_zero_lines _ _ _ _ _ Hp')|].
  split; [exact (originalTasks_zero_lines _ _ _ _ _ Hy)|].
  apply yamlTasks_names.
Qed.

(** ** Discovery *)

(** An environment whose external operations answer as scripted: the
    binary lookup with [tool], the structured listing with the entries and
    error of [json], the plain listing with [plain], and the decoder of the
    only task file, [/work/Taskfile.yml], with [yaml].  Its texts are ASCII
    and its directory is [/work], where [strings.TrimSpace] is
    [asciiTrimSpace] and [filepath.Join] puts a slash between directory and
    name. *)
Definition joinSlash (dir name : string) : string := dir +:+ "/" +:+ name.

Definition scriptedEnv (tool : option error)
    (json : list jsonTask * option error) (plain : string * option error)
    (yaml : list (string * any) * option error) : Env :=
  {| strings_TrimSpace := strings.asciiTrimSpace;
     filepath_Join := joinSlash;
     os_Getwd := "/work";
     exec_LookPath := fun _ => tool;
     exec_Run := fun _ _ args =>
       if decide (args = ["--list"; "--json"]) then ("{}", snd json) else plain;
     json_Unmarshal := fun _ => (fst json, None);
     os_Stat := fun path =>
       if decide (path = "/work/Taskfile.yml") then None
       else Some "no such file or directory";
     os_ReadFile := fun _ => ("tasks:", None);
     yaml_Unmarshal := fun _ => yaml |}.

Lemma enriched_map_Name parsed (l k : list Task) :
  Forall2 (enriched parsed) l k -> map Name k = map Name l.
Proof.
  induction 1 as [|t t' l k (Hn & _) _ IH]; simpl; [reflexivity|].
  rewrite Hn, IH. reflexivity.
Qed.

Lemma fileOp_not_run dir name args (l : list Call) :
  Forall fileOp l -> CRun dir name args ∉ l.
Proof.
  intros H Hin. rewrite Forall_forall in H. apply (H _ Hin).
Qed.

(** C4.  Discovery tries the structured listing, the plain listing and the
    direct parse in this order and takes the first that succeeds with at
    least one task: a listing with no task is not usable; without the
    binary it fails after the lookup alone; with a usable structured
    listing the plain listing is never run and the direct parse only
    enriches; when no strategy is usable the error message holds the three
    errors. *)
Theorem DiscoverTasks_strict_priority :
  forall (env : Env) (root : string),
    let root' := if decide (root = "") then os_Getwd env else root in
    let d := DiscoverTasks env root in
    let j := value (listViaJSON env root') in
    let p := value (listViaPlain env root') in
    let y := value (parseTaskfileYAML env root') in
    let plainCall := CRun root' "task" ["--list"] in
    let jsonCall := CRun root' "task" ["--list"; "--json"] in
    usable ([], None) = false /\
    (forall e, exec_LookPath env "task" = Some e ->
       value d = ([], Some ("task binary not found in PATH: " +:+ e)) /\
       calls d = [CLookPath "task"]) /\
    (exec_LookPath env "task" = None ->
       (usable j = true ->
          value d = (value (enrichTaskCmds env root' (fst j)), None) /\
          map Name (fst (value d)) = map Name (fst j) /\
          calls d = CLookPath "task" :: jsonCall :: calls (parseTaskfileYAML env root') /\
          plainCall ∉ calls d) /\
       (usable j = false ->
          plainCall ∈ calls d /\
          (usable p = true ->
             value d = (value (enrichTaskCmds env root' (fst p)), None) /\
             map Name (fst (value d)) = map Name (fst p)) /\
          (usable p = false ->
             (usable y = true -> value d = (fst y, None)) /\
             (usable y = false ->
                value d =
                ([], Some ("failed to discover tasks (json:" +:+ fmt_v (snd j)
                           +:+ " plain:" +:+ fmt_v (snd p)
                           +:+ " yaml:" +:+ fmt_v (snd y) +:+ ")")))))).
Proof.
  intros env root root' d j p y plainCall jsonCall.
  split; [reflexivity|].
  subst d. unfold DiscoverTasks. fold root'.
  rewrite value_bind, calls_bind. unfold LookPath at 1 2 3. simpl.
  split.
  - intros e He. rewrite He. split; reflexivity.
  - intros Htool. rewrite Htool.
    rewrite value_bind, calls_bind, calls_listViaJSON. fold j.
    split.
    + intros Hj. rewrite Hj.
      rewrite value_bind, calls_bind, calls_enrichTaskCmds. simpl.
      rewrite app_nil_r.
      repeat split.
      * eapply enriched_map_Name, enrichTaskCmds_enriched.
      * intros Hin. apply elem_of_cons in Hin as [Hin|Hin]; [discriminate|].
        apply elem_of_cons in Hin as [Hin|Hin]; [discriminate|].
        revert Hin. apply fileOp_not_run, calls_parseTaskfileYAML.
    + intros Hj. rewrite Hj.
      rewrite value_bind, calls_bind, calls_listViaPlain. fold p.
      split.
      * simpl. apply list_elem_of_further, list_elem_of_further, list_elem_of_here.
      * split.
        -- intros Hp. rewrite Hp. rewrite value_bind. simpl. split; [reflexivity|].
           eapply enriched_map_Name, enrichTaskCmds_enriched.
        -- intros Hp. rewrite Hp. rewrite value_bind. fold y.
           split; intros Hy; rewrite Hy; reflexivity.
Qed.

(** The cases of C4 on scripted environments: no binary; a structured
    listing of one task; an empty structured listing with a plain listing;
    nothing but the task file; and nothing at all. *)
Lemma DiscoverTasks_strict_priority_witness :
  let build := mkJsonTask "build" "Build the project" 3 in
  let section := [("tasks", AMap [("lint", AMap [("cmd", AString "golint")])])] in
  let none : list (string * any) * option error := ([], Some "yaml: bad") in
  value (DiscoverTasks (scriptedEnv (Some "not found") ([build], None) ("", None) none) "")
  = ([], Some "task binary not found in PATH: not found") /\
  value (DiscoverTasks (scriptedEnv None ([build], None) ("* x: y", None) none) "")
  = ([mkTask "build" "Build the project" [] 3], None) /\
  value (DiscoverTasks (scriptedEnv None ([], None) ("* x: y", None) none) "")
  = ([mkTask "x" "y" [] 0], None) /\
  value (DiscoverTasks (scriptedEnv None ([], Some "exit status 1")
                          ("", Some "exit status 1") (section, None)) "")
  = ([mkTask "lint" "" ["golint"] 0], None) /\
  value (DiscoverTasks (scriptedEnv None ([], None) ("", None) none) "")
  = ([], Some "failed to discover tasks (json:<nil> plain:<nil> yaml:yaml: bad)").
Proof.
  intros build section none.
  split; [|split; [|split; [|split]]].
  - pose proof (DiscoverTasks_strict_priority
                  (scriptedEnv (Some "not found") ([build], None) ("", None) none) "")
      as (_ & H & _).
    destruct (H "not found" eq_refl) as [-> _]. reflexivity.
  - pose proof (DiscoverTasks_strict_priority
                  (scriptedEnv None ([build], None) ("* x: y", None) none) "")
      as (_ & _ & H).
    destruct (H eq_refl) as [Hj _]. destruct (Hj eq_refl) as [-> _].
    vm_compute. reflexivity.
  - pose proof (DiscoverTasks_strict_priority
                  (scriptedEnv None ([], None) ("* x: y", None) none) "")
      as (_ & _ & H).
    destruct (H eq_refl) as [_ Hj]. destruct (Hj eq_refl) as (_ & Hp & _).
    destruct (Hp eq_refl) as [-> _]. vm_compute. reflexivity.
  - pose proof (DiscoverTasks_strict_priority
                  (scriptedEnv None ([], Some "exit status 1")
                     ("", Some "exit status 1") (section, None)) "")
      as (_ & _ & H).
    destruct (H eq_refl) as [_ Hj]. destruct (Hj eq_refl) as (_ & _ & Hp).
    destruct (Hp eq_refl) as [Hy _]. rewrite (Hy eq_refl). vm_compute. reflexivity.
  - pose proof (DiscoverTasks_strict_priority
                  (scriptedEnv None ([], None) ("", None) none) "")
      as (_ & _ & H).
    destruct (H eq_refl) as [_ Hj]. destruct (Hj eq_refl) as (_ & _ & Hp).
    destruct (Hp eq_refl) as [_ Hy]. rewrite (Hy eq_refl). vm_compute. reflexivity.
Defined.

(** ** Refresh *)

(** C8.  A refresh completion that carries an error changes the status
    message and its timeout and nothing else: the task set, the tabs and
    their groups, the visible list, the active tab, the selection and the
    scroll offsets are those of before, and no command is issued. *)
Theorem failed_refresh_changes_only_the_status :
  forall (lib : Lib) (now : Z) (newTasks : list Task) (e : error) (m : TaskModel),
    let m' := set_statusTimeout (now + 3000)
                (set_statusMessage ("Refresh failed: " +:+ e) m) in
    Update now (refreshMsg newTasks (Some e)) m = Some (m', CmdNil) /\
    tasks m' = tasks m /\ originalTasks m' = originalTasks m /\
    tabs m' = tabs m /\ tabTasks m' = tabTasks m /\
    filteredTasks m' = filteredTasks m /\ activeTab m' = activeTab m /\
    selected m' = selected m /\ listOffset m' = listOffset m /\
    tabOffset m' = tabOffset m /\ searchMode m' = searchMode m /\
    searchQuery m' = searchQuery m /\ sortMode m' = sortMode m /\
    statusMessage m' = "Refresh failed: " +:+ e.
Proof. intros. repeat split. Qed.

(** C1 fails on the code: [buildTabs] reads [originalTasks], which a
    refresh does not replace.  After the model of the single task [build]
    is refreshed with [test-unit] and [lint], the task set is the new one
    and the status names its size, while the tabs, the groups and the
    visible list are still those of [build]. *)
Theorem refresh_keeps_startup_tabs :
  let build := mkTask "build" "" [] 1 in
  let new := [mkTask "test-unit" "" [] 1; mkTask "lint" "" [] 2] in
  let m0 := NewTaskModel (lib := plainLib) [build] "dark" true "demo" 0 in
  after [(0, refreshMsg new None)] m0 (fun m =>
    tasks m = new /\
    statusMessage m = "Refreshed - 2 tasks found" /\
    originalTasks m = [build] /\
    tabs m = ["main"] /\
    tabTasks m !! "main" = Some [build] /\
    tabTasks m !! "test" = None /\
    filteredTasks m = [build]).
Proof. vm_compute. repeat split. Qed.

(** The tabs and groups after a successful refresh do not depend on the
    tasks the refresh delivered. *)
Lemma refresh_tabs_from_originalTasks `{Lib} now new m m' :
  Update now (refreshMsg new None) m = Some (m', CmdNil) ->
  tabs m' = tabs (buildTabs m) /\ tabTasks m' = tabTasks (buildTabs m).
Proof.
  simpl. intros [= <-].
  destruct (updateFilter_frame (buildTabs (set_tasks new m))) as (s & ih & lo & ->).
  destruct (buildTabs_frame (set_tasks new m)) as [act ->].
  destruct (buildTabs_frame m) as [act' ->].
  split; reflexivity.
Qed.

(** ** Selection *)

(** C2 fails on the code: [end] on an empty visible list sets the selection
    to -1 and [updateFilter] only clamps from above.  In the model of the
    single task [build], typing [z] (no match), pressing [end] and then
    [esc] leaves [build] visible with the selection at -1; [enter] then
    indexes the visible list at -1. *)
Theorem end_on_empty_list_leaves_negative_selection :
  let build := mkTask "build" "" [] 1 in
  let m0 := NewTaskModel (lib := plainLib) [build] "dark" true "demo" 0 in
  let keys := [(0, rune_key 122); (0, named_key "end"); (0, named_key "esc")] in
  after [(0, rune_key 122)] m0 (fun m =>
    searchMode m = true /\ filteredTasks m = []) /\
  after keys m0 (fun m =>
    filteredTasks m = [build] /\ selected m = -1) /\
  panics (keys ++ [(0, named_key "enter")]) m0.
Proof. vm_compute. repeat split. Qed.

(** ** The visible window *)

(** C6 fails on the code: a pointer press selects a row without calling
    [ensureSelectionVisible].  With five tasks and three visible rows,
    [end] scrolls to offset 2, and a press on the first list line then
    selects row 0, above the window; a press on line 8 of the fresh model
    selects row 4, below the window that starts at offset 0. *)
Theorem mouse_selection_leaves_the_window :
  let ts := map (fun n => mkTask n "" [] 0) ["a"; "b"; "c"; "d"; "e"] in
  let m0 := NewTaskModel (lib := plainLib) ts "dark" true "demo" 0 in
  let press y := (0, MouseMsg_ (mkMouseMsg 10 y MouseLeft)) in
  after [(0, named_key "end"); press 4] m0 (fun m =>
    fst (visibleListHeight m) = 3 /\ listOffset m = 2 /\ selected m = 0) /\
  after [press 8] m0 (fun m =>
    fst (visibleListHeight m) = 3 /\ listOffset m = 0 /\ selected m = 4).
Proof. vm_compute. repeat split. Qed.

(** ** Type to search *)

Section TypeToSearch.
Context {lib : Lib}.

Lemma searchMode_updateFilter m : searchMode (updateFilter m) = searchMode m.
Proof. destruct (updateFilter_frame m) as (s & ih & lo & ->). reflexivity. Qed.

Lemma searchQuery_updateFilter m : searchQuery (updateFilter m) = searchQuery m.
Proof. destruct (updateFilter_frame m) as (s & ih & lo & ->). reflexivity. Qed.

End TypeToSearch.

(** C9 (as the code has it).  While browsing, a key message of one rune
    that is printable, is not white space and is none of [q], [j], [k], [r]
    switches to search mode with the query set to that rune. *)
Theorem printable_rune_starts_search :
  forall (lib : Lib) (now : Z) (r : rune) (alt : bool) (m : TaskModel),
    searchMode m = false ->
    r <> 113 -> r <> 106 -> r <> 107 -> r <> 114 ->
    unicode_IsPrint r = true ->
    unicode_IsSpace r = false ->
    exists m',
      Update now (KeyMsg_ (mkKeyMsg KeyRunes [r] alt)) m = Some (m', CmdNil) /\
      searchMode m' = true /\
      searchQuery m' = utf8 r.
Proof.
  intros lib now r alt m Hmode Hq Hj Hk Hr Hprint Hspace.
  assert (Ht : triggersSearch r = true).
  { unfold triggersSearch. rewrite Hprint, Hspace.
    apply Z.eqb_neq in Hq, Hj, Hk, Hr. rewrite Hq, Hj, Hk, Hr. reflexivity. }
  eexists. unfold Update, handleKeys, typeToSearch. rewrite Hmode.
  cbn [keyType Runes]. rewrite Ht. split; [reflexivity|].
  rewrite searchMode_updateFilter, searchQuery_updateFilter. simpl.
  split; [reflexivity|]. apply Value_SetValue_rune, Hprint.
Qed.

Lemma printable_rune_starts_search_witness :
  let m0 := NewTaskModel (lib := plainLib) [mkTask "build" "" [] 1] "dark" true "demo" 0 in
  exists m',
    Update 0 (rune_key 98) m0 = Some (m', CmdNil) /\
    searchMode m' = true /\ searchQuery m' = "b".
Proof.
  intros m0.
  apply (printable_rune_starts_search plainLib 0 98 false m0);
    first [reflexivity | discriminate].
Defined.

(** C9 as stated fails on the space: it is printable and is none of the
    reserved keys, yet typing it while browsing changes nothing, whether
    the terminal library reports it as a rune or as its space key. *)
Lemma space_does_not_start_search :
  let m0 := NewTaskModel (lib := plainLib) [mkTask "build" "" [] 1] "dark" true "demo" 0 in
  let stays msg :=
    after [(0, msg)] m0 (fun m => searchMode m = false /\ searchQuery m = "") in
  unicode_IsPrint 32 = true /\
  searchMode m0 = false /\
  stays (rune_key 32) /\
  stays (KeyMsg_ (mkKeyMsg (KeyNamed " ") [32] false)).
Proof. vm_compute. repeat split. Qed.

(** ** Global search *)

Section SearchInvariant.
Context {lib : Lib}.

(** What the search invariant reads of a model. *)
Definition view (m : TaskModel) : list Task * string * list Task :=
  (tasks m, searchQuery m, filteredTasks m).

(** With a query, the visible list is the tasks of the whole task set
    whose haystack contains the lower-cased query. *)
Definition searched (v : list Task * string * list Task) : Prop :=
  let '(ts, q, visible) := v in
  q <> "" -> visible = List.filter (matches (strings_ToLower q)) ts.

Lemma view_visibleListHeight m : view (snd (visibleListHeight m)) = view m.
Proof. destruct (visibleListHeight_frame m) as [ih ->]. reflexivity. Qed.

Lemma view_ensureSelectionVisible m : view (ensureSelectionVisible m) = view m.
Proof. destruct (ensureSelectionVisible_frame m) as (ih & lo & ->). reflexivity. Qed.

Lemma view_buildTabs m : view (buildTabs m) = view m.
Proof. destruct (buildTabs_frame m) as [act ->]. reflexivity. Qed.

Lemma searched_updateFilter m : searched (view (updateFilter m)).
Proof.
  destruct (updateFilter_frame m) as (s & ih & lo & ->).
  unfold view, searched, visibleOf. simpl. intros Hq.
  destruct (String.eqb (searchQuery m) "") eqn:E; [|reflexivity].
  apply String.eqb_eq in E. contradiction.
Qed.

Lemma view_setStatus now message m : view (setStatus now message m) = view m.
Proof. reflexivity. Qed.

Lemma searched_empty ts visible : searched (ts, "", visible).
Proof. intros H. contradiction. Qed.

Lemma view_ensureTabVisible i m :
  view (ensureTabVisible i m) = view m.
Proof.
  unfold ensureTabVisible. repeat case_match; reflexivity.
Qed.

Lemma searched_moveToNextTab m :
  searched (view m) -> searched (view (moveToNextTab m)).
Proof.
  intros H. unfold moveToNextTab.
  destruct (len (tabs m) <=? 1); [exact H | apply searched_updateFilter].
Qed.

Lemma searched_moveToPrevTab m :
  searched (view m) -> searched (view (moveToPrevTab m)).
Proof.
  intros H. unfold moveToPrevTab.
  destruct (len (tabs m) <=? 1); [exact H | apply searched_updateFilter].
Qed.

Lemma searched_toggleSortMode m : searched (view (toggleSortMode m)).
Proof.
  unfold toggleSortMode. rewrite view_ensureSelectionVisible.
  match goal with
  | |- context [updateFilter ?x] =>
      pose proof (searched_updateFilter x) as H; revert H;
      generalize (updateFilter x)
  end.
  intros u Hu. repeat case_match; exact Hu.
Qed.

Lemma view_navigate s m m' : navigate s m = Some m' -> view m' = view m.
Proof.
  unfold navigate. intros H.
  pose proof (view_visibleListHeight m) as E.
  destruct (visibleListHeight m) as [step n]. simpl in E.
  repeat match type of H with
         | (if ?b then _ else _) = _ => destruct b
         end;
    try discriminate; injection H as <-;
    repeat match goal with
           | |- context [if ?b then _ else _] => destruct b
           end;
    rewrite ?view_ensureSelectionVisible; try reflexivity; exact E.
Qed.

Lemma view_markForExecution m m' c :
  markForExecution m = Some (m', c) -> view m' = view m.
Proof.
  unfold markForExecution. intros H.
  destruct (len (filteredTasks m) =? 0); [injection H as <- <-; reflexivity|].
  destruct ((selected m <? 0) || (selected m >=? len (filteredTasks m)));
    [discriminate|].
  destruct (filteredTasks m !! Z.to_nat (selected m)) as [task|];
    [|discriminate].
  simpl in H. injection H as <- <-. reflexivity.
Qed.

Lemma searched_typeToSearch msg m m' :
  typeToSearch msg m = Some m' -> searched (view m').
Proof.
  unfold typeToSearch. intros H.
  repeat case_match; simplify_eq. apply searched_updateFilter.
Qed.

Lemma searched_handleKeys now msg m m' c :
  handleKeys now msg m = Some (m', c) ->
  searched (view m) -> searched (view m').
Proof.
  unfold handleKeys. intros H Hm.
  destruct (searchMode m).
  - destruct (navigate _ m) as [n|] eqn:En.
    + injection H as <- <-. rewrite (view_navigate _ _ _ En). exact Hm.
    + match type of H with
      | context [if String.eqb ?s "esc" then ?a else ?b] =>
          assert (Hx : searched (view (if String.eqb s "esc" then a else b)))
            by (destruct (String.eqb s "esc"); apply searched_updateFilter);
          revert H Hx; generalize (if String.eqb s "esc" then a else b)
      end.
      intros u H Hu.
      destruct (String.eqb _ "enter").
      * destruct (len _ >? 0).
        -- apply view_markForExecution in H. rewrite H. exact Hu.
        -- injection H as <- <-. exact Hu.
      * injection H as <- <-. exact Hu.
  - destruct (typeToSearch msg m) as [n|] eqn:Et.
    + injection H as <- <-. eapply searched_typeToSearch, Et.
    + destruct (case_ _ ["ctrl+s"]).
      { injection H as <- <-. rewrite view_setStatus.
        apply searched_toggleSortMode. }
      destruct (case_ _ ["q"; "ctrl+c"]).
      { injection H as <- <-. exact Hm. }
      destruct (case_ _ ["r"; "ctrl+r"]).
      { injection H as <- <-. exact Hm. }
      destruct (navigate _ m) as [n|] eqn:En.
      { injection H as <- <-. rewrite (view_navigate _ _ _ En). exact Hm. }
      destruct (case_ _ ["enter"]).
      { apply view_markForExecution in H. rewrite H. exact Hm. }
      destruct (case_ _ ["/"]).
      { injection H as <- <-. apply searched_empty. }
      destruct (case_ _ ["esc"]).
      { destruct (negb _); injection H as <- <-;
          [apply searched_updateFilter | exact Hm]. }
      destruct (case_ _ ["tab"; "right"]).
      { injection H as <- <-. destruct (len (tabs m) >? 1);
          [apply searched_moveToNextTab|]; exact Hm. }
      destruct (case_ _ ["shift+tab"; "left"]).
      { injection H as <- <-. destruct (len (tabs m) >? 1);
          [apply searched_moveToPrevTab|]; exact Hm. }
      injection H as <- <-. exact Hm.
Qed.

Lemma searched_handleMouse msg m m' c :
  handleMouse msg m = Some (m', c) ->
  searched (view m) -> searched (view m').
Proof.
  unfold handleMouse. intros H Hm.
  destruct (mouseType msg).
  - repeat case_match; try discriminate; injection H as <- <-;
      first [exact Hm | apply searched_updateFilter].
  - repeat case_match; try (injection H as <- <-; exact Hm).
    apply view_markForExecution in H. rewrite H. exact Hm.
  - injection H as <- <-. exact Hm.
Qed.

Lemma searched_Update now msg m m' c :
  Update now msg m = Some (m', c) ->
  searched (view m) -> searched (view m').
Proof.
  destruct msg as [w h|k|ms| |new err|]; unfold Update; intros H Hm.
  - injection H as <- <-. rewrite view_ensureSelectionVisible. exact Hm.
  - eapply searched_handleKeys; eassumption.
  - destruct (negb (mouseEnabled m)).
    + injection H as <- <-. exact Hm.
    + eapply searched_handleMouse; eassumption.
  - injection H as <- <-. exact Hm.
  - destruct err; injection H as <- <-; rewrite view_setStatus; [exact Hm|].
    apply searched_updateFilter.
  - injection H as <- <-. exact Hm.
Qed.

Lemma searched_run events m m' :
  run events m = Some m' -> searched (view m) -> searched (view m').
Proof.
  revert m. induction events as [|[now msg] events IH]; simpl; intros m H Hm.
  - injection H as <-. exact Hm.
  - destruct (Update now msg m) as [[n c]|] eqn:E; [|discriminate].
    eapply IH; [exact H|]. eapply searched_Update; eassumption.
Qed.

Lemma searched_NewTaskModel ts themeName mouse projectName now :
  searched (view (NewTaskModel ts themeName mouse projectName now)).
Proof. unfold NewTaskModel. apply searched_updateFilter. Qed.

End SearchInvariant.

Lemma filter_sublist {A} (f : A -> bool) (l : list A) : sublist (List.filter f l) l.
Proof.
  induction l as [|x l IH]; simpl; [constructor|].
  destruct (f x); [apply sublist_skip | apply sublist_cons]; exact IH.
Qed.

(** C3 (as the code has it).  In every state the browser reaches with a
    non-empty query, the visible list is an order-preserving subsequence of
    the whole task set, whatever tab is active: exactly the tasks whose
    name, description and commands, joined by single spaces and
    lower-cased, contain the lower-cased query. *)
Theorem search_lists_matches_of_the_whole_task_set :
  forall (lib : Lib) (ts : list Task) (themeName : string) (mouseEnabled : bool)
         (projectName : string) (now : Z) (events : list (Z * Msg))
         (m : TaskModel),
    run events (NewTaskModel ts themeName mouseEnabled projectName now) = Some m ->
    searchQuery m <> "" ->
    filteredTasks m =
      List.filter (matches (strings_ToLower (searchQuery m))) (tasks m) /\
    sublist (filteredTasks m) (tasks m) /\
    Forall (fun t =>
              strings.Contains
                (strings_ToLower
                   (Name t +:+ " " +:+ Desc t +:+ " " +:+ strings.Join (Cmds t) " "))
                (strings_ToLower (searchQuery m)) = true)
           (filteredTasks m).
Proof.
  intros lib ts themeName mouse projectName now events m Hrun Hq.
  pose proof (searched_run _ _ _ Hrun
                (searched_NewTaskModel ts themeName mouse projectName now)) as H.
  unfold searched, view in H. specialize (H Hq).
  split; [exact H|]. rewrite H. split.
  - apply filter_sublist.
  - apply List.Forall_forall. intros t Ht.
    apply List.filter_In in Ht as [_ Ht]. exact Ht.
Qed.

Lemma search_lists_matches_of_the_whole_task_set_witness :
  let pass := mkTask "test-pass" "" [] 1 in
  let lint := mkTask "lint" "lints code" [] 2 in
  let m0 := NewTaskModel (lib := plainLib) [pass; lint] "dark" true "demo" 0 in
  let events := map (fun r => (0, rune_key r)) [112; 97; 115; 115] in
  after events m0 (fun m =>
    (searchQuery m = "pass" /\ tasks m = [pass; lint]) /\
    (filteredTasks m =
       List.filter (matches (strings_ToLower (searchQuery m))) (tasks m) /\
     sublist (filteredTasks m) (tasks m) /\
     Forall (fun t =>
               strings.Contains
                 (strings_ToLower
                    (Name t +:+ " " +:+ Desc t +:+ " " +:+ strings.Join (Cmds t) " "))
                 (strings_ToLower (searchQuery m)) = true)
            (filteredTasks m))).
Proof.
  intros pass lint m0 events.
  assert (Hq : after events m0 (fun m =>
                 searchQuery m = "pass" /\ tasks m = [pass; lint]))
    by (vm_compute; split; reflexivity).
  unfold after in *.
  destruct (run events m0) as [m|] eqn:E; [|contradiction].
  split; [exact Hq|].
  apply (search_lists_matches_of_the_whole_task_set plainLib [pass; lint]
           "dark" true "demo" 0 events m E).
  destruct Hq as [-> _]. discriminate.
Defined.

(** C3 as stated fails where the query spans two fields: after typing
    [a], a space and [b], the task named [a] with description [b] is
    listed, although neither its name, nor its description, nor its
    commands contain the query. *)
Lemma search_matches_across_fields :
  let t := mkTask "a" "b" [] 1 in
  let m0 := NewTaskModel (lib := plainLib) [t] "dark" true "demo" 0 in
  let space := KeyMsg_ (mkKeyMsg (KeyNamed " ") [32] false) in
  let events := [(0, rune_key 97); (0, space); (0, rune_key 98)] in
  after events m0 (fun m =>
    searchQuery m = "a b" /\
    filteredTasks m = [t] /\
    strings.Contains (strings_ToLower (Name t)) (strings_ToLower "a b") = false /\
    strings.Contains (strings_ToLower (Desc t)) (strings_ToLower "a b") = false /\
    strings.Contains (strings_ToLower (strings.Join (Cmds t) " "))
                     (strings_ToLower "a b") = false).
Proof. vm_compute. repeat split. Qed.

(** * Further properties of the browser model *)

(** ** Rows and the scroll window *)

(** Boolean comparisons of the goal and the hypotheses, as propositions. *)
Ltac zbool :=
  unfold max, min in *;
  rewrite ?Z.geb_leb, ?Z.gtb_ltb in *;
  repeat match goal with
         | H : (_ <? _) = true |- _ => apply Z.ltb_lt in H
         | H : (_ <? _) = false |- _ => apply Z.ltb_ge in H
         | H : (_ <=? _) = true |- _ => apply Z.leb_le in H
         | H : (_ <=? _) = false |- _ => apply Z.leb_gt in H
         | H : (_ =? _) = true |- _ => apply Z.eqb_eq in H
         | H : (_ =? _) = false |- _ => apply Z.eqb_neq in H
         end.

Ltac split_ifs :=
  repeat match goal with
         | |- context [if ?b then _ else _] =>
             lazymatch b with
             | context [if _ then _ else _] => fail
             | _ => let E := fresh "E" in destruct b eqn:E
             end
         end.

Section Viewport.
Context {lib : Lib}.

(** The number of visible rows, the lines left for the list, and the two
    conditions on the selection. *)
Definition rows (m : TaskModel) : Z := fst (visibleListHeight m).

Definition listLines (m : TaskModel) : Z :=
  let avail := if height m <=? 0 then 24 else height m in
  let inner := avail - containerOverhead in
  let inner := if inner <? 10 then 10 else inner in
  let overhead := headerHeight + statusHeight + footerHeight in
  let overhead := if len (tabs m) >? 1 then overhead + tabsHeight else overhead in
  let overhead := if searchMode m || negb (String.eqb (searchQuery m) "")
                  then overhead + searchHeight else overhead in
  inner - overhead.

Definition inRange (m : TaskModel) : Prop :=
  0 <= selected m < len (filteredTasks m).

Definition inWindow (m : TaskModel) : Prop :=
  0 <= listOffset m /\
  listOffset m <= selected m <= listOffset m + rows m - 1.

(** The count for a given item height. *)
Definition rowsFor (ih : Z) (m : TaskModel) : Z :=
  if listLines m <? ih then 1
  else if Z.quot (listLines m) ih <? 1 then 1 else Z.quot (listLines m) ih.

Definition cachedHeight (m : TaskModel) : Z :=
  if itemHeight m =? 0
  then if measureItemHeight m <=? 0 then 7 else measureItemHeight m
  else itemHeight m.

Lemma visibleListHeight_eq m :
  visibleListHeight m = (rowsFor (cachedHeight m) m, set_itemHeight (cachedHeight m) m).
Proof.
  unfold visibleListHeight, rowsFor, cachedHeight.
  destruct (itemHeight m =? 0) eqn:E0.
  - cbn [itemHeight set_itemHeight].
    destruct (measureItemHeight m <=? 0).
    + replace (set_itemHeight 7 (set_itemHeight (measureItemHeight m) m))
        with (set_itemHeight 7 m) by (destruct m; reflexivity).
      change (listLines (set_itemHeight 7 m)) with (listLines m).
      unfold listLines. cbn [itemHeight set_itemHeight height tabs searchMode searchQuery].
      split_ifs; reflexivity.
    + unfold listLines.
      cbn [itemHeight set_itemHeight height tabs searchMode searchQuery].
      split_ifs; reflexivity.
  - rewrite set_itemHeight_id. unfold listLines.
    split_ifs; reflexivity.
Qed.

Lemma rowsFor_ge_1 ih m : 1 <= rowsFor ih m.
Proof. unfold rowsFor. split_ifs; zbool; lia. Qed.

Lemma cachedHeight_nonzero m : cachedHeight m <> 0.
Proof. unfold cachedHeight. split_ifs; zbool; lia. Qed.

Lemma rows_eq m : rows m = rowsFor (cachedHeight m) m.
Proof. unfold rows. rewrite visibleListHeight_eq. reflexivity. Qed.

Lemma rows_cached m : rows (set_itemHeight (cachedHeight m) m) = rows m.
Proof.
  rewrite !rows_eq. unfold cachedHeight at 1. cbn [itemHeight set_itemHeight].
  pose proof (cachedHeight_nonzero m) as Hnz. apply Z.eqb_neq in Hnz.
  rewrite Hnz. reflexivity.
Qed.

Lemma rows_ge_1 m : 1 <= rows m.
Proof. rewrite rows_eq. apply rowsFor_ge_1. Qed.

(** The offset [ensureSelectionVisible] computes. *)
Definition followOffset (sel off h n : Z) : Z :=
  let off := if sel <? off then sel else off in
  let off := if sel >=? off + h then sel - h + 1 else off in
  let maxOffset := max 0 (n - h) in
  let off := if off >? maxOffset then maxOffset else off in
  if off <? 0 then 0 else off.

Lemma set_listOffset_twice a b (m : TaskModel) :
  set_listOffset a (set_listOffset b m) = set_listOffset a m.
Proof. reflexivity. Qed.

Lemma ensureSelectionVisible_eq m :
  ensureSelectionVisible m =
  set_listOffset
    (followOffset (selected m) (listOffset m) (rows m) (len (filteredTasks m)))
    (set_itemHeight (cachedHeight m) m).
Proof.
  unfold ensureSelectionVisible, followOffset. rewrite rows_eq, visibleListHeight_eq.
  cbn [selected listOffset filteredTasks set_itemHeight set_listOffset].
  generalize (rowsFor (cachedHeight m) m). intros h.
  repeat match goal with
         | |- context [if ?b then _ else _] =>
             lazymatch b with
             | context [if _ then _ else _] => fail
             | _ => destruct b;
                    cbn [selected listOffset filteredTasks set_listOffset
                         set_itemHeight]
             end
         end;
    first [reflexivity | destruct m; reflexivity].
Qed.

Lemma followOffset_bounds sel off h n :
  1 <= h ->
  0 <= followOffset sel off h n <= max 0 (n - h).
Proof.
  intros Hh. unfold followOffset, max. split_ifs; zbool; lia.
Qed.

Lemma followOffset_window sel off h n :
  1 <= h -> 0 <= n -> 0 <= sel < Z.max 1 n ->
  followOffset sel off h n <= sel <= followOffset sel off h n + h - 1.
Proof.
  intros Hh Hn Hsel. unfold followOffset, max. split_ifs; zbool; lia.
Qed.

Lemma rows_set_listOffset lo m : rows (set_listOffset lo m) = rows m.
Proof. rewrite !rows_eq. reflexivity. Qed.

Lemma rows_set_selected sel m : rows (set_selected sel m) = rows m.
Proof. rewrite !rows_eq. reflexivity. Qed.

Lemma rows_ensureSelectionVisible m : rows (ensureSelectionVisible m) = rows m.
Proof.
  rewrite ensureSelectionVisible_eq, rows_set_listOffset. apply rows_cached.
Qed.

Lemma len_nonneg {A} (l : list A) : 0 <= len l.
Proof. unfold len. lia. Qed.

Lemma inWindow_ensureSelectionVisible m :
  0 <= selected m < Z.max 1 (len (filteredTasks m)) ->
  inWindow (ensureSelectionVisible m).
Proof.
  intros Hsel. unfold inWindow. rewrite rows_ensureSelectionVisible.
  rewrite ensureSelectionVisible_eq. cbn [listOffset selected set_listOffset set_itemHeight].
  pose proof (rows_ge_1 m) as Hh.
  pose proof (followOffset_bounds (selected m) (listOffset m) (rows m)
                (len (filteredTasks m)) Hh) as [H0 _].
  split; [exact H0|].
  apply followOffset_window; [exact Hh | apply len_nonneg | exact Hsel].
Qed.

End Viewport.

(** X1.  [visibleListHeight] returns at least one row.  It measures the
    item height only while the cache is 0 and replaces a measurement that is
    not positive by 7, so the cache is never 0 afterwards; a model with a
    cached height is returned as it is, and calling again gives the same
    count.  With a positive item height the rows either fit in the lines
    left for the list or the count is the minimum of one. *)
Theorem visibleListHeight_at_least_one_row :
  forall (lib : Lib) (m : TaskModel),
    let h := fst (visibleListHeight m) in
    let m1 := snd (visibleListHeight m) in
    1 <= h /\
    itemHeight m1 <> 0 /\
    (itemHeight m <> 0 -> m1 = m) /\
    (itemHeight m = 0 ->
       (measureItemHeight m <= 0 /\ itemHeight m1 = 7) \/
       (0 < measureItemHeight m /\ itemHeight m1 = measureItemHeight m)) /\
    visibleListHeight m1 = (h, m1) /\
    (0 < itemHeight m1 -> h = 1 \/ h * itemHeight m1 <= listLines m).
Proof.
  intros lib m h m1. subst h m1. rewrite visibleListHeight_eq.
  cbn [fst snd itemHeight set_itemHeight].
  pose proof (cachedHeight_nonzero m) as Hnz.
  split; [apply rowsFor_ge_1|]. split; [exact Hnz|].
  split; [|split; [|split]].
  - intros H. unfold cachedHeight. apply Z.eqb_neq in H. rewrite H.
    apply set_itemHeight_id.
  - intros H. unfold cachedHeight. rewrite H. simpl.
    destruct (measureItemHeight m <=? 0) eqn:E.
    + left. split; [apply Z.leb_le, E | reflexivity].
    + right. split; [apply Z.leb_gt, E | reflexivity].
  - rewrite visibleListHeight_eq.
    assert (Hc : cachedHeight (set_itemHeight (cachedHeight m) m) = cachedHeight m).
    { unfold cachedHeight at 1. cbn [itemHeight set_itemHeight].
      apply Z.eqb_neq in Hnz. rewrite Hnz. reflexivity. }
    rewrite Hc. reflexivity.
  - intros Hpos. unfold rowsFor.
    destruct (listLines m <? cachedHeight m) eqn:E1; [left; reflexivity|].
    apply Z.ltb_ge in E1.
    destruct (Z.quot (listLines m) (cachedHeight m) <? 1); [left; reflexivity|].
    right. rewrite Z.mul_comm. apply Z.mul_quot_le; lia.
Qed.

(** X2.  When the selection is a valid index of the visible list (or 0 on
    an empty list), [ensureSelectionVisible] leaves it where it is and
    moves the scroll offset so that the selected row is inside the window
    of visible rows; the offset is never negative and never beyond the last
    full window. *)
Theorem ensureSelectionVisible_keeps_selection_in_window :
  forall (lib : Lib) (m : TaskModel),
    0 <= selected m < Z.max 1 (len (filteredTasks m)) ->
    let m' := ensureSelectionVisible m in
    selected m' = selected m /\
    filteredTasks m' = filteredTasks m /\
    rows m' = rows m /\
    0 <= listOffset m' <= max 0 (len (filteredTasks m) - rows m) /\
    listOffset m' <= selected m' <= listOffset m' + rows m' - 1.
Proof.
  intros lib m Hsel m'.
  pose proof (inWindow_ensureSelectionVisible m Hsel) as [_ Hw].
  fold m' in Hw. split; [|split; [|split; [|split]]]; try exact Hw.
  - subst m'. rewrite ensureSelectionVisible_eq. reflexivity.
  - subst m'. rewrite ensureSelectionVisible_eq. reflexivity.
  - apply rows_ensureSelectionVisible.
  - subst m'. rewrite ensureSelectionVisible_eq.
    cbn [listOffset set_listOffset]. apply followOffset_bounds, rows_ge_1.
Qed.

(** A model state for the examples: five tasks of one tab, all visible
    in the list, with the given selection and scroll offset. *)
Definition fiveTasks : list Task :=
  map (fun n => mkTask n "" [] 0) ["a"; "b"; "c"; "d"; "e"].

Definition sampleModel (sel off : Z) : TaskModel (lib := plainLib) :=
  mkTaskModel fiveTasks fiveTasks fiveTasks sel false "" "" DarkTheme true
    0 0 "" "" 0 "demo" "" "" false 0 0 off 4 ["main"] "main"
    {["main" := fiveTasks]} "file".

Lemma ensureSelectionVisible_keeps_selection_in_window_witness :
  let m' := ensureSelectionVisible (sampleModel 4 0) in
  selected m' = 4 /\
  filteredTasks m' = filteredTasks (sampleModel 4 0) /\
  rows m' = rows (sampleModel 4 0) /\
  0 <= listOffset m' <= max 0 (len (filteredTasks (sampleModel 4 0)) - rows (sampleModel 4 0)) /\
  listOffset m' <= selected m' <= listOffset m' + rows m' - 1.
Proof.
  apply (ensureSelectionVisible_keeps_selection_in_window plainLib (sampleModel 4 0)).
  vm_compute. split; [discriminate | reflexivity].
Defined.

Section FilterAndKeys.
Context {lib : Lib}.

(** The selection [updateFilter] leaves for a visible list of [n] tasks. *)
Definition clampSelection (sel n : Z) : Z :=
  if sel >=? n then max 0 (n - 1) else sel.

Lemma updateFilter_eq m :
  updateFilter m =
  ensureSelectionVisible
    (set_selected (clampSelection (selected m) (len (visibleOf m)))
       (set_filteredTasks (visibleOf m) m)).
Proof.
  unfold updateFilter, visibleOf, clampSelection.
  destruct (String.eqb (searchQuery m) ""); cbn [negb];
    cbn [selected filteredTasks set_filteredTasks];
    match goal with
    | |- context [if ?b then _ else _] => destruct b
    end;
    try reflexivity;
    match goal with
    | |- ensureSelectionVisible ?x = _ =>
        rewrite <- (set_selected_id x) at 1; reflexivity
    end.
Qed.

Lemma clampSelection_bounds sel n :
  0 <= n -> 0 <= sel -> 0 <= clampSelection sel n < Z.max 1 n.
Proof.
  intros Hn Hsel. unfold clampSelection, max.
  repeat match goal with
         | |- context [if ?b then _ else _] => destruct b eqn:?
         end;
    rewrite ?Z.geb_leb, ?Z.gtb_ltb in *;
    repeat match goal with
           | H : (_ <? _) = true |- _ => apply Z.ltb_lt in H
           | H : (_ <? _) = false |- _ => apply Z.ltb_ge in H
           | H : (_ <=? _) = true |- _ => apply Z.leb_le in H
           | H : (_ <=? _) = false |- _ => apply Z.leb_gt in H
           end; lia.
Qed.

Lemma selected_ensureSelectionVisible m :
  selected (ensureSelectionVisible m) = selected m.
Proof. rewrite ensureSelectionVisible_eq. reflexivity. Qed.

Lemma filteredTasks_ensureSelectionVisible m :
  filteredTasks (ensureSelectionVisible m) = filteredTasks m.
Proof. rewrite ensureSelectionVisible_eq. reflexivity. Qed.

Lemma filteredTasks_updateFilter m : filteredTasks (updateFilter m) = visibleOf m.
Proof. rewrite updateFilter_eq, filteredTasks_ensureSelectionVisible. reflexivity. Qed.

Lemma selected_updateFilter m :
  selected (updateFilter m) = clampSelection (selected m) (len (visibleOf m)).
Proof. rewrite updateFilter_eq, selected_ensureSelectionVisible. reflexivity. Qed.

Lemma inWindow_updateFilter m : 0 <= selected m -> inWindow (updateFilter m).
Proof.
  intros Hsel. rewrite updateFilter_eq. apply inWindow_ensureSelectionVisible.
  cbn [selected filteredTasks set_selected set_filteredTasks].
  apply clampSelection_bounds; [apply len_nonneg | exact Hsel].
Qed.

End FilterAndKeys.

(** X3.  [updateFilter] shows the members of the active tab when the query
    is empty (none if the tab is unknown) and the matches of the whole task
    set otherwise.  A selection beyond the end moves to the last visible
    task (to 0 on an empty list) and one inside the list stays; if the
    selection was not negative, it ends as a valid index, or 0 on an empty
    list, inside the scroll window. *)
Theorem updateFilter_clamps_selection :
  forall (lib : Lib) (m : TaskModel),
    0 <= selected m ->
    let m' := updateFilter m in
    (searchQuery m = "" ->
       filteredTasks m' = default [] (tabTasks m !! activeTab m)) /\
    (searchQuery m <> "" ->
       filteredTasks m' =
       List.filter (matches (strings_ToLower (searchQuery m))) (tasks m)) /\
    (selected m < len (filteredTasks m') -> selected m' = selected m) /\
    (len (filteredTasks m') <= selected m ->
       selected m' = Z.max 0 (len (filteredTasks m') - 1)) /\
    0 <= selected m' < Z.max 1 (len (filteredTasks m')) /\
    inWindow m'.
Proof.
  intros lib m Hsel m'. subst m'.
  rewrite filteredTasks_updateFilter, selected_updateFilter.
  split; [|split; [|split; [|split; [|split]]]].
  - intros Hq. unfold visibleOf. rewrite Hq. reflexivity.
  - intros Hq. unfold visibleOf. apply String.eqb_neq in Hq. rewrite Hq. reflexivity.
  - intros H. unfold clampSelection.
    destruct (selected m >=? len (visibleOf m)) eqn:E; [|reflexivity].
    rewrite Z.geb_leb in E. apply Z.leb_le in E. lia.
  - intros H. unfold clampSelection, max.
    destruct (selected m >=? len (visibleOf m)) eqn:E.
    + destruct (0 >? len (visibleOf m) - 1) eqn:E'; rewrite Z.gtb_ltb in E';
        [apply Z.ltb_lt in E' | apply Z.ltb_ge in E']; lia.
    + rewrite Z.geb_leb in E. apply Z.leb_gt in E. lia.
  - apply clampSelection_bounds; [apply len_nonneg | exact Hsel].
  - apply inWindow_updateFilter, Hsel.
Qed.

Lemma updateFilter_clamps_selection_witness :
  let m := sampleModel 9 0 in
  let m' := updateFilter m in
  (searchQuery m = "" ->
     filteredTasks m' = default [] (tabTasks m !! activeTab m)) /\
  (searchQuery m <> "" ->
     filteredTasks m' =
     List.filter (matches (strings_ToLower (searchQuery m))) (tasks m)) /\
  (selected m < len (filteredTasks m') -> selected m' = selected m) /\
  (len (filteredTasks m') <= selected m ->
     selected m' = Z.max 0 (len (filteredTasks m') - 1)) /\
  0 <= selected m' < Z.max 1 (len (filteredTasks m')) /\
  inWindow m'.
Proof.
  apply (updateFilter_clamps_selection plainLib (sampleModel 9 0)).
  vm_compute. discriminate.
Defined.

Section Navigation.
Context {lib : Lib}.

Lemma selection_moved (m0 : TaskModel) v :
  0 <= v < len (filteredTasks m0) ->
  let m' := ensureSelectionVisible (set_selected v m0) in
  inRange m' /\ inWindow m' /\ filteredTasks m' = filteredTasks m0.
Proof.
  intros Hv m'. subst m'. unfold inRange.
  rewrite selected_ensureSelectionVisible, filteredTasks_ensureSelectionVisible.
  cbn [selected filteredTasks set_selected].
  split; [exact Hv|]. split; [|reflexivity].
  apply inWindow_ensureSelectionVisible. cbn [selected filteredTasks set_selected]. lia.
Qed.

Lemma navigate_in_range s m m' :
  inRange m -> inWindow m -> navigate s m = Some m' ->
  inRange m' /\ inWindow m' /\ filteredTasks m' = filteredTasks m.
Proof.
  intros Hr Hw. unfold navigate. rewrite visibleListHeight_eq.
  pose proof (rowsFor_ge_1 (cachedHeight m) m) as Hstep.
  revert Hstep. generalize (rowsFor (cachedHeight m) m). intros step Hstep.
  unfold inRange in Hr.
  destruct (case_ s ["up"; "k"]).
  { intros [= <-]. destruct (selected m >? 0) eqn:E; [|auto].
    rewrite Z.gtb_ltb in E. apply Z.ltb_lt in E.
    apply selection_moved. lia. }
  destruct (case_ s ["down"; "j"]).
  { intros [= <-]. destruct (selected m <? len (filteredTasks m) - 1) eqn:E; [|auto].
    apply Z.ltb_lt in E. apply selection_moved. lia. }
  destruct (case_ s ["pgup"]).
  { intros [= <-].
    apply (selection_moved (set_itemHeight (cachedHeight m) m)).
    cbn [selected filteredTasks set_itemHeight]. unfold max.
    destruct (0 >? selected m - step) eqn:E; rewrite Z.gtb_ltb in E;
      [apply Z.ltb_lt in E | apply Z.ltb_ge in E]; lia. }
  destruct (case_ s ["pgdown"]).
  { intros [= <-].
    apply (selection_moved (set_itemHeight (cachedHeight m) m)).
    cbn [selected filteredTasks set_itemHeight]. unfold min.
    destruct (len (filteredTasks m) - 1 <? selected m + step) eqn:E;
      [apply Z.ltb_lt in E | apply Z.ltb_ge in E]; lia. }
  destruct (case_ s ["home"]).
  { intros [= <-]. apply selection_moved. lia. }
  destruct (case_ s ["end"]).
  { intros [= <-]. apply selection_moved. lia. }
  discriminate.
Qed.

End Navigation.

(** X5.  A resize stores the new width and height and re-clamps the scroll
    offset against the new number of rows; it never changes the selection,
    the visible list, the task set, the tabs or the query.  If the
    selection is a valid index (or 0 on an empty list), it is inside the
    window afterwards. *)
Theorem resize_keeps_selection :
  forall (lib : Lib) (now w h : Z) (m : TaskModel),
    0 <= selected m < Z.max 1 (len (filteredTasks m)) ->
    exists m',
      Update now (WindowSizeMsg w h) m = Some (m', CmdNil) /\
      width m' = w /\ height m' = h /\
      selected m' = selected m /\ filteredTasks m' = filteredTasks m /\
      tasks m' = tasks m /\ tabs m' = tabs m /\ tabTasks m' = tabTasks m /\
      activeTab m' = activeTab m /\ searchQuery m' = searchQuery m /\
      searchMode m' = searchMode m /\
      inWindow m'.
Proof.
  intros lib now w h m Hsel.
  exists (ensureSelectionVisible (set_height h (set_width w m))).
  split; [reflexivity|].
  repeat (split; [rewrite ensureSelectionVisible_eq; reflexivity|]).
  apply inWindow_ensureSelectionVisible. exact Hsel.
Qed.

Lemma resize_keeps_selection_witness :
  exists m',
    Update 0 (WindowSizeMsg 80 12) (sampleModel 4 0) = Some (m', CmdNil) /\
    width m' = 80 /\ height m' = 12 /\
    selected m' = selected (sampleModel 4 0) /\
    filteredTasks m' = filteredTasks (sampleModel 4 0) /\
    tasks m' = tasks (sampleModel 4 0) /\ tabs m' = tabs (sampleModel 4 0) /\
    tabTasks m' = tabTasks (sampleModel 4 0) /\
    activeTab m' = activeTab (sampleModel 4 0) /\
    searchQuery m' = searchQuery (sampleModel 4 0) /\
    searchMode m' = searchMode (sampleModel 4 0) /\
    inWindow m'.
Proof.
  apply (resize_keeps_selection plainLib 0 80 12 (sampleModel 4 0)).
  vm_compute. split; [discriminate | reflexivity].
Defined.

(** ** Tabs *)

Section TabFacts.
Context {lib : Lib}.

(** The active tab [buildTabs] leaves. *)
Definition keptActiveTab (m : TaskModel) : string :=
  if negb (existsb (fun t => String.eqb t (activeTab m)) (tabOrder m))
     && (len (tabOrder m) >? 0)
  then index "" (tabOrder m) 0 else activeTab m.

(** The groups [buildTabs] stores. *)
Definition tabGroups (m : TaskModel) : gmap string (list Task) :=
  tabSort m <$> fst (fst (fold_left groupTask (originalTasks m) (∅, [], ∅))).

Lemma buildTabs_eq m :
  buildTabs m =
  set_activeTab (keptActiveTab m) (set_tabTasks (tabGroups m) (set_tabs (tabOrder m) m)).
Proof.
  unfold buildTabs, keptActiveTab, tabGroups, tabOrder, firstSeen, tabSort.
  destruct (fold_left groupTask (originalTasks m) (∅, [], ∅)) as [[pm ps] pset].
  simpl fst. simpl snd.
  destruct (String.eqb (sortMode m) "alpha");
    cbn [tabs activeTab set_tabs set_tabTasks];
    match goal with
    | |- context [if negb ?b && ?c then _ else _] => destruct (negb b && c)
    end;
    try reflexivity;
    match goal with
    | |- ?x = _ => rewrite <- (set_activeTab_id x) at 1; reflexivity
    end.
Qed.

Lemma existsb_eqb_elem (x : string) (l : list string) :
  existsb (fun t => String.eqb t x) l = true <-> x ∈ l.
Proof.
  rewrite existsb_exists. split.
  - intros (y & Hy & E). apply String.eqb_eq in E. subst.
    apply list_elem_of_In, Hy.
  - intros H. exists x. split; [apply list_elem_of_In, H | apply String.eqb_refl].
Qed.

Lemma keptActiveTab_valid m :
  tabOrder m <> [] -> keptActiveTab m ∈ tabOrder m.
Proof.
  intros Hne. unfold keptActiveTab.
  destruct (existsb _ (tabOrder m)) eqn:E; simpl.
  - apply existsb_eqb_elem, E.
  - destruct (tabOrder m) as [|p ps] eqn:Et; [contradiction|].
    replace (len (p :: ps) >? 0) with true
      by (symmetry; rewrite Z.gtb_ltb; apply Z.ltb_lt; unfold len; simpl; lia).
    unfold index. simpl. apply list_elem_of_here.
Qed.

Lemma keptActiveTab_same m :
  activeTab m ∈ tabOrder m -> keptActiveTab m = activeTab m.
Proof.
  intros H. unfold keptActiveTab. apply existsb_eqb_elem in H. rewrite H.
  reflexivity.
Qed.

Lemma keptActiveTab_first m :
  activeTab m ∉ tabOrder m -> tabOrder m <> [] ->
  head (tabOrder m) = Some (keptActiveTab m).
Proof.
  intros Hout Hne. unfold keptActiveTab.
  destruct (existsb _ (tabOrder m)) eqn:E.
  { apply existsb_eqb_elem in E. contradiction. }
  destruct (tabOrder m) as [|p ps]; [contradiction|].
  replace (len (p :: ps) >? 0) with true
    by (symmetry; rewrite Z.gtb_ltb; apply Z.ltb_lt; unfold len; simpl; lia).
  reflexivity.
Qed.

Lemma keptActiveTab_none m : tabOrder m = [] -> keptActiveTab m = activeTab m.
Proof.
  intros H. unfold keptActiveTab. rewrite H. cbn.
  rewrite ?andb_false_r. reflexivity.
Qed.

Lemma tabOrder_NoDup m : NoDup (tabOrder m).
Proof. rewrite tabOrder_Permutation. apply firstSeen_NoDup. Qed.

Lemma tabGroups_lookup m p :
  p ∈ tabOrder m ->
  tabGroups m !! p = Some (tabSort m (group (originalTasks m) p)).
Proof.
  intros Hp. pose proof (tabTasks_buildTabs m p Hp) as H.
  rewrite buildTabs_eq in H. exact H.
Qed.

Lemma tabGroups_lookup_None m p : p ∉ tabOrder m -> tabGroups m !! p = None.
Proof.
  intros Hp. unfold tabGroups. rewrite lookup_fmap.
  rewrite tabOrder_Permutation in Hp. unfold firstSeen in Hp.
  pose proof (fold_groupTask_grouped (originalTasks m)) as Hg.
  destruct (fold_left groupTask (originalTasks m) (∅, [], ∅)) as [[pm ps] pset].
  destruct Hg as (_ & _ & _ & _ & Hout). simpl in *.
  rewrite (Hout p Hp). reflexivity.
Qed.

End TabFacts.

(** X6.  In either sort mode [buildTabs] lists every label of
    [originalTasks] exactly once, with ["main"] first when present; it
    stores for each tab a non-empty permutation of the tasks with that
    label and nothing for any other key, so the groups together hold every
    task once; and it keeps the active tab when it is still a tab and
    otherwise makes the first tab active (with no tab at all the active
    tab stays as it is). *)
Theorem buildTabs_partitions_tasks :
  forall (lib : Lib) (m : TaskModel),
    let m' := buildTabs m in
    NoDup (tabs m') /\
    (forall p, p ∈ tabs m' <-> exists t, t ∈ originalTasks m /\ label t = p) /\
    ("main" ∈ tabs m' -> head (tabs m') = Some "main") /\
    (forall p, p ∈ tabs m' ->
       exists g, tabTasks m' !! p = Some g /\
                 g ≡ₚ group (originalTasks m) p /\ g <> []) /\
    (forall p, p ∉ tabs m' -> tabTasks m' !! p = None) /\
    flatten m' ≡ₚ originalTasks m /\
    (tabs m' <> [] -> activeTab m' ∈ tabs m') /\
    (activeTab m ∈ tabs m' -> activeTab m' = activeTab m) /\
    (activeTab m ∉ tabs m' -> tabs m' <> [] ->
       head (tabs m') = Some (activeTab m')) /\
    (tabs m' = [] -> activeTab m' = activeTab m).
Proof.
  intros lib m m'.
  assert (Hf : flatten m' ≡ₚ originalTasks m)
    by apply flatten_buildTabs_Permutation.
  subst m'. rewrite buildTabs_eq in *.
  cbn [tabs tabTasks activeTab set_activeTab set_tabTasks set_tabs] in *.
  split; [apply tabOrder_NoDup|].
  split; [apply tabOrder_labels|].
  split; [apply tabOrder_main_first|].
  split; [|split; [apply tabGroups_lookup_None|]].
  - intros p Hp. eexists. split; [apply tabGroups_lookup, Hp|].
    split; [apply tabSort_Permutation|].
    intros Hnil. apply tabOrder_labels in Hp as (t & Ht & <-).
    apply (group_nonempty _ _ Ht).
    apply Permutation_nil_r. rewrite <- Hnil. symmetry. apply tabSort_Permutation.
  - split; [exact Hf|].
    split; [apply keptActiveTab_valid|].
    split; [apply keptActiveTab_same|].
    split; [apply keptActiveTab_first | apply keptActiveTab_none].
Qed.

Section TabStrip.
Context {lib : Lib}.

(** The number of tabs [ensureTabVisible] takes to fit in the strip. *)
Definition visibleTabs (m : TaskModel) : Z :=
  let availableWidth := width m - 14 in
  let availableWidth := if availableWidth <? 20 then 20 else availableWidth in
  let visibleCount := countVisibleTabs availableWidth 0 0 (tabs m) in
  if visibleCount =? 0 then 1 else visibleCount.

(** The tab offset it computes for the tab at [tabIndex]. *)
Definition followTab (tabIndex off visibleCount n : Z) : Z :=
  let off := if tabIndex <? off then tabIndex
             else if tabIndex >=? off + visibleCount
                  then tabIndex - visibleCount + 1 else off in
  let maxOffset := n - visibleCount in
  let maxOffset := if maxOffset <? 0 then 0 else maxOffset in
  let off := if off >? maxOffset then maxOffset else off in
  if off <? 0 then 0 else off.

Lemma set_tabOffset_id m : set_tabOffset (tabOffset m) m = m.
Proof. destruct m; reflexivity. Qed.

Lemma ensureTabVisible_eq tabIndex m :
  ensureTabVisible tabIndex m =
  if len (tabs m) <=? 1 then m
  else set_tabOffset
         (followTab tabIndex (tabOffset m) (visibleTabs m) (len (tabs m))) m.
Proof.
  unfold ensureTabVisible, followTab, visibleTabs.
  destruct (len (tabs m) <=? 1); [reflexivity|].
  cbn zeta.
  generalize (countVisibleTabs (if width m - 14 <? 20 then 20 else width m - 14)
                0 0 (tabs m)).
  intros c.
  generalize (if c =? 0 then 1 else c). intros vc.
  repeat match goal with
         | |- context [if ?b then _ else _] =>
             lazymatch b with
             | context [if _ then _ else _] => fail
             | _ => destruct b; cbn [tabs tabOffset set_tabOffset]
             end
         end;
    first [reflexivity | symmetry; apply set_tabOffset_id].
Qed.

Lemma countVisibleTabs_bounds aw cw vc ts :
  vc <= countVisibleTabs aw cw vc ts <= vc + len ts.
Proof.
  revert cw vc. induction ts as [|t ts IH]; intros cw vc; simpl.
  - unfold len. simpl. lia.
  - destruct (_ >? aw).
    + unfold len. simpl. lia.
    + specialize (IH (cw + (slen (if String.eqb t "main" then "Main" else titleCase t) + 8))
                     (vc + 1)).
      unfold len in *. simpl length. lia.
Qed.

Lemma visibleTabs_bounds m : 1 <= visibleTabs m <= Z.max 1 (len (tabs m)).
Proof.
  unfold visibleTabs. cbn zeta.
  match goal with
  | |- context [countVisibleTabs ?aw 0 0 ?ts] =>
      pose proof (countVisibleTabs_bounds aw 0 0 ts) as H;
      revert H; generalize (countVisibleTabs aw 0 0 ts)
  end.
  intros c Hc. destruct (c =? 0) eqn:E; [lia|].
  apply Z.eqb_neq in E. lia.
Qed.

Lemma followTab_bounds i off vc n :
  1 <= vc -> 0 <= followTab i off vc n <= Z.max 0 (n - vc).
Proof. intros Hvc. unfold followTab. split_ifs; zbool; lia. Qed.

Lemma followTab_window i off vc n :
  1 <= vc -> 0 <= i < n ->
  followTab i off vc n <= i < followTab i off vc n + vc.
Proof. intros Hvc Hi. unfold followTab. split_ifs; zbool; lia. Qed.

End TabStrip.

(** X7.  For a strip of more than one tab and a tab index inside it,
    [ensureTabVisible] changes nothing but the tab offset, and moves it so
    that the tab is among the tabs counted as fitting the strip; the offset
    is never negative and never beyond the last full strip.  At least one
    tab always counts as fitting.  With one tab or none the model is
    returned as it is. *)
Theorem ensureTabVisible_shows_the_tab :
  forall (lib : Lib) (tabIndex : Z) (m : TaskModel),
    0 <= tabIndex < len (tabs m) ->
    let m' := ensureTabVisible tabIndex m in
    let shown := visibleTabs m in
    m' = set_tabOffset (tabOffset m') m /\
    1 <= shown <= Z.max 1 (len (tabs m)) /\
    (len (tabs m) <= 1 -> m' = m) /\
    (1 < len (tabs m) ->
       0 <= tabOffset m' <= Z.max 0 (len (tabs m) - shown) /\
       tabOffset m' <= tabIndex < tabOffset m' + shown).
Proof.
  intros lib i m Hi m' shown. subst m' shown.
  pose proof (visibleTabs_bounds m) as Hvc.
  rewrite ensureTabVisible_eq.
  destruct (len (tabs m) <=? 1) eqn:E; [apply Z.leb_le in E | apply Z.leb_gt in E].
  - split; [symmetry; apply set_tabOffset_id|].
    split; [exact Hvc|]. split; [reflexivity | lia].
  - cbn [tabOffset set_tabOffset].
    split; [reflexivity|]. split; [exact Hvc|]. split; [lia|].
    intros _. split.
    + apply followTab_bounds. lia.
    + apply followTab_window; lia.
Qed.

Lemma ensureTabVisible_shows_the_tab_witness :
  let m := set_tabs ["main"; "db"; "docker"] (sampleModel 0 0) in
  let m' := ensureTabVisible 2 m in
  let shown := visibleTabs m in
  m' = set_tabOffset (tabOffset m') m /\
  1 <= shown <= Z.max 1 (len (tabs m)) /\
  (len (tabs m) <= 1 -> m' = m) /\
  (1 < len (tabs m) ->
     0 <= tabOffset m' <= Z.max 0 (len (tabs m) - shown) /\
     tabOffset m' <= 2 < tabOffset m' + shown).
Proof.
  apply (ensureTabVisible_shows_the_tab plainLib 2
           (set_tabs ["main"; "db"; "docker"] (sampleModel 0 0))).
  vm_compute. split; [discriminate | reflexivity].
Defined.

Section TabSwitch.
Context {lib : Lib}.

Lemma activeTab_updateFilter m : activeTab (updateFilter m) = activeTab m.
Proof. destruct (updateFilter_frame m) as (s & ih & lo & ->). reflexivity. Qed.

Lemma tabTasks_updateFilter m : tabTasks (updateFilter m) = tabTasks m.
Proof. destruct (updateFilter_frame m) as (s & ih & lo & ->). reflexivity. Qed.

Lemma ensureTabVisible_frame i m :
  ensureTabVisible i m = set_tabOffset (tabOffset (ensureTabVisible i m)) m.
Proof.
  rewrite ensureTabVisible_eq. destruct (len (tabs m) <=? 1).
  - symmetry. apply set_tabOffset_id.
  - reflexivity.
Qed.

(** The model whose filter [moveToNextTab] and [moveToPrevTab] re-run
    after making [tab] active and bringing the tab at [i] into the strip. *)
Definition switchedTo (tab : string) (i : Z) (m : TaskModel) : TaskModel :=
  updateFilter (ensureTabVisible i (set_activeTab tab m)).

Lemma switchedTo_fields tab i m :
  activeTab (switchedTo tab i m) = tab /\
  tabs (switchedTo tab i m) = tabs m /\
  tabTasks (switchedTo tab i m) = tabTasks m /\
  filteredTasks (switchedTo tab i m) = visibleOf (set_activeTab tab m).
Proof.
  unfold switchedTo.
  rewrite activeTab_updateFilter, tabs_updateFilter, tabTasks_updateFilter,
    filteredTasks_updateFilter.
  rewrite ensureTabVisible_frame. repeat split.
Qed.

Lemma index_lookup (l : list string) (i : nat) x :
  l !! i = Some x -> index "" l (Z.of_nat i) = x.
Proof. intros H. unfold index. rewrite Nat2Z.id, H. reflexivity. Qed.

Lemma moveToNextTab_eq m i :
  NoDup (tabs m) -> tabs m !! i = Some (activeTab m) ->
  moveToNextTab m =
  if len (tabs m) <=? 1 then m
  else match tabs m !! S i with
       | Some tab => switchedTo tab (Z.of_nat (S i)) m
       | None => updateFilter m
       end.
Proof.
  intros Hnd Hi. unfold moveToNextTab, switchedTo.
  destruct (len (tabs m) <=? 1); [reflexivity|].
  rewrite (indexOf_first _ _ _ Hnd Hi).
  replace (Z.of_nat i >=? 0) with true by (symmetry; rewrite Z.geb_leb; apply Z.leb_le; lia).
  cbn [andb].
  destruct (tabs m !! S i) as [tab|] eqn:En.
  - pose proof (lookup_lt_Some _ _ _ En) as Hlt.
    replace (Z.of_nat i <? len (tabs m) - 1) with true
      by (symmetry; apply Z.ltb_lt; unfold len; lia).
    replace (Z.of_nat i + 1) with (Z.of_nat (S i)) by lia.
    rewrite (index_lookup _ _ _ En). reflexivity.
  - apply lookup_ge_None in En.
    replace (Z.of_nat i <? len (tabs m) - 1) with false
      by (symmetry; apply Z.ltb_ge; unfold len; lia).
    reflexivity.
Qed.

Lemma moveToPrevTab_eq m i :
  NoDup (tabs m) -> tabs m !! i = Some (activeTab m) ->
  moveToPrevTab m =
  if len (tabs m) <=? 1 then m
  else match i with
       | S j => switchedTo (index "" (tabs m) (Z.of_nat j)) (Z.of_nat j) m
       | O => updateFilter m
       end.
Proof.
  intros Hnd Hi. unfold moveToPrevTab, switchedTo.
  destruct (len (tabs m) <=? 1); [reflexivity|].
  rewrite (indexOf_first _ _ _ Hnd Hi).
  replace (Z.of_nat i >=? 0) with true by (symmetry; rewrite Z.geb_leb; apply Z.leb_le; lia).
  cbn [andb].
  destruct i as [|j].
  - reflexivity.
  - replace (Z.of_nat (S j) >? 0) with true
      by (symmetry; rewrite Z.gtb_ltb; apply Z.ltb_lt; lia).
    replace (Z.of_nat (S j) - 1) with (Z.of_nat j) by lia. reflexivity.
Qed.

End TabSwitch.

(** X8.  With the active tab at position [i] of the duplicate-free tab
    list, [moveToNextTab] makes the tab at [i + 1] active and
    [moveToPrevTab] the tab at [i - 1]; at the last, respectively the
    first, tab the active tab stays (no wrap-around).  Neither changes the
    tab list or the groups, and with more than one tab the visible list is
    recomputed for the tab that is active afterwards. *)
Theorem tab_switch_moves_one_tab_without_wrapping :
  forall (lib : Lib) (m : TaskModel) (i : nat),
    NoDup (tabs m) ->
    tabs m !! i = Some (activeTab m) ->
    let next := moveToNextTab m in
    let prev := moveToPrevTab m in
    activeTab next = default (activeTab m) (tabs m !! S i) /\
    activeTab prev = default (activeTab m) (tabs m !! pred i) /\
    tabs next = tabs m /\ tabs prev = tabs m /\
    tabTasks next = tabTasks m /\ tabTasks prev = tabTasks m /\
    (1 < len (tabs m) ->
       filteredTasks next = visibleOf (set_activeTab (activeTab next) m) /\
       filteredTasks prev = visibleOf (set_activeTab (activeTab prev) m)).
Proof.
  intros lib m i Hnd Hi next prev. subst next prev.
  rewrite (moveToNextTab_eq m i Hnd Hi), (moveToPrevTab_eq m i Hnd Hi).
  pose proof (lookup_lt_Some _ _ _ Hi) as Hlt.
  destruct (len (tabs m) <=? 1) eqn:E; [apply Z.leb_le in E | apply Z.leb_gt in E].
  - assert (i = 0%nat) by (unfold len in E; lia). subst i.
    rewrite (lookup_ge_None_2 (tabs m) 1) by (unfold len in E; lia).
    simpl. rewrite Hi. simpl. repeat split; lia.
  - assert (Hnext :
      let n := match tabs m !! S i with
               | Some tab => switchedTo tab (Z.of_nat (S i)) m
               | None => updateFilter m
               end in
      activeTab n = default (activeTab m) (tabs m !! S i) /\
      tabs n = tabs m /\ tabTasks n = tabTasks m /\
      filteredTasks n = visibleOf (set_activeTab (activeTab n) m)).
    { destruct (tabs m !! S i) as [tab|]; cbn zeta.
      - destruct (switchedTo_fields tab (Z.of_nat (S i)) m) as (-> & -> & -> & ->).
        repeat split.
      - rewrite activeTab_updateFilter, tabs_updateFilter, tabTasks_updateFilter,
          filteredTasks_updateFilter, set_activeTab_id. repeat split. }
    assert (Hprev :
      let n := match i with
               | S j => switchedTo (index "" (tabs m) (Z.of_nat j)) (Z.of_nat j) m
               | O => updateFilter m
               end in
      activeTab n = default (activeTab m) (tabs m !! pred i) /\
      tabs n = tabs m /\ tabTasks n = tabTasks m /\
      filteredTasks n = visibleOf (set_activeTab (activeTab n) m)).
    { destruct i as [|j]; cbn zeta.
      - rewrite activeTab_updateFilter, tabs_updateFilter, tabTasks_updateFilter,
          filteredTasks_updateFilter, set_activeTab_id. simpl. rewrite Hi.
        repeat split.
      - destruct (switchedTo_fields (index "" (tabs m) (Z.of_nat j)) (Z.of_nat j) m)
          as (-> & -> & -> & ->).
        simpl. destruct (tabs m !! j) as [tab|] eqn:Ej.
        + rewrite (index_lookup _ _ _ Ej). repeat split.
        + apply lookup_ge_None in Ej. lia. }
    cbn zeta in Hnext, Hprev.
    destruct Hnext as (Hn1 & Hn2 & Hn3 & Hn4).
    destruct Hprev as (Hp1 & Hp2 & Hp3 & Hp4).
    repeat split; assumption.
Qed.

Lemma tab_switch_moves_one_tab_without_wrapping_witness :
  let m := set_tabs ["main"; "db"; "docker"] (sampleModel 0 0) in
  let next := moveToNextTab m in
  let prev := moveToPrevTab m in
  activeTab next = default (activeTab m) (tabs m !! 1%nat) /\
  activeTab prev = default (activeTab m) (tabs m !! 0%nat) /\
  tabs next = tabs m /\ tabs prev = tabs m /\
  tabTasks next = tabTasks m /\ tabTasks prev = tabTasks m /\
  (1 < len (tabs m) ->
     filteredTasks next = visibleOf (set_activeTab (activeTab next) m) /\
     filteredTasks prev = visibleOf (set_activeTab (activeTab prev) m)).
Proof.
  apply (tab_switch_moves_one_tab_without_wrapping plainLib
           (set_tabs ["main"; "db"; "docker"] (sampleModel 0 0)) 0%nat).
  - apply (bool_decide_unpack (NoDup _)). vm_compute. exact I.
  - reflexivity.
Defined.

Section SortToggle.
Context {lib : Lib}.

(** The mode [toggleSortMode] switches to, and the name it remembers. *)
Definition toggled (m : TaskModel) : string :=
  if String.eqb (sortMode m) "file" then "alpha" else "file".

Definition rememberedName (m : TaskModel) : string :=
  if (len (filteredTasks m) >? 0) && (selected m >=? 0)
     && (selected m <? len (filteredTasks m))
  then Name (index (mkTask "" "" [] 0) (filteredTasks m) (selected m))
  else "".

Definition restoredSelection (name : string) (u : TaskModel) : TaskModel :=
  if negb (String.eqb name "")
  then let i := indexOfName name (filteredTasks u) 0 in
       if i >=? 0 then set_selected i u else u
  else u.

Lemma toggleSortMode_eq m :
  toggleSortMode m =
  ensureSelectionVisible
    (restoredSelection (rememberedName m)
       (updateFilter (buildTabs (set_sortMode (toggled m) m)))).
Proof.
  unfold toggleSortMode, restoredSelection, rememberedName, toggled.
  destruct (String.eqb (sortMode m) "file"); reflexivity.
Qed.

Lemma restoredSelection_frame name u :
  exists sel, restoredSelection name u = set_selected sel u.
Proof.
  unfold restoredSelection.
  destruct (negb _); [destruct (_ >=? 0)|]; eexists;
    first [reflexivity | symmetry; apply set_selected_id].
Qed.

Lemma toggleSortMode_frame m :
  exists sel ih lo,
    toggleSortMode m =
    set_listOffset lo (set_itemHeight ih (set_selected sel
      (set_filteredTasks (visibleOf (buildTabs (set_sortMode (toggled m) m)))
         (buildTabs (set_sortMode (toggled m) m))))).
Proof.
  rewrite toggleSortMode_eq.
  generalize (buildTabs (set_sortMode (toggled m) m)). intros b.
  destruct (updateFilter_frame b) as (s1 & ih1 & lo1 & ->).
  generalize (visibleOf b). intros F.
  destruct (restoredSelection_frame (rememberedName m)
              (set_listOffset lo1 (set_itemHeight ih1 (set_selected s1
                 (set_filteredTasks F b)))))
    as (s2 & ->).
  match goal with
  | |- context [ensureSelectionVisible ?x] =>
      destruct (ensureSelectionVisible_frame x) as (ih & lo & ->)
  end.
  exists s2, ih, lo. reflexivity.
Qed.

Lemma tabOrder_ext (m1 m2 : TaskModel) :
  originalTasks m1 = originalTasks m2 -> sortMode m1 = sortMode m2 ->
  tabOrder m1 = tabOrder m2.
Proof. intros Ho Hs. unfold tabOrder. rewrite Ho, Hs. reflexivity. Qed.

Lemma tabGroups_ext (m1 m2 : TaskModel) :
  originalTasks m1 = originalTasks m2 -> sortMode m1 = sortMode m2 ->
  tabGroups m1 = tabGroups m2.
Proof. intros Ho Hs. unfold tabGroups, tabSort. rewrite Ho, Hs. reflexivity. Qed.

Lemma tabOrder_elem_ext (m1 m2 : TaskModel) p :
  originalTasks m1 = originalTasks m2 -> p ∈ tabOrder m1 -> p ∈ tabOrder m2.
Proof.
  intros Ho. rewrite !tabOrder_Permutation, Ho. auto.
Qed.

Lemma toggled_toggled m :
  sortMode m = "file" \/ sortMode m = "alpha" ->
  toggled (set_sortMode (toggled m) m) = sortMode m.
Proof. unfold toggled. intros [H|H]; rewrite H; reflexivity. Qed.

Lemma toggleSortMode_fields m :
  let m' := toggleSortMode m in
  let b := set_sortMode (toggled m) m in
  sortMode m' = toggled m /\ originalTasks m' = originalTasks m /\
  tasks m' = tasks m /\ searchQuery m' = searchQuery m /\
  searchMode m' = searchMode m /\
  tabs m' = tabOrder b /\ tabTasks m' = tabGroups b /\
  activeTab m' = keptActiveTab b.
Proof.
  intros m' b. subst m' b.
  destruct (toggleSortMode_frame m) as (sel & ih & lo & ->).
  rewrite buildTabs_eq. repeat split.
Qed.

Lemma indexOfName_found name (l : list Task) i0 :
  (exists u, u ∈ l /\ Name u = name) ->
  i0 <= indexOfName name l i0 /\
  exists t, l !! Z.to_nat (indexOfName name l i0 - i0) = Some t /\ Name t = name.
Proof.
  revert i0. induction l as [|y l IH]; intros i0 (u & Hu & Hn).
  - apply elem_of_nil in Hu. contradiction.
  - simpl. destruct (String.eqb (Name y) name) eqn:E.
    + apply String.eqb_eq in E. rewrite Z.sub_diag. split; [lia|]. exists y. auto.
    + apply String.eqb_neq in E.
      apply elem_of_cons in Hu as [->|Hu]; [contradiction|].
      destruct (IH (i0 + 1) (ex_intro _ u (conj Hu Hn))) as (Hle & t & Ht & Htn).
      split; [lia|]. exists t. split; [|exact Htn].
      replace (Z.to_nat (indexOfName name l (i0 + 1) - i0))
        with (S (Z.to_nat (indexOfName name l (i0 + 1) - (i0 + 1)))) by lia.
      exact Ht.
Qed.

End SortToggle.

(** X9.  In a model whose tabs and groups are those [buildTabs] builds,
    whose sort mode is ["file"] or ["alpha"] and whose active tab is one of
    the tabs, toggling the sort mode twice gives back the sort mode, the
    tab list, the groups and the active tab; the task sets and the query
    are never touched. *)
Theorem toggleSortMode_twice_restores_tabs :
  forall (lib : Lib) (m : TaskModel),
    sortMode m = "file" \/ sortMode m = "alpha" ->
    tabs m = tabs (buildTabs m) ->
    tabTasks m = tabTasks (buildTabs m) ->
    activeTab m ∈ tabs m ->
    let m2 := toggleSortMode (toggleSortMode m) in
    sortMode (toggleSortMode m) <> sortMode m /\
    sortMode m2 = sortMode m /\
    tabs m2 = tabs m /\ tabTasks m2 = tabTasks m /\ activeTab m2 = activeTab m /\
    originalTasks m2 = originalTasks m /\ tasks m2 = tasks m /\
    searchQuery m2 = searchQuery m.
Proof.
  intros lib m Hmode Htabs Hgroups Hactive m2. subst m2.
  rewrite buildTabs_eq in Htabs, Hgroups.
  cbn [tabs tabTasks set_activeTab set_tabTasks set_tabs] in Htabs, Hgroups.
  destruct (toggleSortMode_fields m) as (Hs1 & Ho1 & Ht1 & Hq1 & _ & Htab1 & _ & Ha1).
  destruct (toggleSortMode_fields (toggleSortMode m))
    as (Hs2 & Ho2 & Ht2 & Hq2 & _ & Htab2 & Hg2 & Ha2).
  cbn zeta in *.
  assert (Hback : toggled (toggleSortMode m) = sortMode m).
  { unfold toggled at 1. rewrite Hs1. unfold toggled.
    destruct Hmode as [H|H]; rewrite H; reflexivity. }
  assert (Hkept1 : activeTab (toggleSortMode m) = activeTab m).
  { rewrite Ha1. apply (keptActiveTab_same (set_sortMode (toggled m) m)).
    cbn [activeTab set_sortMode].
    apply (tabOrder_elem_ext m (set_sortMode (toggled m) m)); [reflexivity|].
    rewrite <- Htabs. exact Hactive. }
  split.
  { rewrite Hs1. unfold toggled. destruct Hmode as [H|H]; rewrite H; discriminate. }
  split; [rewrite Hs2; exact Hback|].
  assert (Ho : tabOrder (set_sortMode (toggled (toggleSortMode m)) (toggleSortMode m))
               = tabOrder m).
  { apply tabOrder_ext; cbn [originalTasks sortMode set_sortMode]; assumption. }
  split; [rewrite Htab2, Ho; symmetry; exact Htabs|].
  split.
  { rewrite Hg2, Hgroups.
    apply tabGroups_ext; cbn [originalTasks sortMode set_sortMode]; assumption. }
  split.
  { rewrite Ha2, <- Hkept1.
    apply (keptActiveTab_same
             (set_sortMode (toggled (toggleSortMode m)) (toggleSortMode m))).
    cbn [activeTab set_sortMode]. rewrite Ho, Hkept1, <- Htabs. exact Hactive. }
  repeat split; congruence.
Qed.

Lemma toggleSortMode_twice_restores_tabs_witness :
  let m := sampleModel 1 0 in
  let m2 := toggleSortMode (toggleSortMode m) in
  sortMode (toggleSortMode m) <> sortMode m /\
  sortMode m2 = sortMode m /\
  tabs m2 = tabs m /\ tabTasks m2 = tabTasks m /\ activeTab m2 = activeTab m /\
  originalTasks m2 = originalTasks m /\ tasks m2 = tasks m /\
  searchQuery m2 = searchQuery m.
Proof.
  apply (toggleSortMode_twice_restores_tabs plainLib (sampleModel 1 0)).
  - left. reflexivity.
  - vm_compute. reflexivity.
  - vm_compute. reflexivity.
  - apply (bool_decide_unpack _). vm_compute. exact I.
Defined.

(** X10.  [toggleSortMode] follows the selected task by name: when the
    selection is a valid index, the selected task has a non-empty name and
    a task of that name is still visible after the toggle, the selection
    afterwards is the first visible task of that name. *)
Theorem toggleSortMode_follows_selected_task :
  forall (lib : Lib) (m : TaskModel) (t : Task),
    0 <= selected m ->
    filteredTasks m !! Z.to_nat (selected m) = Some t ->
    Name t <> "" ->
    (exists u, u ∈ filteredTasks (toggleSortMode m) /\ Name u = Name t) ->
    let m' := toggleSortMode m in
    selected m' = indexOfName (Name t) (filteredTasks m') 0 /\
    0 <= selected m' /\
    exists t', filteredTasks m' !! Z.to_nat (selected m') = Some t' /\
               Name t' = Name t.
Proof.
  intros lib m t Hsel Ht Hname Hpresent m'. subst m'.
  revert Hpresent. rewrite toggleSortMode_eq.
  rewrite selected_ensureSelectionVisible, filteredTasks_ensureSelectionVisible.
  set (u := updateFilter _).
  assert (Hrem : rememberedName m = Name t).
  { unfold rememberedName, index. rewrite Ht. simpl.
    pose proof (lookup_lt_Some _ _ _ Ht) as Hlt.
    replace (len (filteredTasks m) >? 0) with true
      by (symmetry; rewrite Z.gtb_ltb; apply Z.ltb_lt; unfold len; lia).
    replace (selected m >=? 0) with true
      by (symmetry; rewrite Z.geb_leb; apply Z.leb_le; lia).
    replace (selected m <? len (filteredTasks m)) with true
      by (symmetry; apply Z.ltb_lt; unfold len; lia).
    reflexivity. }
  rewrite Hrem.
  assert (Hf : filteredTasks (restoredSelection (Name t) u) = filteredTasks u).
  { destruct (restoredSelection_frame (Name t) u) as (s & ->). reflexivity. }
  rewrite Hf. intros Hpresent.
  destruct (indexOfName_found (Name t) (filteredTasks u) 0 Hpresent)
    as (Hge & t' & Ht' & Hn').
  rewrite Z.sub_0_r in Ht'.
  assert (Hs : selected (restoredSelection (Name t) u)
               = indexOfName (Name t) (filteredTasks u) 0).
  { unfold restoredSelection. apply String.eqb_neq in Hname. rewrite Hname.
    cbn [negb]. cbn zeta.
    replace (indexOfName (Name t) (filteredTasks u) 0 >=? 0) with true
      by (symmetry; rewrite Z.geb_leb; apply Z.leb_le; lia).
    reflexivity. }
  rewrite Hs. split; [reflexivity|]. split; [exact Hge|]. eauto.
Qed.

Lemma toggleSortMode_follows_selected_task_witness :
  let m := sampleModel 1 0 in
  let m' := toggleSortMode m in
  selected m' = indexOfName "b" (filteredTasks m') 0 /\
  0 <= selected m' /\
  exists t', filteredTasks m' !! Z.to_nat (selected m') = Some t' /\
             Name t' = "b".
Proof.
  apply (toggleSortMode_follows_selected_task plainLib (sampleModel 1 0)
           (mkTask "b" "" [] 0)).
  - vm_compute. discriminate.
  - reflexivity.
  - discriminate.
  - exists (mkTask "b" "" [] 0). split; [|reflexivity].
    apply (bool_decide_unpack _). vm_compute. exact I.
Defined.

(** ** The pointer *)

Section Pointer.
Context {lib : Lib}.

(** The columns the tabs [ts] take in the hit test of [getTabIndexAtX]. *)
Fixpoint stripWidth (ts : list string) : Z :=
  match ts with
  | [] => 0
  | tab :: ts' => slen tab + 8 + stripWidth ts'
  end.

Lemma stripWidth_nonneg ts : 0 <= stripWidth ts.
Proof. induction ts as [|t ts IH]; simpl; unfold slen; lia. Qed.

Lemma tabAtX_spec x pos i ts :
  tabAtX x pos i ts = -1 \/
  exists (k : nat) (tab : string),
    ts !! k = Some tab /\
    tabAtX x pos i ts = i + Z.of_nat k /\
    pos + stripWidth (take k ts) <= x < pos + stripWidth (take k ts) + slen tab + 8.
Proof.
  revert pos i. induction ts as [|t ts IH]; intros pos i; simpl; [left; reflexivity|].
  destruct ((x >=? pos) && (x <? pos + (slen t + 8))) eqn:E.
  - right. exists 0%nat, t. apply andb_prop in E as [E1 E2].
    rewrite Z.geb_leb in E1. apply Z.leb_le in E1. apply Z.ltb_lt in E2.
    simpl. repeat split; lia.
  - destruct (IH (pos + (slen t + 8)) (i + 1)) as [H|(k & tab & Hk & Hr & Hx)].
    + left. exact H.
    + right. exists (S k), tab. simpl. repeat split; [exact Hk | lia | lia | lia].
Qed.

Lemma tabAtX_left x pos i ts : x < pos -> tabAtX x pos i ts = -1.
Proof.
  revert pos i. induction ts as [|t ts IH]; intros pos i Hx; simpl; [reflexivity|].
  replace (x >=? pos) with false
    by (symmetry; rewrite Z.geb_leb; apply Z.leb_gt; lia).
  simpl. apply IH. unfold slen. lia.
Qed.

End Pointer.

(** X11.  With a tab offset that is not negative, [getTabIndexAtX] returns
    (it does not panic) and answers -1 or the index of a tab from the
    offset on; that tab is the one whose columns contain [x] when the tabs
    from the offset on are laid out from column [2 + headerIndent], each
    [len(name) + 8] columns wide.  It answers -1 with one tab or none and
    for every [x] left of the strip. *)
Theorem getTabIndexAtX_hits_a_tab_of_the_strip :
  forall (lib : Lib) (x : Z) (m : TaskModel),
    0 <= tabOffset m ->
    exists r,
      getTabIndexAtX x m = Some r /\
      let shownTabs := drop (Z.to_nat (tabOffset m)) (tabs m) in
      (len (tabs m) <= 1 -> r = -1) /\
      (x < 2 + headerIndent m -> r = -1) /\
      (r = -1 \/
       (tabOffset m <= r < len (tabs m) /\
        exists (k : nat) (tab : string),
          r = tabOffset m + Z.of_nat k /\
          tabs m !! Z.to_nat r = Some tab /\
          2 + headerIndent m + stripWidth (take k shownTabs) <= x
            < 2 + headerIndent m + stripWidth (take k shownTabs) + slen tab + 8)).
Proof.
  intros lib x m Hoff. unfold getTabIndexAtX.
  destruct (len (tabs m) <=? 1) eqn:E.
  - exists (-1). repeat split; auto.
  - apply Z.leb_gt in E.
    replace (tabOffset m <? 0) with false by (symmetry; apply Z.ltb_ge; lia).
    eexists. split; [reflexivity|]. cbv zeta.
    split; [lia|]. split; [apply tabAtX_left|].
    destruct (tabAtX_spec x (2 + headerIndent m) (tabOffset m)
                (drop (Z.to_nat (tabOffset m)) (tabs m)))
      as [H|(k & tab & Hk & Hr & Hx)]; [left; exact H | right].
    rewrite Hr. rewrite lookup_drop in Hk.
    pose proof (lookup_lt_Some _ _ _ Hk) as Hlt.
    split; [unfold len; lia|].
    exists k, tab. split; [reflexivity|]. split; [|exact Hx].
    replace (Z.to_nat (tabOffset m + Z.of_nat k))
      with (Z.to_nat (tabOffset m) + k)%nat by lia.
    exact Hk.
Qed.

Lemma getTabIndexAtX_hits_a_tab_of_the_strip_witness :
  let m := set_tabs ["main"; "db"; "docker"] (sampleModel 0 0) in
  0 <= tabOffset m /\
  getTabIndexAtX 16 m = Some 1 /\
  exists r,
    getTabIndexAtX 16 m = Some r /\
    let shownTabs := drop (Z.to_nat (tabOffset m)) (tabs m) in
    (len (tabs m) <= 1 -> r = -1) /\
    (16 < 2 + headerIndent m -> r = -1) /\
    (r = -1 \/
     (tabOffset m <= r < len (tabs m) /\
      exists (k : nat) (tab : string),
        r = tabOffset m + Z.of_nat k /\
        tabs m !! Z.to_nat r = Some tab /\
        2 + headerIndent m + stripWidth (take k shownTabs) <= 16
          < 2 + headerIndent m + stripWidth (take k shownTabs) + slen tab + 8)).
Proof.
  intros m.
  assert (H : 0 <= tabOffset m) by (vm_compute; discriminate).
  split; [exact H|]. split; [vm_compute; reflexivity|].
  exact (getTabIndexAtX_hits_a_tab_of_the_strip plainLib 16 m H).
Defined.

Section Mouse.
Context {lib : Lib}.

Lemma inRange_markForExecution m :
  inRange m ->
  exists t,
    filteredTasks m !! Z.to_nat (selected m) = Some t /\
    markForExecution m =
    Some (set_quitAfterSelect true (set_lastCommand (Name t) m), CmdQuit).
Proof.
  intros [H0 Hlt]. unfold markForExecution.
  replace (len (filteredTasks m) =? 0) with false
    by (symmetry; apply Z.eqb_neq; lia).
  replace (selected m <? 0) with false by (symmetry; apply Z.ltb_ge; lia).
  replace (selected m >=? len (filteredTasks m)) with false
    by (symmetry; rewrite Z.geb_leb; apply Z.leb_gt; lia).
  cbn [orb].
  destruct (filteredTasks m !! Z.to_nat (selected m)) as [t|] eqn:Et.
  - exists t. split; reflexivity.
  - apply lookup_ge_None in Et. unfold len in Hlt. lia.
Qed.

Lemma getTabIndexAtX_returns x m :
  0 <= tabOffset m -> exists r, getTabIndexAtX x m = Some r.
Proof.
  intros H. unfold getTabIndexAtX.
  destruct (len (tabs m) <=? 1); [eauto|].
  replace (tabOffset m <? 0) with false by (symmetry; apply Z.ltb_ge; lia).
  eauto.
Qed.

End Mouse.

(** X12.  A mouse message never puts the selection outside the visible
    list: in a state with a valid selection and a tab offset that is not
    negative, [handleMouse] returns (no panic) a state whose selection is
    again a valid index.  A left press
    on a list line selects exactly the row [Y - 4] (one less while the
    search box is shown) when that row exists and changes nothing else; a
    motion message on the selected row commits the selected task. *)
Theorem handleMouse_selects_valid_rows :
  forall (lib : Lib) (msg : MouseMsg) (m : TaskModel),
    inRange m ->
    0 <= tabOffset m ->
    exists m' cmd,
      handleMouse msg m = Some (m', cmd) /\
      (filteredTasks m' <> [] -> inRange m') /\
      (mouseType msg = MouseLeft -> 4 <= Y msg ->
         0 <= rowAt (Y msg) m < len (filteredTasks m) ->
         m' = set_selected (rowAt (Y msg) m) m /\ cmd = CmdNil) /\
      (mouseType msg = MouseMotion -> 4 <= Y msg ->
         rowAt (Y msg) m = selected m ->
         cmd = CmdQuit /\ quitAfterSelect m' = true /\
         Some (lastCommand m') =
           Name <$> filteredTasks m !! Z.to_nat (selected m)).
Proof.
  intros lib msg m Hr Hoff.
  destruct (inRange_markForExecution m Hr) as (t & Ht & Hmark).
  unfold handleMouse.
  destruct (mouseType msg) eqn:Etype.
  - destruct ((Y msg =? 2) && (len (tabs m) >? 1)) eqn:Etab.
    + apply andb_prop in Etab as [EY _]. apply Z.eqb_eq in EY.
      destruct (getTabIndexAtX_returns (X msg) m Hoff) as [r ->].
      destruct (_ && _);
        eexists _, _; (split; [reflexivity|]);
        (split; [|split; [intros _ HY; lia | discriminate]]).
      * intros Hne. unfold inRange.
        rewrite filteredTasks_updateFilter in *. rewrite selected_updateFilter.
        pose proof (clampSelection_bounds (selected m)
                      (len (visibleOf (set_activeTab
                         (index "" (tabs m) r) m)))
                      (len_nonneg _) (proj1 Hr)) as Hb.
        cbn [selected set_activeTab] in *.
        destruct (visibleOf _) as [|v vs]; [contradiction|].
        unfold len in *. simpl length in *. lia.
      * intros _. exact Hr.
    + destruct (Y msg >=? 4) eqn:EY.
      * destruct ((rowAt (Y msg) m >=? 0) && (rowAt (Y msg) m <? len (filteredTasks m)))
          eqn:Erow.
        -- apply andb_prop in Erow as [E1 E2].
           rewrite Z.geb_leb in E1. apply Z.leb_le in E1. apply Z.ltb_lt in E2.
           eexists _, _. split; [reflexivity|].
           split; [intros _; split; assumption|].
           split; [intros; split; reflexivity | discriminate].
        -- apply andb_false_iff in Erow.
           eexists _, _. split; [reflexivity|].
           split; [intros _; exact Hr|].
           split; [|discriminate].
           intros _ _ [H1 H2]. exfalso.
           destruct Erow as [E|E];
             [rewrite Z.geb_leb in E; apply Z.leb_gt in E | apply Z.ltb_ge in E]; lia.
      * rewrite Z.geb_leb in EY. apply Z.leb_gt in EY.
        eexists _, _. split; [reflexivity|].
        split; [intros _; exact Hr|].
        split; [intros; lia | discriminate].
  - destruct (Y msg >=? 4) eqn:EY.
    + destruct ((rowAt (Y msg) m >=? 0) && (rowAt (Y msg) m <? len (filteredTasks m))
                && (rowAt (Y msg) m =? selected m)) eqn:Erow.
      * rewrite Hmark. eexists _, _. split; [reflexivity|].
        split; [intros _; exact Hr|]. split; [discriminate|].
        intros _ _ _. cbn [quitAfterSelect lastCommand set_quitAfterSelect set_lastCommand].
        rewrite Ht. repeat split.
      * eexists _, _. split; [reflexivity|].
        split; [intros _; exact Hr|]. split; [discriminate|].
        intros _ _ Hrow. exfalso. destruct Hr as [H0 Hlt].
        rewrite Hrow in Erow.
        replace (selected m >=? 0) with true in Erow
          by (symmetry; rewrite Z.geb_leb; apply Z.leb_le; lia).
        replace (selected m <? len (filteredTasks m)) with true in Erow
          by (symmetry; apply Z.ltb_lt; lia).
        rewrite Z.eqb_refl in Erow. discriminate.
    + rewrite Z.geb_leb in EY. apply Z.leb_gt in EY.
      eexists _, _. split; [reflexivity|].
      split; [intros _; exact Hr|]. split; [discriminate|]. intros; lia.
  - eexists _, _. split; [reflexivity|].
    split; [intros _; exact Hr|]. split; discriminate.
Qed.

Lemma handleMouse_selects_valid_rows_witness :
  let m := sampleModel 1 0 in
  let msg := mkMouseMsg 10 7 MouseLeft in
  exists m' cmd,
    handleMouse msg m = Some (m', cmd) /\
    (filteredTasks m' <> [] -> inRange m') /\
    (mouseType msg = MouseLeft -> 4 <= Y msg ->
       0 <= rowAt (Y msg) m < len (filteredTasks m) ->
       m' = set_selected (rowAt (Y msg) m) m /\ cmd = CmdNil) /\
    (mouseType msg = MouseMotion -> 4 <= Y msg ->
       rowAt (Y msg) m = selected m ->
       cmd = CmdQuit /\ quitAfterSelect m' = true /\
       Some (lastCommand m') =
         Name <$> filteredTasks m !! Z.to_nat (selected m)).
Proof.
  apply (handleMouse_selects_valid_rows plainLib (mkMouseMsg 10 7 MouseLeft)
           (sampleModel 1 0)).
  - vm_compute. split; [discriminate | reflexivity].
  - vm_compute. discriminate.
Defined.

(** ** Keys *)

Section Keys.
Context {lib : Lib}.

Definition navigationKeys : list string :=
  ["up"; "k"; "down"; "j"; "pgup"; "pgdown"; "home"; "end"].

Lemma navigate_frame s m m' :
  navigate s m = Some m' ->
  exists sel ih lo, m' = set_listOffset lo (set_itemHeight ih (set_selected sel m)).
Proof.
  unfold navigate. rewrite visibleListHeight_eq. intros H.
  assert (G : forall v (x : TaskModel),
            (exists ih, x = set_itemHeight ih m) ->
            exists sel ih lo,
              ensureSelectionVisible (set_selected v x) =
              set_listOffset lo (set_itemHeight ih (set_selected sel m))).
  { intros v x [ih ->]. rewrite ensureSelectionVisible_eq.
    eexists v, _, _. reflexivity. }
  assert (Gm : exists ih, m = set_itemHeight ih m)
    by (exists (itemHeight m); symmetry; apply set_itemHeight_id).
  assert (Gid : exists sel ih lo,
             m = set_listOffset lo (set_itemHeight ih (set_selected sel m))).
  { exists (selected m), (itemHeight m), (listOffset m). destruct m; reflexivity. }
  repeat match type of H with
         | (if ?b then _ else _) = _ => destruct b
         end;
    try discriminate; injection H as <-;
    repeat match goal with
           | |- context [if ?b then _ else _] => destruct b
           end;
    first [exact Gid | apply G; first [exact Gm | eexists; reflexivity]].
Qed.

Lemma navigate_is_Some s m :
  case_ s navigationKeys = true -> exists m', navigate s m = Some m'.
Proof.
  unfold navigationKeys, navigate. rewrite visibleListHeight_eq.
  unfold case_. cbn [existsb].
  destruct (String.eqb s "up"); [intros _; simpl; eauto|].
  destruct (String.eqb s "k"); [intros _; simpl; eauto|].
  destruct (String.eqb s "down"); [intros _; simpl; eauto|].
  destruct (String.eqb s "j"); [intros _; simpl; eauto|].
  destruct (String.eqb s "pgup"); [intros _; simpl; eauto|].
  destruct (String.eqb s "pgdown"); [intros _; simpl; eauto|].
  destruct (String.eqb s "home"); [intros _; simpl; eauto|].
  destruct (String.eqb s "end"); [intros _; simpl; eauto|].
  simpl. discriminate.
Qed.

(** A navigation key is not a rune that starts a search, nor one of the
    keys [handleKeys] tests before the navigation cases. *)
Lemma byte_code n : 0 <= n < 256 -> N_of_ascii (byte n) = Z.to_N n.
Proof. intros H. unfold byte. apply N_ascii_embedding. lia. Qed.

Lemma single_rune_navigation r :
  case_ (utf8 r +:+ "") navigationKeys = true -> r = 106 \/ r = 107.
Proof.
  intros H. apply existsb_exists in H as (k & Hk & Heq).
  apply String.eqb_eq in Heq. unfold utf8 in Heq.
  assert (Hbyte : forall x c rest rest',
            String (byte x) rest = String c rest' ->
            0 <= x < 256 -> Z.to_N x = N_of_ascii c).
  { intros x c rest rest' E Hx. injection E as E _.
    rewrite <- (byte_code x Hx), E. reflexivity. }
  destruct ((0 <=? r) && (r <? 128)) eqn:E1.
  { apply andb_prop in E1 as [H1 H2]. apply Z.leb_le in H1. apply Z.ltb_lt in H2.
    cbn [String.append] in Heq.
    unfold navigationKeys in Hk. cbn [In] in Hk.
    repeat (destruct Hk as [<-|Hk]); try contradiction;
      try (injection Heq as _ Hrest; discriminate Hrest);
      apply Hbyte in Heq; try lia; cbn in Heq; lia. }
  assert (Hhigh : forall x rest,
            String (byte x) rest = k -> 128 <= x < 256 -> False).
  { intros x rest E Hx. unfold navigationKeys in Hk. cbn [In] in Hk.
    repeat (destruct Hk as [<-|Hk]); try contradiction;
      apply Hbyte in E; try lia; cbn in E; lia. }
  destruct ((128 <=? r) && (r <? 2048)) eqn:E2.
  { apply andb_prop in E2 as [H1 H2]. apply Z.leb_le in H1. apply Z.ltb_lt in H2.
    cbn [String.append] in Heq. exfalso. eapply Hhigh; [exact Heq|].
    Z.div_mod_to_equations. lia. }
  destruct (((2048 <=? r) && (r <? 55296)) || ((57344 <=? r) && (r <? 65536)))
    eqn:E3.
  { cbn [String.append] in Heq. exfalso. eapply Hhigh; [exact Heq|].
    apply orb_prop in E3 as [E3|E3]; apply andb_prop in E3 as [H1 H2];
      apply Z.leb_le in H1; apply Z.ltb_lt in H2;
      Z.div_mod_to_equations; lia. }
  destruct ((65536 <=? r) && (r <? 1114112)) eqn:E4.
  { apply andb_prop in E4 as [H1 H2]. apply Z.leb_le in H1. apply Z.ltb_lt in H2.
    cbn [String.append] in Heq. exfalso. eapply Hhigh; [exact Heq|].
    Z.div_mod_to_equations. lia. }
  cbn [String.append] in Heq. exfalso. eapply Hhigh; [exact Heq|]. lia.
Qed.

Lemma typeToSearch_navigation msg m :
  case_ (KeyMsg_String msg) navigationKeys = true -> typeToSearch msg m = None.
Proof.
  unfold typeToSearch, KeyMsg_String.
  destruct (keyType msg); [|reflexivity].
  destruct (Runes msg) as [|r [|r' rs]]; try reflexivity.
  cbn [string_of_runes]. destruct (Alt msg).
  - intros H. apply existsb_exists in H as (k & Hk & Heq).
    apply String.eqb_eq in Heq. cbn [String.append] in Heq.
    unfold navigationKeys in Hk. cbn [In] in Hk.
    repeat (destruct Hk as [<-|Hk]); try contradiction; discriminate Heq.
  - change ("" +:+ (utf8 r +:+ "")) with (utf8 r +:+ "").
    intros H. apply single_rune_navigation in H.
    unfold triggersSearch. destruct H as [-> | ->]; reflexivity.
Qed.

Lemma navigation_not_command s :
  case_ s navigationKeys = true ->
  case_ s ["ctrl+s"] = false /\ case_ s ["q"; "ctrl+c"] = false /\
  case_ s ["r"; "ctrl+r"] = false.
Proof.
  intros H. apply existsb_exists in H as (k & Hk & Heq).
  apply String.eqb_eq in Heq. subst k.
  unfold navigationKeys in Hk. cbn [In] in Hk.
  repeat (destruct Hk as [<-|Hk]); try contradiction; vm_compute; auto.
Qed.

Lemma handleKeys_navigation now msg m :
  case_ (KeyMsg_String msg) navigationKeys = true ->
  exists m',
    navigate (KeyMsg_String msg) m = Some m' /\
    handleKeys now msg m = Some (m', CmdNil).
Proof.
  intros Hkey. destruct (navigate_is_Some _ m Hkey) as [m' Hnav].
  exists m'. split; [exact Hnav|]. unfold handleKeys.
  destruct (searchMode m); [rewrite Hnav; reflexivity|].
  rewrite (typeToSearch_navigation msg m Hkey).
  destruct (navigation_not_command _ Hkey) as (-> & -> & ->).
  rewrite Hnav. reflexivity.
Qed.

End Keys.



(** X13.  While searching, the navigation keys (among them the letters
    [k] and [j]) move the selection and are never passed to the text
    input: the input, the query, the mode, the visible list and the active
    tab stay as they are, and no command is issued. *)
Theorem search_mode_navigation_keys_bypass_the_input :
  forall (lib : Lib) (now : Z) (msg : KeyMsg) (m : TaskModel),
    searchMode m = true ->
    case_ (KeyMsg_String msg) navigationKeys = true ->
    exists m',
      handleKeys now msg m = Some (m', CmdNil) /\
      navigate (KeyMsg_String msg) m = Some m' /\
      searchInput m' = searchInput m /\ searchQuery m' = searchQuery m /\
      searchMode m' = true /\ filteredTasks m' = filteredTasks m /\
      activeTab m' = activeTab m /\ tasks m' = tasks m.
Proof.
  intros lib now msg m Hmode Hkey.
  destruct (navigate_is_Some _ m Hkey) as [m' Hnav].
  exists m'. unfold handleKeys. rewrite Hmode, Hnav.
  split; [reflexivity|]. split; [reflexivity|].
  destruct (navigate_frame _ _ _ Hnav) as (sel & ih & lo & ->).
  cbn. rewrite Hmode. repeat split.
Qed.

Lemma search_mode_navigation_keys_bypass_the_input_witness :
  let m := set_searchMode true (sampleModel 1 0) in
  let msg := mkKeyMsg KeyRunes [106] false in
  exists m',
    handleKeys 0 msg m = Some (m', CmdNil) /\
    navigate (KeyMsg_String msg) m = Some m' /\
    searchInput m' = searchInput m /\ searchQuery m' = searchQuery m /\
    searchMode m' = true /\ filteredTasks m' = filteredTasks m /\
    activeTab m' = activeTab m /\ tasks m' = tasks m.
Proof.
  apply (search_mode_navigation_keys_bypass_the_input plainLib 0
           (mkKeyMsg KeyRunes [106] false)
           (set_searchMode true (sampleModel 1 0))); reflexivity.
Defined.

(** X14.  The escape key.  While searching it leaves search mode with an
    empty query and the members of the active tab visible, and never
    quits.  While browsing with a query still shown it clears the query and
    shows the members of the active tab; while browsing without a query it
    quits and leaves the model as it is. *)
Theorem escape_clears_the_search_before_it_quits :
  forall (lib : Lib) (now : Z) (rs : list rune) (m : TaskModel),
    let msg := mkKeyMsg (KeyNamed "esc") rs false in
    exists m' cmd,
      handleKeys now msg m = Some (m', cmd) /\
      (searchMode m = true ->
         cmd = CmdInput /\ searchMode m' = false /\ searchQuery m' = "" /\
         filteredTasks m' = default [] (tabTasks m !! activeTab m)) /\
      (searchMode m = false -> searchQuery m <> "" ->
         cmd = CmdNil /\ searchMode m' = false /\ searchQuery m' = "" /\
         filteredTasks m' = default [] (tabTasks m !! activeTab m)) /\
      (searchMode m = false -> searchQuery m = "" ->
         cmd = CmdQuit /\ m' = m).
Proof.
  intros lib now rs m msg. subst msg. unfold handleKeys.
  change (KeyMsg_String (mkKeyMsg (KeyNamed "esc") rs false)) with "esc".
  change (navigate "esc" m) with (@None TaskModel).
  destruct (searchMode m) eqn:Emode.
  - change (String.eqb "esc" "esc") with true.
    change (String.eqb "esc" "enter") with false. cbv iota.
    eexists _, _. split; [reflexivity|].
    split; [|split; discriminate]. intros _.
    rewrite searchMode_updateFilter, searchQuery_updateFilter,
      filteredTasks_updateFilter.
    split; [reflexivity|]. split; [reflexivity|]. split; [reflexivity|].
    unfold visibleOf.
    cbn [searchQuery tabTasks activeTab set_searchQuery set_searchInput set_searchMode].
    rewrite tabTasks_updateFilter, activeTab_updateFilter. reflexivity.
  - change (typeToSearch (mkKeyMsg (KeyNamed "esc") rs false) m) with (@None TaskModel).
    cbv iota.
    change (case_ "esc" ["ctrl+s"]) with false.
    change (case_ "esc" ["q"; "ctrl+c"]) with false.
    change (case_ "esc" ["r"; "ctrl+r"]) with false.
    change (case_ "esc" ["enter"]) with false.
    change (case_ "esc" ["/"]) with false.
    change (case_ "esc" ["esc"]) with true.
    cbv iota.
    destruct (String.eqb (searchQuery m) "") eqn:Eq.
    + apply String.eqb_eq in Eq. eexists _, _. split; [reflexivity|].
      split; [discriminate|]. split; [intros _ H; contradiction|].
      intros _ _. split; reflexivity.
    + apply String.eqb_neq in Eq. eexists _, _. split; [reflexivity|].
      split; [discriminate|]. split; [|intros _ H; contradiction].
      intros _ _.
      rewrite searchMode_updateFilter, searchQuery_updateFilter,
        filteredTasks_updateFilter.
      split; [reflexivity|]. split; [exact Emode|]. split; reflexivity.
Qed.

(** X15.  The enter key while browsing.  On an empty visible list it does
    nothing; with a valid selection it records the name of the selected
    task and quits, so that afterwards [TaskToRun] is that name and
    [ShouldRun] holds unless the name is empty; with a selection outside a
    non-empty list the index expression panics. *)
Theorem enter_commits_the_selected_task :
  forall (lib : Lib) (now : Z) (rs : list rune) (m : TaskModel),
    searchMode m = false ->
    let msg := mkKeyMsg (KeyNamed "enter") rs false in
    (filteredTasks m = [] -> handleKeys now msg m = Some (m, CmdNil)) /\
    (forall t, inRange m -> filteredTasks m !! Z.to_nat (selected m) = Some t ->
       exists m',
         handleKeys now msg m = Some (m', CmdQuit) /\
         m' = set_quitAfterSelect true (set_lastCommand (Name t) m) /\
         TaskToRun m' = Name t /\
         ShouldRun m' = negb (String.eqb (Name t) "")) /\
    (filteredTasks m <> [] ->
       selected m < 0 \/ len (filteredTasks m) <= selected m ->
       handleKeys now msg m = None).
Proof.
  intros lib now rs m Hmode msg. subst msg. unfold handleKeys. rewrite Hmode.
  change (KeyMsg_String (mkKeyMsg (KeyNamed "enter") rs false)) with "enter".
  change (typeToSearch (mkKeyMsg (KeyNamed "enter") rs false) m) with (@None TaskModel).
  cbv iota.
  change (case_ "enter" ["ctrl+s"]) with false.
  change (case_ "enter" ["q"; "ctrl+c"]) with false.
  change (case_ "enter" ["r"; "ctrl+r"]) with false.
  change (navigate "enter" m) with (@None TaskModel).
  change (case_ "enter" ["enter"]) with true.
  cbv iota.
  split; [|split].
  - intros Hnil. unfold markForExecution. rewrite Hnil. reflexivity.
  - intros t Hr Ht.
    destruct (inRange_markForExecution m Hr) as (t' & Ht' & ->).
    rewrite Ht in Ht'. injection Ht' as <-.
    eexists. split; [reflexivity|]. repeat split.
  - intros Hne Hout. unfold markForExecution.
    destruct (filteredTasks m) as [|v vs] eqn:Ef; [contradiction|].
    replace (len (v :: vs) =? 0) with false
      by (symmetry; apply Z.eqb_neq; unfold len; simpl; lia).
    destruct Hout as [H|H].
    + replace (selected m <? 0) with true by (symmetry; apply Z.ltb_lt; lia).
      reflexivity.
    + replace (selected m >=? len (v :: vs)) with true
        by (symmetry; rewrite Z.geb_leb; apply Z.leb_le; lia).
      rewrite orb_true_r. reflexivity.
Qed.

Lemma enter_commits_the_selected_task_witness :
  let m := sampleModel 1 0 in
  let msg := mkKeyMsg (KeyNamed "enter") [] false in
  (filteredTasks m = [] -> handleKeys 0 msg m = Some (m, CmdNil)) /\
  (forall t, inRange m -> filteredTasks m !! Z.to_nat (selected m) = Some t ->
     exists m',
       handleKeys 0 msg m = Some (m', CmdQuit) /\
       m' = set_quitAfterSelect true (set_lastCommand (Name t) m) /\
       TaskToRun m' = Name t /\
       ShouldRun m' = negb (String.eqb (Name t) "")) /\
  (filteredTasks m <> [] ->
     selected m < 0 \/ len (filteredTasks m) <= selected m ->
     handleKeys 0 msg m = None).
Proof.
  apply (enter_commits_the_selected_task plainLib 0 [] (sampleModel 1 0)).
  reflexivity.
Defined.

(** ** What every run keeps *)

Section RunInvariant.
Context {lib : Lib}.

(** [stable orig ih m]: the model still has the tasks [orig] it was
    created with and the item height [ih] it measured first; its tabs and
    groups are those [buildTabs] derives from them under the current sort
    mode; the active tab is one of the tabs; no offset is negative. *)
Definition stable (orig : list Task) (ih : Z) (m : TaskModel) : Prop :=
  originalTasks m = orig /\ itemHeight m = ih /\ 0 < ih /\
  tabs m = tabOrder m /\ tabTasks m = tabGroups m /\
  (sortMode m = "file" \/ sortMode m = "alpha") /\
  (tabs m <> [] -> activeTab m ∈ tabs m) /\
  0 <= listOffset m /\ 0 <= tabOffset m.

Lemma stable_same orig ih (m m' : TaskModel) :
  originalTasks m' = originalTasks m -> itemHeight m' = itemHeight m ->
  sortMode m' = sortMode m -> tabs m' = tabs m -> tabTasks m' = tabTasks m ->
  activeTab m' = activeTab m -> 0 <= listOffset m' -> 0 <= tabOffset m' ->
  stable orig ih m -> stable orig ih m'.
Proof.
  intros Ho Hi Hs Ht Hg Ha Hlo Hto (S1 & S2 & S3 & S4 & S5 & S6 & S7 & _ & _).
  unfold stable.
  rewrite (tabOrder_ext m' m Ho Hs), (tabGroups_ext m' m Ho Hs).
  rewrite Ho, Hi, Hs, Ht, Hg, Ha. repeat split; assumption.
Qed.

Lemma cachedHeight_cached m : itemHeight m <> 0 -> cachedHeight m = itemHeight m.
Proof.
  intros H. unfold cachedHeight. apply Z.eqb_neq in H. rewrite H. reflexivity.
Qed.

Lemma stable_cached orig ih m : stable orig ih m -> cachedHeight m = itemHeight m.
Proof. intros (_ & H & Hpos & _). apply cachedHeight_cached. lia. Qed.

Lemma stable_ensureSelectionVisible orig ih m :
  stable orig ih m -> stable orig ih (ensureSelectionVisible m).
Proof.
  intros H. pose proof (stable_cached _ _ _ H) as Hc.
  pose proof H as (_ & _ & _ & _ & _ & _ & _ & _ & Hto).
  rewrite ensureSelectionVisible_eq.
  apply (stable_same orig ih m); try reflexivity; try assumption.
  cbn [listOffset set_listOffset]. apply followOffset_bounds, rows_ge_1.
Qed.

Lemma stable_visibleListHeight orig ih m :
  stable orig ih m -> stable orig ih (snd (visibleListHeight m)).
Proof.
  intros H. pose proof (stable_cached _ _ _ H) as Hc.
  pose proof H as (_ & _ & _ & _ & _ & _ & _ & Hlo & Hto).
  rewrite visibleListHeight_eq. cbn [snd].
  apply (stable_same orig ih m); try reflexivity; assumption.
Qed.

(** Fields the invariant does not read. *)
Lemma stable_fields orig ih (m m' : TaskModel) :
  originalTasks m' = originalTasks m -> itemHeight m' = itemHeight m ->
  sortMode m' = sortMode m -> tabs m' = tabs m -> tabTasks m' = tabTasks m ->
  activeTab m' = activeTab m -> listOffset m' = listOffset m ->
  tabOffset m' = tabOffset m ->
  stable orig ih m -> stable orig ih m'.
Proof.
  intros Ho Hi Hs Ht Hg Ha Hlo Hto H.
  pose proof H as (_ & _ & _ & _ & _ & _ & _ & H1 & H2).
  apply (stable_same orig ih m); try assumption; congruence.
Qed.

Ltac same_fields :=
  match goal with
  | |- stable _ _ ?a -> _ => generalize a; let u := fresh "u" in intro u
  end;
  apply stable_fields;
  cbn [originalTasks itemHeight sortMode tabs tabTasks activeTab listOffset
       tabOffset setStatus
       set_tasks set_filteredTasks set_selected set_searchMode set_searchQuery
       set_searchInput set_width set_height set_lastCommand set_statusMessage
       set_statusTimeout set_projectRoot set_errorMessage set_quitAfterSelect
       set_tabOffset set_listOffset set_itemHeight set_tabs set_activeTab
       set_tabTasks set_sortMode];
  reflexivity.

Lemma stable_updateFilter orig ih m :
  stable orig ih m -> stable orig ih (updateFilter m).
Proof.
  intros H. rewrite updateFilter_eq. apply stable_ensureSelectionVisible.
  revert H. same_fields.
Qed.

Lemma stable_navigate orig ih s m m' :
  navigate s m = Some m' -> stable orig ih m -> stable orig ih m'.
Proof.
  unfold navigate. rewrite visibleListHeight_eq. intros H Hm.
  assert (Hc : stable orig ih (set_itemHeight (cachedHeight m) m)).
  { pose proof (stable_visibleListHeight _ _ _ Hm) as G.
    rewrite visibleListHeight_eq in G. exact G. }
  repeat match type of H with
         | (if ?b then _ else _) = _ => destruct b
         end;
    try discriminate; injection H as <-;
    repeat match goal with
           | |- context [if ?b then _ else _] => destruct b
           end;
    try exact Hm;
    apply stable_ensureSelectionVisible;
    first [revert Hm; same_fields | revert Hc; same_fields].
Qed.

Lemma stable_buildTabs orig ih m :
  originalTasks m = orig -> itemHeight m = ih -> 0 < ih ->
  (sortMode m = "file" \/ sortMode m = "alpha") ->
  0 <= listOffset m -> 0 <= tabOffset m ->
  stable orig ih (buildTabs m).
Proof.
  intros Ho Hi Hpos Hs Hlo Hto. rewrite buildTabs_eq. unfold stable.
  cbn [originalTasks itemHeight tabs tabTasks sortMode activeTab listOffset
       tabOffset set_activeTab set_tabTasks set_tabs].
  rewrite (tabOrder_ext (set_activeTab _ _) m) by reflexivity.
  rewrite (tabGroups_ext (set_activeTab _ _) m) by reflexivity.
  repeat split; try assumption. apply keptActiveTab_valid.
Qed.

Lemma stable_rebuild orig ih m m0 :
  stable orig ih m ->
  originalTasks m0 = originalTasks m -> itemHeight m0 = itemHeight m ->
  (sortMode m0 = "file" \/ sortMode m0 = "alpha") ->
  listOffset m0 = listOffset m -> tabOffset m0 = tabOffset m ->
  stable orig ih (buildTabs m0).
Proof.
  intros (S1 & S2 & S3 & _ & _ & _ & _ & S8 & S9) Ho Hi Hs Hlo Hto.
  apply stable_buildTabs; try assumption; congruence.
Qed.

Lemma stable_toggleSortMode orig ih m :
  stable orig ih m -> stable orig ih (toggleSortMode m).
Proof.
  intros H. rewrite toggleSortMode_eq. apply stable_ensureSelectionVisible.
  assert (Hu : stable orig ih (updateFilter (buildTabs (set_sortMode (toggled m) m)))).
  { apply stable_updateFilter. apply (stable_rebuild orig ih m); try reflexivity;
      [exact H|]. cbn [sortMode set_sortMode]. unfold toggled.
    destruct (String.eqb (sortMode m) "file"); auto. }
  destruct (restoredSelection_frame (rememberedName m)
              (updateFilter (buildTabs (set_sortMode (toggled m) m)))) as (s & ->).
  revert Hu. same_fields.
Qed.

Lemma index_elem (l : list string) i :
  0 <= i < len l -> index "" l i ∈ l.
Proof.
  intros Hi. unfold index.
  destruct (l !! Z.to_nat i) as [x|] eqn:E.
  - simpl. eapply list_elem_of_lookup_2, E.
  - apply lookup_ge_None in E. unfold len in Hi. lia.
Qed.

Lemma stable_switch orig ih m i :
  0 <= i < len (tabs m) -> stable orig ih m ->
  stable orig ih (ensureTabVisible i (set_activeTab (index "" (tabs m) i) m)).
Proof.
  intros Hi H. rewrite ensureTabVisible_eq. cbn [tabs tabOffset set_activeTab].
  pose proof H as (S1 & S2 & S3 & S4 & S5 & S6 & S7 & S8 & S9).
  assert (Ha : stable orig ih (set_activeTab (index "" (tabs m) i) m)).
  { unfold stable.
    rewrite (tabOrder_ext (set_activeTab _ m) m) by reflexivity.
    rewrite (tabGroups_ext (set_activeTab _ m) m) by reflexivity.
    cbn [originalTasks itemHeight tabs tabTasks sortMode activeTab listOffset
         tabOffset set_activeTab].
    repeat split; try assumption. intros _. apply index_elem, Hi. }
  destruct (len (tabs m) <=? 1); [exact Ha|].
  apply (stable_same orig ih (set_activeTab (index "" (tabs m) i) m));
    try reflexivity; try assumption.
  cbn [tabOffset set_tabOffset]. apply followTab_bounds.
  pose proof (visibleTabs_bounds (set_activeTab (index "" (tabs m) i) m)). lia.
Qed.

Lemma stable_moveToNextTab orig ih m :
  stable orig ih m -> stable orig ih (moveToNextTab m).
Proof.
  intros H. unfold moveToNextTab.
  destruct (len (tabs m) <=? 1); [exact H|].
  apply stable_updateFilter.
  destruct ((indexOf (activeTab m) (tabs m) 0 >=? 0)
            && (indexOf (activeTab m) (tabs m) 0 <? len (tabs m) - 1)) eqn:E;
    [|exact H].
  apply andb_prop in E as [E1 E2].
  rewrite Z.geb_leb in E1. apply Z.leb_le in E1. apply Z.ltb_lt in E2.
  apply stable_switch; [lia | exact H].
Qed.

Lemma stable_moveToPrevTab orig ih m :
  stable orig ih m -> stable orig ih (moveToPrevTab m).
Proof.
  intros H. unfold moveToPrevTab.
  destruct (len (tabs m) <=? 1); [exact H|].
  apply stable_updateFilter.
  destruct ((indexOf (activeTab m) (tabs m) 0 >=? 0)
            && (indexOf (activeTab m) (tabs m) 0 >? 0)) eqn:E; [|exact H].
  apply andb_prop in E as [E1 E2].
  rewrite Z.gtb_ltb in E2. apply Z.ltb_lt in E2.
  destruct (indexOf_ge (activeTab m) (tabs m) 0) as [Hn|Hge]; [lia|].
  destruct (indexOf_lookup (activeTab m) (tabs m) 0 ltac:(lia) ltac:(lia)) as [_ Hl].
  pose proof (lookup_lt_Some _ _ _ Hl) as Hlt.
  apply stable_switch; [unfold len; lia | exact H].
Qed.

Lemma stable_markForExecution orig ih m m' c :
  markForExecution m = Some (m', c) -> stable orig ih m -> stable orig ih m'.
Proof.
  unfold markForExecution. intros H.
  destruct (len (filteredTasks m) =? 0); [injection H as <- <-; auto|].
  destruct ((selected m <? 0) || (selected m >=? len (filteredTasks m)));
    [discriminate|].
  destruct (filteredTasks m !! Z.to_nat (selected m)) as [task|]; [|discriminate].
  simpl in H. injection H as <- <-. same_fields.
Qed.

Lemma stable_typeToSearch orig ih msg m m' :
  typeToSearch msg m = Some m' -> stable orig ih m -> stable orig ih m'.
Proof.
  unfold typeToSearch. intros H Hm.
  destruct (keyType msg); [|discriminate].
  destruct (Runes msg) as [|r [|]]; try discriminate.
  destruct (triggersSearch r); [|discriminate].
  injection H as <-. apply stable_updateFilter. revert Hm. same_fields.
Qed.

Lemma stable_handleKeys orig ih now msg m m' c :
  handleKeys now msg m = Some (m', c) -> stable orig ih m -> stable orig ih m'.
Proof.
  unfold handleKeys. intros H Hm.
  destruct (searchMode m).
  - destruct (navigate _ m) as [n|] eqn:En.
    + injection H as <- <-. eapply stable_navigate; eassumption.
    + match type of H with
      | context [if String.eqb ?s "esc" then ?a else ?b] =>
          assert (Hu : stable orig ih b)
            by (apply stable_updateFilter; revert Hm; same_fields);
          assert (Hx : stable orig ih (if String.eqb s "esc" then a else b))
            by (destruct (String.eqb s "esc"); [|exact Hu];
                apply stable_updateFilter; revert Hu; same_fields);
          clear Hu; revert H Hx;
          generalize (if String.eqb s "esc" then a else b)
      end.
      intros u H Hu.
      assert (Hv : stable orig ih (set_searchMode false u))
        by (revert Hu; same_fields).
      destruct (String.eqb _ "enter").
      * destruct (len _ >? 0).
        -- eapply stable_markForExecution; eassumption.
        -- injection H as <- <-. exact Hv.
      * injection H as <- <-. exact Hu.
  - destruct (typeToSearch msg m) as [n|] eqn:Et.
    + injection H as <- <-. eapply stable_typeToSearch; eassumption.
    + destruct (case_ _ ["ctrl+s"]).
      { injection H as <- <-.
        pose proof (stable_toggleSortMode _ _ _ Hm) as G. revert G. same_fields. }
      destruct (case_ _ ["q"; "ctrl+c"]).
      { injection H as <- <-. exact Hm. }
      destruct (case_ _ ["r"; "ctrl+r"]).
      { injection H as <- <-. revert Hm. same_fields. }
      destruct (navigate _ m) as [n|] eqn:En.
      { injection H as <- <-. eapply stable_navigate; eassumption. }
      destruct (case_ _ ["enter"]).
      { eapply stable_markForExecution; eassumption. }
      destruct (case_ _ ["/"]).
      { injection H as <- <-. revert Hm. same_fields. }
      destruct (case_ _ ["esc"]).
      { destruct (negb _); injection H as <- <-; [|exact Hm].
        apply stable_updateFilter. revert Hm. same_fields. }
      destruct (case_ _ ["tab"; "right"]).
      { injection H as <- <-. destruct (len (tabs m) >? 1);
          [apply stable_moveToNextTab|]; exact Hm. }
      destruct (case_ _ ["shift+tab"; "left"]).
      { injection H as <- <-. destruct (len (tabs m) >? 1);
          [apply stable_moveToPrevTab|]; exact Hm. }
      injection H as <- <-. exact Hm.
Qed.

Lemma stable_handleMouse orig ih msg m m' c :
  handleMouse msg m = Some (m', c) -> stable orig ih m -> stable orig ih m'.
Proof.
  unfold handleMouse. intros H Hm.
  destruct (mouseType msg).
  - destruct ((Y msg =? 2) && (len (tabs m) >? 1)).
    + destruct (getTabIndexAtX (X msg) m) as [r|]; [|discriminate].
      destruct ((r >=? 0) && (r <? len (tabs m))) eqn:E;
        injection H as <- <-; [|exact Hm].
      apply andb_prop in E as [E1 E2].
      rewrite Z.geb_leb in E1. apply Z.leb_le in E1. apply Z.ltb_lt in E2.
      apply stable_updateFilter.
      pose proof Hm as (S1 & S2 & S3 & S4 & S5 & S6 & S7 & S8 & S9).
      unfold stable.
      rewrite (tabOrder_ext (set_activeTab _ m) m) by reflexivity.
      rewrite (tabGroups_ext (set_activeTab _ m) m) by reflexivity.
      cbn [originalTasks itemHeight tabs tabTasks sortMode activeTab listOffset
           tabOffset set_activeTab].
      repeat split; try assumption. intros _. apply index_elem. lia.
    + destruct (Y msg >=? 4); [|injection H as <- <-; exact Hm].
      destruct (_ && _); injection H as <- <-; [|exact Hm].
      revert Hm. same_fields.
  - destruct (Y msg >=? 4); [|injection H as <- <-; exact Hm].
    destruct (_ && _); [|injection H as <- <-; exact Hm].
    eapply stable_markForExecution; eassumption.
  - injection H as <- <-. exact Hm.
Qed.

Lemma stable_Update orig ih now msg m m' c :
  Update now msg m = Some (m', c) -> stable orig ih m -> stable orig ih m'.
Proof.
  destruct msg as [w h|k|ms| |new err|]; unfold Update; intros H Hm.
  - injection H as <- <-. apply stable_ensureSelectionVisible.
    revert Hm. same_fields.
  - eapply stable_handleKeys; eassumption.
  - destruct (negb (mouseEnabled m)).
    + injection H as <- <-. exact Hm.
    + eapply stable_handleMouse; eassumption.
  - injection H as <- <-. exact Hm.
  - destruct err; injection H as <- <-.
    + revert Hm. same_fields.
    + assert (G : stable orig ih (updateFilter (buildTabs (set_tasks new m)))).
      { apply stable_updateFilter.
        apply (stable_rebuild orig ih m); try reflexivity; [exact Hm|].
        destruct Hm as (_ & _ & _ & _ & _ & Hs & _). exact Hs. }
      revert G. same_fields.
  - injection H as <- <-. exact Hm.
Qed.

Lemma stable_run orig ih events m m' :
  run events m = Some m' -> stable orig ih m -> stable orig ih m'.
Proof.
  revert m. induction events as [|[now msg] events IH]; simpl; intros m H Hm.
  - injection H as <-. exact Hm.
  - destruct (Update now msg m) as [[n c]|] eqn:E; [|discriminate].
    eapply IH; [exact H|]. eapply stable_Update; eassumption.
Qed.

Lemma cachedHeight_pos m : 0 <= itemHeight m -> 0 < cachedHeight m.
Proof.
  intros H. unfold cachedHeight.
  destruct (itemHeight m =? 0) eqn:E; [|apply Z.eqb_neq in E; lia].
  destruct (measureItemHeight m <=? 0) eqn:E'; [lia | apply Z.leb_gt in E'; lia].
Qed.

Lemma stable_first_filter (m : TaskModel) :
  itemHeight m = 0 -> (sortMode m = "file" \/ sortMode m = "alpha") ->
  0 <= tabOffset m ->
  stable (originalTasks m) (itemHeight (updateFilter (buildTabs m)))
         (updateFilter (buildTabs m)).
Proof.
  intros Hi Hs Hto.
  rewrite updateFilter_eq, ensureSelectionVisible_eq, buildTabs_eq.
  match goal with
  | |- stable _ _ ?M =>
      assert (Ho : originalTasks M = originalTasks m) by reflexivity;
      assert (Hs' : sortMode M = sortMode m) by reflexivity;
      unfold stable;
      rewrite (tabOrder_ext M m Ho Hs'), (tabGroups_ext M m Ho Hs')
  end.
  cbn [originalTasks itemHeight sortMode tabs tabTasks activeTab listOffset
       tabOffset set_filteredTasks set_selected set_listOffset set_itemHeight
       set_tabs set_activeTab set_tabTasks].
  repeat split; try assumption.
  - apply cachedHeight_pos. cbn. lia.
  - apply keptActiveTab_valid.
  - apply followOffset_bounds, rows_ge_1.
Qed.

Lemma stable_NewTaskModel ts themeName mouse projectName now :
  stable (sort.SliceStable byLine ts)
         (itemHeight (NewTaskModel ts themeName mouse projectName now))
         (NewTaskModel ts themeName mouse projectName now).
Proof.
  unfold NewTaskModel. cbv zeta.
  match goal with
  | |- stable _ _ (updateFilter (buildTabs ?m0)) =>
      apply (stable_first_filter m0); cbn; auto; lia
  end.
Qed.

Lemma stable_reached ts themeName mouse projectName now events m :
  run events (NewTaskModel ts themeName mouse projectName now) = Some m ->
  stable (sort.SliceStable byLine ts)
         (itemHeight (NewTaskModel ts themeName mouse projectName now)) m.
Proof.
  intros H. eapply stable_run; [exact H|]. apply stable_NewTaskModel.
Qed.

Lemma stable_buildTabs_id orig ih m : stable orig ih m -> buildTabs m = m.
Proof.
  intros (_ & _ & _ & Ht & Hg & _ & Ha & _ & _).
  rewrite buildTabs_eq, <- Ht, <- Hg.
  assert (Hk : keptActiveTab m = activeTab m).
  { destruct (tabOrder m) as [|t l] eqn:E.
    - unfold keptActiveTab. rewrite E. cbn.
      rewrite ?andb_false_r. reflexivity.
    - apply keptActiveTab_same. rewrite E, <- Ht. apply Ha.
      rewrite Ht. discriminate. }
  rewrite Hk. destruct m; reflexivity.
Qed.

(** X16. In every state the event loop reaches from [NewTaskModel], the
    tab list, the tab groups and the active tab are already what
    [buildTabs] computes from that state, so calling [buildTabs] again
    changes nothing; the sort mode is "file" or "alpha", and when there is
    a tab at all the active tab is one of the tabs. *)
Theorem buildTabs_changes_nothing_on_reached_states
    ts themeName mouse projectName now events m :
  run events (NewTaskModel ts themeName mouse projectName now) = Some m ->
  buildTabs m = m /\
  (sortMode m = "file" \/ sortMode m = "alpha") /\
  (tabs m <> [] -> activeTab m ∈ tabs m).
Proof.
  intros H. pose proof (stable_reached _ _ _ _ _ _ _ H) as Hs.
  split; [exact (stable_buildTabs_id _ _ _ Hs)|].
  destruct Hs as (_ & _ & _ & _ & _ & Hm & Ha & _ & _). split; assumption.
Qed.

(** X17. The height of a list item is measured once, when the model is
    built: it is positive, and no later message (a resize included)
    changes it.  The list offset and the tab offset are never negative. *)
Theorem item_height_is_measured_once
    ts themeName mouse projectName now events m :
  run events (NewTaskModel ts themeName mouse projectName now) = Some m ->
  itemHeight m = itemHeight (NewTaskModel ts themeName mouse projectName now) /\
  0 < itemHeight m /\ 0 <= listOffset m /\ 0 <= tabOffset m.
Proof.
  intros H. pose proof (stable_reached _ _ _ _ _ _ _ H) as Hs.
  destruct Hs as (_ & Hi & Hpos & _ & _ & _ & _ & Hlo & Hto).
  rewrite Hi. repeat split; assumption.
Qed.

End RunInvariant.

(** The model of five tasks after its first resize to [w] columns. *)
Definition resizedModel (w : Z) : TaskModel (lib := plainLib) :=
  ensureSelectionVisible
    (set_height 24 (set_width w (NewTaskModel fiveTasks "dark" true "demo" 0))).

Lemma buildTabs_changes_nothing_on_reached_states_witness :
  run [(0, WindowSizeMsg 80 24)]
      (NewTaskModel (lib := plainLib) fiveTasks "dark" true "demo" 0)
  = Some (resizedModel 80) /\
  buildTabs (resizedModel 80) = resizedModel 80 /\
  (sortMode (resizedModel 80) = "file" \/ sortMode (resizedModel 80) = "alpha") /\
  (tabs (resizedModel 80) <> [] ->
   activeTab (resizedModel 80) ∈ tabs (resizedModel 80)).
Proof.
  assert (H : run [(0, WindowSizeMsg 80 24)]
                (NewTaskModel (lib := plainLib) fiveTasks "dark" true "demo" 0)
              = Some (resizedModel 80))
    by (unfold resizedModel; cbn [run Update]; reflexivity).
  split; [exact H|].
  exact (buildTabs_changes_nothing_on_reached_states
           (lib := plainLib) fiveTasks "dark" true "demo" 0
           [(0, WindowSizeMsg 80 24)] (resizedModel 80) H).
Defined.

Lemma item_height_is_measured_once_witness :
  run [(0, WindowSizeMsg 20 24)]
      (NewTaskModel (lib := plainLib) fiveTasks "dark" true "demo" 0)
  = Some (resizedModel 20) /\
  itemHeight (resizedModel 20)
  = itemHeight (NewTaskModel (lib := plainLib) fiveTasks "dark" true "demo" 0) /\
  0 < itemHeight (resizedModel 20) /\
  0 <= listOffset (resizedModel 20) /\ 0 <= tabOffset (resizedModel 20).
Proof.
  assert (H : run [(0, WindowSizeMsg 20 24)]
                (NewTaskModel (lib := plainLib) fiveTasks "dark" true "demo" 0)
              = Some (resizedModel 20))
    by (unfold resizedModel; cbn [run Update]; reflexivity).
  split; [exact H|].
  exact (item_height_is_measured_once
           (lib := plainLib) fiveTasks "dark" true "demo" 0
           [(0, WindowSizeMsg 20 24)] (resizedModel 20) H).
Defined.

(** ** Locating the Taskfile *)

Section LocatorFacts.
Context (env : Env).
Context (filepath_Dir : string -> string).
Context (filepath_Join : string -> string -> string).

(** Some candidate name exists in [dir]. *)
Definition hasTaskfile (dir : string) : bool :=
  existsb (fun name => match os_Stat env (filepath_Join dir name) with
                       | None => true
                       | Some _ => false
                       end) taskfileRootCandidates.

(** The [k]-th parent of [start]. *)
Definition ancestor (k : nat) (start : string) : string :=
  Nat.iter k filepath_Dir start.

Definition isStat (c : Call) : Prop :=
  match c with
  | CStat _ => True
  | _ => False
  end.

Lemma value_anyCandidate dir cs :
  value (anyCandidate env filepath_Join dir cs)
  = existsb (fun name => match os_Stat env (filepath_Join dir name) with
                         | None => true
                         | Some _ => false
                         end) cs.
Proof.
  induction cs as [|c cs IH]; cbn [anyCandidate existsb]; [reflexivity|].
  rewrite value_bind. unfold Stat at 1. cbn [value fst].
  destruct (os_Stat env _); [exact IH | reflexivity].
Qed.

Lemma calls_anyCandidate dir cs :
  Forall isStat (calls (anyCandidate env filepath_Join dir cs)).
Proof.
  induction cs as [|c cs IH]; cbn [anyCandidate]; [constructor|].
  rewrite calls_bind. unfold Stat at 1. simpl. constructor; [exact I|].
  destruct (os_Stat env _); [exact IH | constructor].
Qed.

Lemma ancestor_S k start :
  ancestor (S k) start = ancestor k (filepath_Dir start).
Proof.
  unfold ancestor. induction k as [|k IH]; [reflexivity|].
  simpl in *. rewrite IH. reflexivity.
Qed.

Lemma value_findRootFrom_S fuel dir :
  value (findRootFrom env filepath_Dir filepath_Join (S fuel) dir)
  = if hasTaskfile dir then Some (dir, None)
    else if decide (filepath_Dir dir = dir)
         then Some ("", Some "no Taskfile found in parent directories")
         else value (findRootFrom env filepath_Dir filepath_Join fuel (filepath_Dir dir)).
Proof.
  cbn [findRootFrom]. rewrite value_bind, value_anyCandidate.
  fold (hasTaskfile dir). destruct (hasTaskfile dir); [reflexivity|].
  destruct (decide _); reflexivity.
Qed.

Lemma calls_findRootFrom fuel dir :
  Forall isStat (calls (findRootFrom env filepath_Dir filepath_Join fuel dir)).
Proof.
  revert dir. induction fuel as [|fuel IH]; intros dir; cbn [findRootFrom];
    [constructor|].
  rewrite calls_bind. apply Forall_app. split; [apply calls_anyCandidate|].
  destruct (value _); [constructor|].
  destruct (decide _); [constructor | apply IH].
Qed.

(** X18. When [FindNearestTaskfileRoot] returns a directory, that
    directory is the start directory or one of its parents, it holds a file
    with one of the candidate names, and no directory nearer to the start
    does.  When it returns the error, it has climbed to a directory that is
    its own parent and found no candidate in any directory on the way.  In
    both cases the only external operation it performs is [os.Stat]. *)
Theorem FindNearestTaskfileRoot_returns_the_nearest fuel start d err :
  value (FindNearestTaskfileRoot env filepath_Dir filepath_Join fuel start)
  = Some (d, err) ->
  (exists k : nat,
      (forall j : nat, (j < k)%nat -> hasTaskfile (ancestor j start) = false) /\
      match err with
      | None => d = ancestor k start /\ hasTaskfile d = true
      | Some e =>
          d = "" /\ e = "no Taskfile found in parent directories" /\
          hasTaskfile (ancestor k start) = false /\
          filepath_Dir (ancestor k start) = ancestor k start
      end) /\
  Forall isStat
    (calls (FindNearestTaskfileRoot env filepath_Dir filepath_Join fuel start)).
Proof.
  unfold FindNearestTaskfileRoot. intros H. split; [|apply calls_findRootFrom].
  revert start H. induction fuel as [|fuel IH]; intros start H; [discriminate|].
  rewrite value_findRootFrom_S in H.
  destruct (hasTaskfile start) eqn:Eh.
  - injection H as <- <-. exists 0%nat. split; [lia|]. split; [reflexivity|exact Eh].
  - destruct (decide (filepath_Dir start = start)) as [Ed|Ed].
    + injection H as <- <-. exists 0%nat. split; [lia|]. repeat split; assumption.
    + destruct (IH _ H) as (k & Hbefore & Hk). exists (S k). split.
      * intros [|j] Hj; [exact Eh|]. rewrite ancestor_S. apply Hbefore. lia.
      * rewrite !ancestor_S. exact Hk.
Qed.

(** X19. The search ends: if the [n]-th parent of the start directory
    holds a candidate file or is its own parent, [n + 1] rounds of the loop
    are enough for [FindNearestTaskfileRoot] to return. *)
Theorem FindNearestTaskfileRoot_returns fuel start n :
  hasTaskfile (ancestor n start) = true \/
  filepath_Dir (ancestor n start) = ancestor n start ->
  (n < fuel)%nat ->
  exists r,
    value (FindNearestTaskfileRoot env filepath_Dir filepath_Join fuel start)
    = Some r.
Proof.
  unfold FindNearestTaskfileRoot.
  revert start fuel. induction n as [|n IH]; intros start fuel Hn Hf;
    (destruct fuel as [|fuel]; [lia|]); rewrite value_findRootFrom_S.
  - unfold ancestor in Hn. cbn [Nat.iter nat_rect] in Hn.
    destruct (hasTaskfile start) eqn:Eh; [eauto|].
    destruct Hn as [Hn|Hn]; [congruence|].
    destruct (decide _) as [|Hne]; [eauto | contradiction].
  - destruct (hasTaskfile start); [eauto|].
    destruct (decide _); [eauto|].
    apply IH; [|lia]. rewrite <- ancestor_S. exact Hn.
Qed.

End LocatorFacts.

(** A start directory two levels below the directory of
    [/work/Taskfile.yml]. *)
Definition parentDir (dir : string) : string :=
  if decide (dir = "/work/src/cmd") then "/work/src"
  else if decide (dir = "/work/src") then "/work"
  else "/".

Definition treeEnv : Env := scriptedEnv None ([], None) ("", None) ([], None).

Lemma FindNearestTaskfileRoot_returns_the_nearest_witness :
  value (FindNearestTaskfileRoot treeEnv parentDir joinSlash 5 "/work/src/cmd")
  = Some ("/work", None) /\
  (exists k : nat,
      (forall j : nat, (j < k)%nat ->
         hasTaskfile treeEnv joinSlash (ancestor parentDir j "/work/src/cmd")
         = false) /\
      "/work" = ancestor parentDir k "/work/src/cmd" /\
      hasTaskfile treeEnv joinSlash "/work" = true) /\
  Forall isStat
    (calls (FindNearestTaskfileRoot treeEnv parentDir joinSlash 5 "/work/src/cmd")).
Proof.
  split; [vm_compute; reflexivity|].
  apply (FindNearestTaskfileRoot_returns_the_nearest
           treeEnv parentDir joinSlash 5 "/work/src/cmd" "/work" None).
  vm_compute. reflexivity.
Defined.

Lemma FindNearestTaskfileRoot_returns_witness :
  (hasTaskfile treeEnv joinSlash (ancestor parentDir 2 "/work/src/cmd") = true \/
   parentDir (ancestor parentDir 2 "/work/src/cmd")
   = ancestor parentDir 2 "/work/src/cmd") /\
  (2 < 3)%nat /\
  exists r,
    value (FindNearestTaskfileRoot treeEnv parentDir joinSlash 3 "/work/src/cmd")
    = Some r.
Proof.
  assert (H : hasTaskfile treeEnv joinSlash (ancestor parentDir 2 "/work/src/cmd")
              = true) by (vm_compute; reflexivity).
  split; [left; exact H|]. split; [lia|].
  apply (FindNearestTaskfileRoot_returns
           treeEnv parentDir joinSlash 3 "/work/src/cmd" 2); [left; exact H | lia].
Defined.

(** ** What discovery returns *)

Section DiscoveryResult.
Context (env : Env).

Lemma usable_spec (r : list Task * option error) :
  usable r = true -> snd r = None /\ 0 < len (fst r).
Proof.
  destruct r as [tasks [e|]]; simpl; [discriminate|].
  intros H. apply Z.ltb_lt in H. auto.
Qed.

Lemma len_enrichTaskCmds root tasks :
  len (value (enrichTaskCmds env root tasks)) = len tasks.
Proof.
  unfold len. f_equal. symmetry.
  eapply Forall2_length, enrichTaskCmds_enriched.
Qed.

Lemma DiscoverTasks_shape root :
  match value (DiscoverTasks env root) with
  | (tasks, None) => 0 < len tasks
  | (tasks, Some _) => tasks = []
  end.
Proof.
  unfold DiscoverTasks.
  generalize (if decide (root = "") then os_Getwd env else root). intros dir.
  rewrite value_bind. unfold LookPath at 1. cbn [value fst].
  destruct (exec_LookPath env "task"); [reflexivity|].
  rewrite value_bind.
  destruct (usable (value (listViaJSON env dir))) eqn:Ej.
  { rewrite value_bind. cbn [mret IO_ret value fst].
    rewrite len_enrichTaskCmds. apply (usable_spec _ Ej). }
  rewrite value_bind.
  destruct (usable (value (listViaPlain env dir))) eqn:Ep.
  { rewrite value_bind. cbn [mret IO_ret value fst].
    rewrite len_enrichTaskCmds. apply (usable_spec _ Ep). }
  rewrite value_bind.
  destruct (usable (value (parseTaskfileYAML env dir))) eqn:Ey.
  { cbn [mret IO_ret value fst]. apply (usable_spec _ Ey). }
  reflexivity.
Qed.

(** X20. [DiscoverTasks] returns either at least one task and no error,
    or an error and no task: it never reports success with an empty list
    and never returns tasks beside an error. *)
Theorem DiscoverTasks_returns_tasks_or_an_error root :
  match value (DiscoverTasks env root) with
  | (tasks, None) => 0 < len tasks
  | (tasks, Some _) => tasks = []
  end.
Proof. exact (DiscoverTasks_shape root). Qed.

Definition missing (root c : string) : Prop :=
  os_Stat env (filepath_Join env root c) <> None.

Lemma firstCandidate_missing root cs :
  Forall (missing root) cs ->
  firstCandidate env root cs = ("", map (fun c => CStat (filepath_Join env root c)) cs).
Proof.
  induction 1 as [|c cs Hc _ IH]; cbn [firstCandidate map]; [reflexivity|].
  unfold Stat at 1. unfold missing in Hc.
  destruct (os_Stat env (filepath_Join env root c)) eqn:E; [|contradiction].
  unfold mbind, IO_bind. rewrite IH. reflexivity.
Qed.

Lemma firstCandidate_found root pre c post :
  Forall (missing root) pre ->
  os_Stat env (filepath_Join env root c) = None ->
  firstCandidate env root (pre ++ c :: post)
  = (filepath_Join env root c,
     map (fun c => CStat (filepath_Join env root c)) (pre ++ [c])).
Proof.
  intros Hpre Hc. induction Hpre as [|x pre Hx _ IH]; cbn [firstCandidate map app].
  - unfold Stat at 1. unfold mbind, IO_bind. rewrite Hc. reflexivity.
  - unfold Stat at 1. unfold missing in Hx.
    destruct (os_Stat env (filepath_Join env root x)) eqn:E; [|contradiction].
    unfold mbind, IO_bind. rewrite IH. reflexivity.
Qed.

(** X21. [parseTaskfileYAML] probes the candidate names in their fixed
    order and reads the first one that exists, and only that one: its
    external operations are one [os.Stat] for each candidate up to and
    including the first that exists, each on the path [filepath.Join]
    gives for the directory and the name, followed by one [os.ReadFile]
    of that file.  (The joined path of a file that exists is not the
    empty string, which the function takes for "none found".) *)
Theorem parseTaskfileYAML_reads_the_first_existing_candidate root pre c post :
  taskfileRootCandidates = pre ++ c :: post ->
  Forall (missing root) pre ->
  os_Stat env (filepath_Join env root c) = None ->
  filepath_Join env root c <> "" ->
  calls (parseTaskfileYAML env root)
  = map (fun c => CStat (filepath_Join env root c)) (pre ++ [c])
    ++ [CReadFile (filepath_Join env root c)].
Proof.
  intros Hcs Hpre Hc Hpath. unfold parseTaskfileYAML.
  rewrite Hcs, (firstCandidate_found root pre c post Hpre Hc).
  rewrite calls_bind. cbn [calls value fst snd]. f_equal.
  destruct (decide (filepath_Join env root c = "")) as [E|_];
    [contradiction|].
  rewrite calls_bind. unfold ReadFile. cbn [calls value fst snd].
  destruct (os_ReadFile env (filepath_Join env root c)) as [data [e|]];
    [reflexivity|].
  destruct (yaml_Unmarshal env data) as [node [e|]]; [reflexivity|].
  destruct (mapIndex node "tasks") as [[]|]; reflexivity.
Qed.

(** X22. When no candidate exists in the directory, [parseTaskfileYAML]
    returns no task and the error "no Taskfile found" after probing every
    candidate name once, without reading any file. *)
Theorem parseTaskfileYAML_without_a_file root :
  Forall (missing root) taskfileRootCandidates ->
  parseTaskfileYAML env root
  = (([], Some "no Taskfile found"),
     map (fun c => CStat (filepath_Join env root c)) taskfileRootCandidates).
Proof.
  intros H. unfold parseTaskfileYAML.
  rewrite (firstCandidate_missing root _ H).
  unfold mbind, IO_bind. destruct (decide ("" = "")) as [_|E]; [|contradiction].
  cbn [mret IO_ret]. rewrite app_nil_r. reflexivity.
Qed.

End DiscoveryResult.

(** An environment in which [path] is the only file. *)
Definition onlyFile (path : string) : Env :=
  {| strings_TrimSpace := strings.asciiTrimSpace;
     filepath_Join := joinSlash;
     os_Getwd := "/work";
     exec_LookPath := fun _ => None;
     exec_Run := fun _ _ _ => ("", None);
     json_Unmarshal := fun _ => ([], None);
     os_Stat := fun p =>
       if decide (p = path) then None else Some "no such file or directory";
     os_ReadFile := fun _ => ("tasks:", None);
     yaml_Unmarshal := fun _ => ([], None) |}.

Lemma parseTaskfileYAML_reads_the_first_existing_candidate_witness :
  taskfileRootCandidates
  = ["Taskfile.yml"; "Taskfile.yaml"] ++ "Taskfile.dist.yml"
    :: ["Taskfile.dist.yaml"; "taskfile.yml"; "taskfile.yaml";
        "taskfile.dist.yml"; "taskfile.dist.yaml"] /\
  Forall (missing (onlyFile "/work/Taskfile.dist.yml") "/work")
         ["Taskfile.yml"; "Taskfile.yaml"] /\
  os_Stat (onlyFile "/work/Taskfile.dist.yml")
          (joinSlash "/work" "Taskfile.dist.yml") = None /\
  joinSlash "/work" "Taskfile.dist.yml" <> "" /\
  calls (parseTaskfileYAML (onlyFile "/work/Taskfile.dist.yml") "/work")
  = [CStat "/work/Taskfile.yml"; CStat "/work/Taskfile.yaml";
     CStat "/work/Taskfile.dist.yml"; CReadFile "/work/Taskfile.dist.yml"].
Proof.
  assert (Hpre : Forall (missing (onlyFile "/work/Taskfile.dist.yml") "/work")
                        ["Taskfile.yml"; "Taskfile.yaml"])
    by (repeat constructor; vm_compute; discriminate).
  assert (Hpath : joinSlash "/work" "Taskfile.dist.yml" <> "")
    by (vm_compute; discriminate).
  split; [reflexivity|]. split; [exact Hpre|]. split; [reflexivity|].
  split; [exact Hpath|].
  exact (parseTaskfileYAML_reads_the_first_existing_candidate
           (onlyFile "/work/Taskfile.dist.yml") "/work"
           ["Taskfile.yml"; "Taskfile.yaml"] "Taskfile.dist.yml"
           ["Taskfile.dist.yaml"; "taskfile.yml"; "taskfile.yaml";
            "taskfile.dist.yml"; "taskfile.dist.yaml"]
           eq_refl Hpre eq_refl Hpath).
Defined.

Lemma parseTaskfileYAML_without_a_file_witness :
  Forall (missing (onlyFile "/elsewhere/Taskfile.yml") "/work")
         taskfileRootCandidates /\
  parseTaskfileYAML (onlyFile "/elsewhere/Taskfile.yml") "/work"
  = (([], Some "no Taskfile found"),
     map (fun c => CStat (joinSlash "/work" c)) taskfileRootCandidates).
Proof.
  assert (H : Forall (missing (onlyFile "/elsewhere/Taskfile.yml") "/work")
                     taskfileRootCandidates)
    by (repeat constructor; vm_compute; discriminate).
  split; [exact H|].
  exact (parseTaskfileYAML_without_a_file
           (onlyFile "/elsewhere/Taskfile.yml") "/work" H).
Defined.

(** ** Commands of a Taskfile entry *)

Lemma extractCmds_ASlice_cons (env : Env) (v : any) (l : list any) :
  extractCmds env (ASlice (v :: l)) = extractCmds env v ++ extractCmds env (ASlice l).
Proof. reflexivity. Qed.

(** X23. A YAML sequence decoded as a slice of values yields its strings
    in order, without those that [strings.TrimSpace] makes empty, and
    nested sequences are flattened into the same list; a [[]string] is
    copied as it is, blank entries included. *)
Theorem extractCmds_drops_blank_strings_of_a_sequence :
  forall (env : Env) (l : list string) (l1 l2 : list any),
    extractCmds env (ASlice (map AString l))
    = filter (fun s => strings_TrimSpace env s <> "") l /\
    extractCmds env (ASlice (l1 ++ l2))
    = extractCmds env (ASlice l1) ++ extractCmds env (ASlice l2) /\
    extractCmds env (ASlice (ASlice l1 :: l2))
    = extractCmds env (ASlice (l1 ++ l2)) /\
    extractCmds env (AStrings l) = l.
Proof.
  intros env l l1 l2.
  assert (Happ : forall a b, extractCmds env (ASlice (a ++ b))
                             = extractCmds env (ASlice a) ++ extractCmds env (ASlice b)).
  { intros a b. induction a as [|v a IH]; [reflexivity|].
    rewrite <- app_comm_cons, !extractCmds_ASlice_cons, IH.
    apply app_assoc. }
  split; [|split; [apply Happ | split; [|reflexivity]]].
  - induction l as [|s l IH]; [reflexivity|].
    cbn [map]. rewrite extractCmds_ASlice_cons, IH, filter_cons.
    cbn [extractCmds].
    destruct (decide (strings_TrimSpace env s = "")) as [E|E];
      destruct (decide (strings_TrimSpace env s <> "")) as [E'|E'];
      try reflexivity; contradiction.
  - rewrite extractCmds_ASlice_cons, Happ. reflexivity.
Qed.

(** ** What enrichment fills in *)

(** [idx] knows the position of every task. *)
Definition fullIndex (idx : gmap string nat) (tasks : list Task) : Prop :=
  forall j u, tasks !! j = Some u -> idx !! Name u = Some j.

Lemma enrichIndex_other rest i0 idx name :
  name ∉ map Name rest -> enrichIndex rest i0 idx !! name = idx !! name.
Proof.
  revert i0 idx. induction rest as [|t rest IH]; intros i0 idx Hn; [reflexivity|].
  cbn [enrichIndex]. cbn [map] in Hn. apply not_elem_of_cons in Hn as [Hne Hn].
  rewrite IH by exact Hn. apply lookup_insert_ne. congruence.
Qed.

Lemma enrichIndex_lookup rest i0 idx k u :
  rest !! k = Some u ->
  Name u ∉ map Name (drop (S k) rest) ->
  enrichIndex rest i0 idx !! Name u = Some (i0 + k)%nat.
Proof.
  revert i0 idx k. induction rest as [|t rest IH]; intros i0 idx k Hk Hn;
    [discriminate|].
  cbn [enrichIndex]. destruct k as [|k].
  - injection Hk as ->. cbn in Hn. rewrite drop_0 in Hn.
    rewrite enrichIndex_other by exact Hn.
    rewrite lookup_insert_eq. f_equal. lia.
  - cbn in Hk, Hn. rewrite (IH (S i0) _ k Hk Hn). f_equal. lia.
Qed.

Lemma map_fmap {A B} (f : A -> B) (l : list A) : map f l = f <$> l.
Proof. reflexivity. Qed.

Lemma enrichIndex_full tasks :
  NoDup (map Name tasks) -> fullIndex (enrichIndex tasks 0 ∅) tasks.
Proof.
  intros Hnd j u Hj.
  rewrite (enrichIndex_lookup tasks 0 ∅ j u Hj); [reflexivity|].
  intros Hin. rewrite map_fmap, fmap_drop in Hin. rewrite map_fmap in Hnd.
  apply list_elem_of_lookup in Hin as [k Hk]. rewrite lookup_drop in Hk.
  assert (Hj' : (Name <$> tasks) !! j = Some (Name u))
    by (rewrite list_lookup_fmap, Hj; reflexivity).
  pose proof (NoDup_lookup _ _ _ _ Hnd Hj' Hk). lia.
Qed.

(** What one entry [p] of the parsed file does to the task [t]. *)
Definition stepTask (p t : Task) : Task :=
  if String.eqb (Name p) (Name t) then
    let t := if (len (Cmds t) =? 0) && (0 <? len (Cmds p))
             then with_Cmds t (Cmds p) else t in
    if String.eqb (Desc t) "" && negb (String.eqb (Desc p) "")
    then with_Desc t (Desc p) else t
  else t.

Lemma Name_stepTask p t : Name (stepTask p t) = Name t.
Proof.
  unfold stepTask. destruct (String.eqb _ _); [|reflexivity].
  destruct (_ && _); destruct (_ && _); reflexivity.
Qed.

Lemma enrichOne_at idx cur p i t :
  indexes idx cur -> fullIndex idx cur -> cur !! i = Some t ->
  enrichOne idx cur p !! i = Some (stepTask p t).
Proof.
  intros Hidx Hfull Hi. unfold enrichOne, stepTask.
  pose proof (Hfull _ _ Hi) as Ht.
  destruct (idx !! Name p) as [j|] eqn:Ej.
  - destruct (Hidx _ _ Ej) as (u & Hu & Hname). rewrite Hu.
    destruct (decide (j = i)) as [->|Hne].
    + assert (u = t) by congruence. subst u.
      rewrite Hname, String.eqb_refl.
      apply list_lookup_insert_eq. eapply lookup_lt_Some, Hi.
    + rewrite list_lookup_insert_ne by exact Hne.
      destruct (String.eqb (Name p) (Name t)) eqn:E; [|exact Hi].
      apply String.eqb_eq in E. congruence.
  - destruct (String.eqb (Name p) (Name t)) eqn:E; [|exact Hi].
    apply String.eqb_eq in E. congruence.
Qed.

Lemma length_enrichOne idx cur p : length (enrichOne idx cur p) = length cur.
Proof.
  unfold enrichOne. destruct (idx !! Name p); [|reflexivity].
  destruct (cur !! _); [|reflexivity]. apply length_insert.
Qed.

Lemma enrichOne_keeps_index idx cur p :
  indexes idx cur -> fullIndex idx cur ->
  indexes idx (enrichOne idx cur p) /\ fullIndex idx (enrichOne idx cur p).
Proof.
  intros Hidx Hfull. split.
  - intros name j Hj. destruct (Hidx _ _ Hj) as (u & Hu & Hn).
    exists (stepTask p u). split; [apply enrichOne_at; assumption|].
    rewrite Name_stepTask. exact Hn.
  - intros j u' Hj.
    destruct (cur !! j) as [u|] eqn:Hu.
    + rewrite (enrichOne_at idx cur p j u Hidx Hfull Hu) in Hj.
      injection Hj as <-. rewrite Name_stepTask. apply Hfull, Hu.
    + apply lookup_ge_None in Hu. apply lookup_lt_Some in Hj.
      rewrite length_enrichOne in Hj. lia.
Qed.

(** The first entry of the parsed file with the name [name] that has
    commands, respectively a description. *)
Definition cmdsSource (name : string) (p : Task) : bool :=
  String.eqb (Name p) name && (0 <? len (Cmds p)).
Definition descSource (name : string) (p : Task) : bool :=
  String.eqb (Name p) name && negb (String.eqb (Desc p) "").

(** The commands and the description of [t] after enrichment from
    [parsed]: its own unless empty, else those of the first source. *)
Definition filledCmds (parsed : list Task) (t : Task) : list string :=
  if len (Cmds t) =? 0
  then from_option Cmds [] (List.find (cmdsSource (Name t)) parsed)
  else Cmds t.
Definition filledDesc (parsed : list Task) (t : Task) : string :=
  if String.eqb (Desc t) ""
  then from_option Desc "" (List.find (descSource (Name t)) parsed)
  else Desc t.

Lemma len_zero {A} (l : list A) : (len l =? 0) = true -> l = [].
Proof. destruct l; [reflexivity|]. unfold len. cbn. discriminate. Qed.

Lemma filled_step p ps t :
  filledCmds ps (stepTask p t) = filledCmds (p :: ps) t /\
  filledDesc ps (stepTask p t) = filledDesc (p :: ps) t.
Proof.
  unfold filledCmds, filledDesc. cbn [List.find]. rewrite Name_stepTask.
  unfold stepTask, cmdsSource at 2, descSource at 2.
  destruct (String.eqb (Name p) (Name t)); cbn [andb]; [|split; reflexivity].
  destruct t as [n d c l]. cbn [Name Desc Cmds Line with_Cmds with_Desc].
  destruct (len c =? 0) eqn:Ec; cbn [andb];
    destruct (0 <? len (Cmds p)) eqn:Ep;
    cbn [Name Desc Cmds Line with_Cmds with_Desc];
    destruct (String.eqb d "") eqn:Ed; cbn [andb negb];
    destruct (String.eqb (Desc p) "") eqn:Edp;
    cbn [andb negb Name Desc Cmds Line with_Cmds with_Desc from_option];
    rewrite ?Ec, ?Ed, ?Edp; cbn [from_option];
    try (split; reflexivity).
  all: assert (Hp : (len (Cmds p) =? 0) = false)
         by (apply Z.eqb_neq; apply Z.ltb_lt in Ep; lia).
  all: rewrite ?Hp; split; reflexivity.
Qed.

Lemma enrich_fold_fills idx ps cur i t :
  indexes idx cur -> fullIndex idx cur -> cur !! i = Some t ->
  exists t',
    fold_left (enrichOne idx) ps cur !! i = Some t' /\
    Name t' = Name t /\
    Cmds t' = filledCmds ps t /\ Desc t' = filledDesc ps t.
Proof.
  revert cur t. induction ps as [|p ps IH]; intros cur t Hidx Hfull Hi.
  - exists t. split; [exact Hi|]. split; [reflexivity|].
    unfold filledCmds, filledDesc. cbn [List.find from_option]. split.
    + destruct (len (Cmds t) =? 0) eqn:E; [apply len_zero, E | reflexivity].
    + destruct (String.eqb (Desc t) "") eqn:E; [apply String.eqb_eq, E | reflexivity].
  - cbn [fold_left].
    destruct (enrichOne_keeps_index idx cur p Hidx Hfull) as [Hidx' Hfull'].
    destruct (IH _ _ Hidx' Hfull' (enrichOne_at idx cur p i t Hidx Hfull Hi))
      as (t' & Ht' & Hn & Hc & Hd).
    destruct (filled_step p ps t) as [Fc Fd].
    exists t'. rewrite Name_stepTask in Hn. rewrite Fc in Hc. rewrite Fd in Hd.
    auto.
Qed.

(** X24. When the task names are distinct and the Taskfile parses,
    enrichment completes every listed task: a task keeps its commands and
    its description where it has them, gets an empty command list from the
    first parsed entry of its name that has commands, and an empty
    description from the first parsed entry of its name that has one; it
    stays empty only when there is no such entry. *)
Theorem enrichTaskCmds_fills_from_the_first_source :
  forall (env : Env) (root : string) (tasks : list Task) (i : nat) (t : Task),
    NoDup (map Name tasks) ->
    snd (value (parseTaskfileYAML env root)) = None ->
    tasks !! i = Some t ->
    let parsed := fst (value (parseTaskfileYAML env root)) in
    exists t',
      value (enrichTaskCmds env root tasks) !! i = Some t' /\
      Name t' = Name t /\
      Cmds t' = filledCmds parsed t /\ Desc t' = filledDesc parsed t.
Proof.
  intros env root tasks i t Hnd Hok Hi parsed.
  rewrite value_enrichTaskCmds, Hok. unfold enrichWith.
  apply enrich_fold_fills; [| apply enrichIndex_full, Hnd | exact Hi].
  apply (enrichIndex_indexes [] tasks ∅). intros name j Hj.
  rewrite lookup_empty in Hj. discriminate.
Qed.

(** A listing of two tasks without commands, and a Taskfile that has
    commands for both and a description for each. *)
Definition listedTasks : list Task :=
  [mkTask "build" "" [] 1; mkTask "test" "Run tests" [] 2].

Definition enrichEnv : Env :=
  scriptedEnv None ([], None) ("", None)
    ([("tasks",
       AMap [("test", AMap [("desc", AString "x");
                            ("cmds", ASlice [AString "go test"])]);
             ("build", AMap [("desc", AString "Build");
                             ("cmd", AString "go build")])])],
     None).

Lemma enrichTaskCmds_fills_from_the_first_source_witness :
  NoDup (map Name listedTasks) /\
  snd (value (parseTaskfileYAML enrichEnv "/work")) = None /\
  listedTasks !! 0%nat = Some (mkTask "build" "" [] 1) /\
  filledCmds (fst (value (parseTaskfileYAML enrichEnv "/work")))
             (mkTask "build" "" [] 1) = ["go build"] /\
  filledDesc (fst (value (parseTaskfileYAML enrichEnv "/work")))
             (mkTask "build" "" [] 1) = "Build" /\
  exists t',
    value (enrichTaskCmds enrichEnv "/work" listedTasks) !! 0%nat = Some t' /\
    Name t' = "build" /\
    Cmds t' = filledCmds (fst (value (parseTaskfileYAML enrichEnv "/work")))
                         (mkTask "build" "" [] 1) /\
    Desc t' = filledDesc (fst (value (parseTaskfileYAML enrichEnv "/work")))
                         (mkTask "build" "" [] 1).
Proof.
  assert (Hnd : NoDup (map Name listedTasks))
    by (apply (bool_decide_unpack _); vm_compute; exact I).
  assert (Hok : snd (value (parseTaskfileYAML enrichEnv "/work")) = None)
    by (vm_compute; reflexivity).
  split; [exact Hnd|]. split; [exact Hok|]. split; [reflexivity|].
  split; [vm_compute; reflexivity|]. split; [vm_compute; reflexivity|].
  exact (enrichTaskCmds_fills_from_the_first_source
           enrichEnv "/work" listedTasks 0%nat (mkTask "build" "" [] 1)
           Hnd Hok eq_refl).
Defined.

(** ** The plain listing *)

Section Colons.
Import strings.

Lemma Index_ge s c : Index s c = -1 \/ 0 <= Index s c.
Proof.
  induction s as [|a s IH]; cbn [Index]; [auto|].
  destruct (Ascii.eqb a c); [right; lia|].
  destruct (Index s c =? -1) eqn:E; [auto|]. apply Z.eqb_neq in E. right. lia.
Qed.

Lemma Index_cons_absent a s c :
  Index (String a s) c = -1 <-> Ascii.eqb a c = false /\ Index s c = -1.
Proof.
  cbn [Index]. destruct (Ascii.eqb a c); [split; [lia|intros [? _]; discriminate]|].
  destruct (Index s c =? -1) eqn:E.
  - apply Z.eqb_eq in E. tauto.
  - apply Z.eqb_neq in E. destruct (Index_ge s c); split; try lia; tauto.
Qed.

Lemma Index_slice_to s c :
  0 <= Index s c -> Index (slice_to s (Index s c)) c = -1.
Proof.
  unfold slice_to. induction s as [|a s IH]; cbn [Index]; [lia|].
  destruct (Ascii.eqb a c) eqn:Ea; [reflexivity|].
  destruct (Index s c =? -1) eqn:E; [lia|]. apply Z.eqb_neq in E. intros _.
  destruct (Index_ge s c) as [|Hge]; [contradiction|].
  replace (Z.to_nat (Index s c + 1)) with (S (Z.to_nat (Index s c))) by lia.
  cbn [substring]. apply Index_cons_absent. split; [exact Ea | apply IH, Hge].
Qed.

Lemma Index_app_absent a b c :
  Index (a +:+ b) c = -1 <-> Index a c = -1 /\ Index b c = -1.
Proof.
  induction a as [|x a IH]; cbn [String.append].
  - cbn [Index]. tauto.
  - change (String x a +:+ b) with (String x (a +:+ b)).
    rewrite !Index_cons_absent. split.
    + intros [H1 H2]. apply IH in H2. tauto.
    + intros [[H1 H2] H3]. split; [exact H1|]. apply IH. tauto.
Qed.

(** A byte that is not in [s] is not in a part of [s]. *)
Lemma Index_part pre t post c :
  Index (pre +:+ t +:+ post) c = -1 -> Index t c = -1.
Proof.
  intros H. apply Index_app_absent in H as [_ H].
  apply Index_app_absent in H as [H _]. exact H.
Qed.

(** The two facts about [strings.TrimSpace] on which the plain listing
    relies, for the ASCII function of the examples. *)
Lemma trimLeft_part s : exists pre, s = pre +:+ trimLeft s.
Proof.
  induction s as [|c s [pre IH]]; [exists ""; reflexivity|]. cbn [trimLeft].
  destruct (isSpace c).
  - exists (String c pre). change (String c s = String c (pre +:+ trimLeft s)).
    f_equal. exact IH.
  - exists "". reflexivity.
Qed.

Lemma trimRight_part s : exists post, s = trimRight s +:+ post.
Proof.
  induction s as [|c s [post IH]]; [exists ""; reflexivity|]. cbn [trimRight].
  destruct (trimRight s) as [|d r] eqn:E.
  - destruct (isSpace c).
    + exists (String c s). reflexivity.
    + exists post. change (String c s = String c ("" +:+ post)).
      f_equal. exact IH.
  - exists post. change (String c s = String c (String d r +:+ post)).
    f_equal. exact IH.
Qed.

Lemma asciiTrimSpace_part s :
  exists pre post, s = pre +:+ asciiTrimSpace s +:+ post.
Proof.
  unfold asciiTrimSpace. destruct (trimLeft_part s) as [pre Hl].
  destruct (trimRight_part (trimLeft s)) as [post Hr].
  exists pre, post. rewrite <- Hr. exact Hl.
Qed.

Definition noLeadingSpace (s : string) : Prop :=
  match s with
  | String c _ => isSpace c = false
  | EmptyString => True
  end.

Lemma trimLeft_noLeadingSpace s : noLeadingSpace (trimLeft s).
Proof.
  induction s as [|c s IH]; cbn [trimLeft]; [exact I|].
  destruct (isSpace c) eqn:E; [exact IH | exact E].
Qed.

Lemma trimLeft_id s : noLeadingSpace s -> trimLeft s = s.
Proof. destruct s as [|c s]; cbn; [reflexivity|]. intros ->. reflexivity. Qed.

Lemma trimRight_noLeadingSpace s : noLeadingSpace s -> noLeadingSpace (trimRight s).
Proof.
  destruct s as [|c s]; cbn [trimRight noLeadingSpace]; [auto|].
  intros E. destruct (trimRight s); [rewrite E|]; exact E.
Qed.

Lemma trimRight_idem s : trimRight (trimRight s) = trimRight s.
Proof.
  induction s as [|c s IH]; [reflexivity|]. cbn [trimRight].
  destruct (trimRight s) as [|d r] eqn:E.
  - destruct (isSpace c) eqn:Ec; [reflexivity|]. cbn [trimRight]. rewrite Ec.
    reflexivity.
  - cbn [trimRight]. cbn [trimRight] in IH. rewrite IH. reflexivity.
Qed.

Lemma asciiTrimSpace_idem s :
  asciiTrimSpace (asciiTrimSpace s) = asciiTrimSpace s.
Proof.
  unfold asciiTrimSpace.
  rewrite (trimLeft_id (trimRight (trimLeft s)))
    by apply trimRight_noLeadingSpace, trimLeft_noLeadingSpace.
  apply trimRight_idem.
Qed.

End Colons.

(** What the plain listing needs of [strings.TrimSpace]: its result is a
    part of its argument (Go returns a subslice) and trimming it again
    changes nothing. *)
Definition trims (trim : string -> string) : Prop :=
  (forall s, exists pre post, s = pre +:+ trim s +:+ post) /\
  (forall s, trim (trim s) = trim s).

Lemma trims_empty trim : trims trim -> trim "" = "".
Proof.
  intros [Hpart _]. destruct (Hpart "") as (pre & post & H).
  destruct pre; [|discriminate H]. cbn in H.
  destruct (trim ""); [reflexivity | discriminate H].
Qed.

Lemma plainLine_fields env l t :
  trims (strings_TrimSpace env) ->
  plainLine env l = Some t ->
  Name t <> "" /\
  strings_TrimSpace env (Name t) = Name t /\
  strings.Index (Name t) ":" = -1 /\
  strings_TrimSpace env (Desc t) = Desc t /\
  Cmds t = [] /\ Line t = 0.
Proof.
  intros Htrim. pose proof (trims_empty _ Htrim) as Hempty.
  destruct Htrim as [Hpart Hidem]. unfold plainLine.
  destruct (strings.HasPrefix _ "*"); [|discriminate].
  set (s := strings_TrimSpace env
              (strings.TrimPrefix (strings_TrimSpace env l) "*")).
  destruct (decide _) as [|Hne]; [discriminate|]. intros [= <-].
  cbn [Name Desc Cmds Line]. split; [exact Hne|].
  destruct (strings.Index s ":" =? -1) eqn:E.
  - apply Z.eqb_eq in E.
    split; [apply Hidem|]. split; [exact E|]. split; [exact Hempty|].
    split; reflexivity.
  - apply Z.eqb_neq in E. destruct (Index_ge s ":") as [|Hge]; [contradiction|].
    split; [apply Hidem|]. split; [|split; [apply Hidem | split; reflexivity]].
    destruct (Hpart (strings.slice_to s (strings.Index s ":")))
      as (pre & post & Hs).
    apply (Index_part pre _ post). rewrite <- Hs. apply Index_slice_to, Hge.
Qed.

(** X25. Every task of the plain listing has a name that is not empty,
    that [strings.TrimSpace] leaves as it is (no white space at either
    end) and that holds no colon (a line is split at its first colon, so a
    namespaced name such as [docker:build] is cut to [docker]); its
    description is trimmed as well, it has no commands and its line is 0.
    This relies on two facts about [strings.TrimSpace]: it returns a part
    of its argument, and trimming twice is trimming once. *)
Theorem listViaPlain_names_are_trimmed_and_colon_free :
  forall (env : Env) (root : string) (t : Task),
    trims (strings_TrimSpace env) ->
    t ∈ fst (value (listViaPlain env root)) ->
    Name t <> "" /\
    strings_TrimSpace env (Name t) = Name t /\
    strings.Index (Name t) ":" = -1 /\
    strings_TrimSpace env (Desc t) = Desc t /\
    Cmds t = [] /\ Line t = 0.
Proof.
  intros env root t Htrim. unfold listViaPlain. rewrite value_bind.
  unfold Run at 1. cbn [value fst].
  destruct (exec_Run env root "task" ["--list"]) as [out [e|]]; cbn [mret IO_ret fst].
  - intros H. apply elem_of_nil in H. contradiction.
  - unfold plainTasks. intros H. apply list_elem_of_omap in H as (l & _ & Hl).
    eapply plainLine_fields; eassumption.
Qed.

(** The plain listing of one namespaced task. *)
Definition plainEnv : Env :=
  scriptedEnv None ([], None)
    ("task: Available tasks:"
     +:+ String "010"%char "  * docker:build: Build the image  ", None)
    ([], None).

Lemma listViaPlain_names_are_trimmed_and_colon_free_witness :
  trims (strings_TrimSpace plainEnv) /\
  mkTask "docker" "build: Build the image" [] 0
  ∈ fst (value (listViaPlain plainEnv "/work")) /\
  "docker" <> "" /\
  strings_TrimSpace plainEnv "docker" = "docker" /\
  strings.Index "docker" ":" = -1 /\
  strings_TrimSpace plainEnv "build: Build the image" = "build: Build the image" /\
  @nil string = [] /\ 0 = 0.
Proof.
  assert (Htrim : trims (strings_TrimSpace plainEnv))
    by (split; [exact asciiTrimSpace_part | exact asciiTrimSpace_idem]).
  assert (H : mkTask "docker" "build: Build the image" [] 0
              ∈ fst (value (listViaPlain plainEnv "/work")))
    by (vm_compute; apply list_elem_of_here).
  split; [exact Htrim|]. split; [exact H|].
  exact (listViaPlain_names_are_trimmed_and_colon_free _ _ _ Htrim H).
Defined.

(** ** The model the program starts with *)

Section StartModel.
Context {lib : Lib} (env : Env).
Context (filepath_Dir filepath_Base : string -> string).
Context (filepath_Join : string -> string -> string).

Lemma NewTaskModel_untouched ts themeName mouse projectName now :
  errorMessage (NewTaskModel ts themeName mouse projectName now) = "" /\
  mouseEnabled (NewTaskModel ts themeName mouse projectName now) = mouse.
Proof.
  unfold NewTaskModel. cbv zeta.
  rewrite updateFilter_eq, ensureSelectionVisible_eq, buildTabs_eq.
  split; reflexivity.
Qed.

Lemma SliceStable_nil_inv {A} (less : A -> A -> bool) (l : list A) :
  sort.SliceStable less l = [] -> l = [].
Proof.
  intros H. pose proof (SliceStable_Permutation less l) as P. rewrite H in P.
  apply Permutation_nil. exact P.
Qed.

(** X26. The model the program starts with shows an error message exactly
    when it holds no task, and the message "No tasks discovered in
    Taskfile." is never shown, because discovery never succeeds with an
    empty list.  A model with tasks holds the tasks discovery returned for
    the directory the locator found, in line order, and that directory as
    its project root.  The mouse is enabled unless [--no-mouse] is given. *)
Theorem startModel_shows_an_error_exactly_without_tasks
    fuel projectDir theme noMouse now m :
  main.startModel env filepath_Dir filepath_Base filepath_Join
                  fuel projectDir theme noMouse now = Some m ->
  (errorMessage m = "" <-> tasks m <> []) /\
  errorMessage m <> "No tasks discovered in Taskfile." /\
  mouseEnabled m = negb noMouse /\
  (tasks m <> [] ->
   exists ts,
     value (FindNearestTaskfileRoot env filepath_Dir filepath_Join fuel
              (if String.eqb projectDir "" then os_Getwd env else projectDir))
     = Some (projectRoot m, None) /\
     value (DiscoverTasks env (projectRoot m)) = (ts, None) /\
     tasks m = sort.SliceStable byLine ts).
Proof.
  unfold main.startModel.
  generalize (if String.eqb projectDir "" then os_Getwd env else projectDir).
  intros startDir.
  destruct (value (FindNearestTaskfileRoot env filepath_Dir filepath_Join fuel startDir))
    as [[root [e|]]|]; cbn [mbind option_bind]; [| |discriminate].
  - pose proof (tasks_NewTaskModel [] theme (negb noMouse)
                  (filepath_Base startDir) now) as Ht.
    destruct (NewTaskModel_untouched [] theme (negb noMouse)
                (filepath_Base startDir) now) as [He Hm].
    revert Ht He Hm.
    generalize (NewTaskModel [] theme (negb noMouse) (filepath_Base startDir) now).
    intros M Ht He Hm [= <-]. unfold Error.
    cbn [errorMessage tasks mouseEnabled set_errorMessage].
    rewrite Ht, Hm. cbn [sort.SliceStable].
    repeat split; try discriminate; try congruence.
  - pose proof (DiscoverTasks_shape env root) as Hshape.
    destruct (value (DiscoverTasks env root)) as [ts [e|]] eqn:Ed;
      cbv beta iota in Hshape.
    + pose proof (tasks_NewTaskModel [] theme (negb noMouse)
                    (filepath_Base root) now) as Ht.
      destruct (NewTaskModel_untouched [] theme (negb noMouse)
                  (filepath_Base root) now) as [He Hm].
      revert Ht He Hm.
      generalize (NewTaskModel [] theme (negb noMouse) (filepath_Base root) now).
      intros M Ht He Hm [= <-]. unfold Error, SetProjectRoot.
      cbn [errorMessage tasks mouseEnabled set_errorMessage set_projectRoot].
      rewrite Ht, Hm. cbn [sort.SliceStable].
      repeat split; try discriminate; try congruence.
    + destruct (len ts =? 0) eqn:E; [apply Z.eqb_eq in E; lia|].
      pose proof (tasks_NewTaskModel ts theme (negb noMouse)
                    (filepath_Base root) now) as Ht.
      destruct (NewTaskModel_untouched ts theme (negb noMouse)
                  (filepath_Base root) now) as [He Hm].
      revert Ht He Hm.
      generalize (NewTaskModel ts theme (negb noMouse) (filepath_Base root) now).
      intros M Ht He Hm [= <-]. unfold SetProjectRoot.
      cbn [errorMessage tasks mouseEnabled projectRoot set_projectRoot].
      rewrite Ht, Hm, He.
      assert (Hne : sort.SliceStable byLine ts <> []).
      { intros H. apply SliceStable_nil_inv in H. subst ts. discriminate E. }
      repeat split; try discriminate; try congruence.
      intros _. exists ts. split; [reflexivity|]. split; [exact Ed | reflexivity].
Qed.

End StartModel.

(** The program started two directories below [/work], where the
    structured listing names one task. *)
Definition listingEnv : Env :=
  scriptedEnv None ([mkJsonTask "build" "Build" 3], None) ("", None) ([], None).

Definition startedModel : TaskModel (lib := plainLib) :=
  SetProjectRoot "/work"
    (NewTaskModel [mkTask "build" "Build" [] 3] "dark" (negb false) "work" 0).

Lemma startModel_shows_an_error_exactly_without_tasks_witness :
  main.startModel (lib := plainLib) listingEnv parentDir (fun _ => "work")
                  joinSlash 5 "/work/src/cmd" "dark" false 0
  = Some startedModel /\
  (errorMessage startedModel = "" <-> tasks startedModel <> []) /\
  errorMessage startedModel <> "No tasks discovered in Taskfile." /\
  mouseEnabled startedModel = negb false /\
  (tasks startedModel <> [] ->
   exists ts,
     value (FindNearestTaskfileRoot listingEnv parentDir joinSlash 5
              (if String.eqb "/work/src/cmd" "" then os_Getwd listingEnv
               else "/work/src/cmd"))
     = Some (projectRoot startedModel, None) /\
     value (DiscoverTasks listingEnv (projectRoot startedModel)) = (ts, None) /\
     tasks startedModel = sort.SliceStable byLine ts).
Proof.
  assert (H1 : value (FindNearestTaskfileRoot listingEnv parentDir joinSlash 5
                        "/work/src/cmd") = Some ("/work", None))
    by (vm_compute; reflexivity).
  assert (H2 : value (DiscoverTasks listingEnv "/work")
               = ([mkTask "build" "Build" [] 3], None))
    by (vm_compute; reflexivity).
  assert (H : main.startModel (lib := plainLib) listingEnv parentDir
                (fun _ => "work") joinSlash 5 "/work/src/cmd" "dark" false 0
              = Some startedModel).
  { unfold main.startModel.
    change (String.eqb "/work/src/cmd" "") with false. cbv beta iota.
    rewrite H1. cbn [mbind option_bind]. rewrite H2.
    change (len [mkTask "build" "Build" [] 3] =? 0) with false. cbv beta iota.
    reflexivity. }
  split; [exact H|].
  exact (startModel_shows_an_error_exactly_without_tasks
           (lib := plainLib) listingEnv parentDir (fun _ => "work") joinSlash
           5 "/work/src/cmd" "dark" false 0 startedModel H).
Defined.

(** ** The order inside a tab *)

Section StableOrder.
Context {A K : Type} `{EqDecision K} (less : A -> A -> bool) (key : A -> K).
Hypothesis less_asym : forall a b, less a b = true -> less b a = false.
Hypothesis notAfter_trans :
  forall a b c, notAfter less a b -> notAfter less b c -> notAfter less a c.
Hypothesis less_key : forall a b, less a b = true -> key a <> key b.

Lemma insert_StronglySorted x l :
  StronglySorted (notAfter less) l ->
  StronglySorted (notAfter less) (sort.insert less x l).
Proof.
  induction 1 as [|y l Hl IH Hy]; cbn [sort.insert].
  - repeat constructor.
  - destruct (less y x) eqn:E.
    + constructor; [exact IH|].
      rewrite (insert_Permutation less x l). constructor; [|exact Hy].
      apply less_asym, E.
    + constructor; [constructor; assumption|].
      constructor; [exact E|].
      eapply Forall_impl; [exact Hy|]. intros z Hz.
      eapply notAfter_trans; [exact E | exact Hz].
Qed.

Lemma SliceStable_StronglySorted l :
  StronglySorted (notAfter less) (sort.SliceStable less l).
Proof.
  induction l as [|x l IH]; cbn [sort.SliceStable]; [constructor|].
  apply insert_StronglySorted, IH.
Qed.

Lemma insert_keeps_equal_keys k x l :
  filter (fun a => key a = k) (sort.insert less x l)
  = filter (fun a => key a = k) (x :: l).
Proof.
  induction l as [|y l IH]; cbn [sort.insert]; [reflexivity|].
  destruct (less y x) eqn:E; [|reflexivity].
  apply less_key in E.
  rewrite filter_cons, IH, !filter_cons.
  destruct (decide (key y = k)) as [Hy|Hy];
    destruct (decide (key x = k)) as [Hx|Hx]; try reflexivity.
  congruence.
Qed.

Lemma SliceStable_keeps_equal_keys k l :
  filter (fun a => key a = k) (sort.SliceStable less l)
  = filter (fun a => key a = k) l.
Proof.
  induction l as [|x l IH]; cbn [sort.SliceStable]; [reflexivity|].
  rewrite insert_keeps_equal_keys, !filter_cons, IH. reflexivity.
Qed.

End StableOrder.

Section ByteOrder.
Import strings.

Lemma ltb_irrefl a : ltb a a = false.
Proof.
  induction a as [|x a IH]; [reflexivity|]. cbn [ltb].
  rewrite N.ltb_irrefl. exact IH.
Qed.

Lemma ltb_asym a b : ltb a b = true -> ltb b a = false.
Proof.
  revert b. induction a as [|x a IH]; intros [|y b]; cbn [ltb]; try congruence.
  destruct (N_of_ascii x <? N_of_ascii y)%N eqn:E1;
    destruct (N_of_ascii y <? N_of_ascii x)%N eqn:E2;
    try congruence; [|apply IH].
  apply N.ltb_lt in E1, E2. lia.
Qed.

Lemma ltb_notAfter_trans a b c :
  ltb b a = false -> ltb c b = false -> ltb c a = false.
Proof.
  revert b c. induction a as [|x a IH]; intros [|y b] [|z c]; cbn [ltb];
    try congruence.
  destruct (N_of_ascii y <? N_of_ascii x)%N eqn:E1; [discriminate|].
  destruct (N_of_ascii x <? N_of_ascii y)%N eqn:E2;
    destruct (N_of_ascii z <? N_of_ascii y)%N eqn:E3; try discriminate;
    destruct (N_of_ascii y <? N_of_ascii z)%N eqn:E4;
    destruct (N_of_ascii z <? N_of_ascii x)%N eqn:E5;
    destruct (N_of_ascii x <? N_of_ascii z)%N eqn:E6;
    try reflexivity; try discriminate;
    try (apply IH);
    repeat match goal with
           | H : (_ <? _)%N = true |- _ => apply N.ltb_lt in H
           | H : (_ <? _)%N = false |- _ => apply N.ltb_ge in H
           end; lia.
Qed.

End ByteOrder.

Lemma StronglySorted_mono {A} (R S : A -> A -> Prop) (l : list A) :
  (forall a b, R a b -> S a b) -> StronglySorted R l -> StronglySorted S l.
Proof.
  intros H. induction 1 as [|x l Hl IH Hx]; constructor; [exact IH|].
  eapply Forall_impl; [exact Hx|]. intros y. apply H.
Qed.

Section TabOrder.
Context {lib : Lib}.

Lemma tabTasks_buildTabs_Some m p g :
  tabTasks (buildTabs m) !! p = Some g ->
  g = tabSort m (group (originalTasks m) p).
Proof.
  rewrite buildTabs_eq. cbn [tabTasks set_activeTab set_tabTasks].
  destruct (decide (p ∈ tabOrder m)) as [Hp|Hp].
  - rewrite (tabGroups_lookup m p Hp). congruence.
  - rewrite (tabGroups_lookup_None m p Hp). discriminate.
Qed.

(** X27. [buildTabs] orders the tasks of every tab: by name (byte-wise,
    ascending) in the mode "alpha" and by line in every other mode.  The
    sort is stable: tasks of a tab with the same name, respectively the
    same line, keep the order they have in [originalTasks]. *)
Theorem buildTabs_orders_each_tab :
  forall (m : TaskModel) (p : string) (g : list Task),
    tabTasks (buildTabs m) !! p = Some g ->
    (sortMode m = "alpha" ->
       StronglySorted (fun a b => strings.ltb (Name b) (Name a) = false) g /\
       forall n, filter (fun t => Name t = n) g
                 = filter (fun t => Name t = n) (group (originalTasks m) p)) /\
    (sortMode m <> "alpha" ->
       StronglySorted (fun a b => Line a <= Line b) g /\
       forall k, filter (fun t => Line t = k) g
                 = filter (fun t => Line t = k) (group (originalTasks m) p)).
Proof.
  intros m p g Hg. apply tabTasks_buildTabs_Some in Hg. subst g.
  unfold tabSort. split; intros Hmode.
  - rewrite Hmode. cbn [String.eqb Ascii.eqb Bool.eqb]. split.
    + apply (SliceStable_StronglySorted byName).
      * intros a b. apply ltb_asym.
      * intros a b c. unfold notAfter, byName. intros H1 H2.
        eapply ltb_notAfter_trans; eassumption.
    + intros n. apply (SliceStable_keeps_equal_keys byName Name).
      intros a b H E. unfold byName in H. rewrite E, ltb_irrefl in H.
      discriminate.
  - apply String.eqb_neq in Hmode. rewrite Hmode. split.
    + eapply StronglySorted_mono;
        [|apply (SliceStable_StronglySorted byLine)].
      * intros a b H. apply byLine_notAfter, H.
      * intros a b H. unfold byLine in *. apply Z.ltb_lt in H.
        apply Z.ltb_ge. lia.
      * intros a b c. rewrite !byLine_notAfter. lia.
    + intros k. apply (SliceStable_keeps_equal_keys byLine Line).
      intros a b H. unfold byLine in H. apply Z.ltb_lt in H. lia.
Qed.

End TabOrder.

(** Three tasks of the tab "main", two of them with the same name, out of
    order in both senses. *)
Definition shuffledTasks : list Task :=
  [mkTask "b" "" [] 2; mkTask "a" "x" [] 3; mkTask "a" "y" [] 1].

Definition shuffledModel (mode : string) : TaskModel (lib := plainLib) :=
  mkTaskModel shuffledTasks shuffledTasks shuffledTasks 0 false "" "" DarkTheme
    true 0 0 "" "" 0 "demo" "" "" false 0 0 0 4 [] "" ∅ mode.

Lemma buildTabs_orders_each_tab_witness :
  tabTasks (buildTabs (shuffledModel "alpha")) !! "main"
  = Some [mkTask "a" "x" [] 3; mkTask "a" "y" [] 1; mkTask "b" "" [] 2] /\
  (sortMode (shuffledModel "alpha") = "alpha" ->
     StronglySorted (fun a b => strings.ltb (Name b) (Name a) = false)
       [mkTask "a" "x" [] 3; mkTask "a" "y" [] 1; mkTask "b" "" [] 2] /\
     forall n,
       filter (fun t => Name t = n)
         [mkTask "a" "x" [] 3; mkTask "a" "y" [] 1; mkTask "b" "" [] 2]
       = filter (fun t => Name t = n)
           (group (originalTasks (shuffledModel "alpha")) "main")) /\
  (sortMode (shuffledModel "alpha") <> "alpha" ->
     StronglySorted (fun a b => Line a <= Line b)
       [mkTask "a" "x" [] 3; mkTask "a" "y" [] 1; mkTask "b" "" [] 2] /\
     forall k,
       filter (fun t => Line t = k)
         [mkTask "a" "x" [] 3; mkTask "a" "y" [] 1; mkTask "b" "" [] 2]
       = filter (fun t => Line t = k)
           (group (originalTasks (shuffledModel "alpha")) "main")).
Proof.
  assert (H : tabTasks (buildTabs (shuffledModel "alpha")) !! "main"
              = Some [mkTask "a" "x" [] 3; mkTask "a" "y" [] 1; mkTask "b" "" [] 2])
    by (vm_compute; reflexivity).
  split; [exact H|].
  exact (buildTabs_orders_each_tab (lib := plainLib) (shuffledModel "alpha") "main"
           [mkTask "a" "x" [] 3; mkTask "a" "y" [] 1; mkTask "b" "" [] 2] H).
Defined.

(** ** Tab names and their order *)

(** X28. The tab of a task is the text of its name before the first
    ["-"], which may be empty, and never holds a ["-"] itself; a name
    without ["-"] belongs to the tab "main". *)
Theorem tabPrefix_is_the_text_before_the_first_dash :
  forall name : string,
    (strings.Index name "-" = -1 -> tabPrefix name = "main") /\
    (0 <= strings.Index name "-" ->
       tabPrefix name = strings.slice_to name (strings.Index name "-") /\
       strings.Index (tabPrefix name) "-" = -1).
Proof.
  intros name. unfold tabPrefix. cbn [strings.SplitN].
  destruct (strings.Index name "-" =? -1) eqn:E.
  - apply Z.eqb_eq in E. split; [reflexivity | lia].
  - apply Z.eqb_neq in E. split; [contradiction|]. intros Hge.
    change (index "" (strings.slice_to name (strings.Index name "-")
                        :: [strings.slice_from name (strings.Index name "-" + 1)]) 0)
      with (strings.slice_to name (strings.Index name "-")).
    cbn. split; [reflexivity | apply Index_slice_to, Hge].
Qed.

Lemma Forall_sublist {A} (P : A -> Prop) (k l : list A) :
  sublist k l -> Forall P l -> Forall P k.
Proof.
  induction 1 as [|x k l Hs IH|x k l Hs IH]; intros H.
  - constructor.
  - inversion H; subst. constructor; auto.
  - inversion H; subst. auto.
Qed.

Lemma StronglySorted_sublist {A} (R : A -> A -> Prop) (k l : list A) :
  sublist k l -> StronglySorted R l -> StronglySorted R k.
Proof.
  induction 1 as [|x k l Hs IH|x k l Hs IH]; intros H.
  - constructor.
  - inversion H; subst. constructor; [auto|]. eapply Forall_sublist; eassumption.
  - inversion H; subst. auto.
Qed.

Section TabNames.
Context {lib : Lib}.

(** X29. In the mode "alpha" the tabs other than "main" are listed in
    ascending byte-wise order. *)
Theorem alpha_mode_sorts_the_tabs :
  forall m : TaskModel,
    sortMode m = "alpha" ->
    StronglySorted (fun a b => strings.ltb b a = false)
      (filter (fun t => t <> "main") (tabs (buildTabs m))).
Proof.
  intros m Hmode. rewrite tabs_buildTabs. unfold tabOrder. rewrite Hmode.
  cbn [String.eqb Ascii.eqb Bool.eqb].
  set (ps := sort_Strings (firstSeen (originalTasks m))).
  assert (Hps : StronglySorted (fun a b => strings.ltb b a = false) ps).
  { apply (SliceStable_StronglySorted strings.ltb).
    - apply ltb_asym.
    - intros a b c. apply ltb_notAfter_trans. }
  destruct (indexOf "main" ps 0 >? 0) eqn:E.
  - rewrite filter_cons. destruct (decide ("main" <> "main")); [contradiction|].
    eapply StronglySorted_sublist; [|exact Hps].
    etransitivity; [apply sublist_filter|].
    rewrite Z.gtb_ltb in E. apply Z.ltb_lt in E.
    replace (Z.to_nat (indexOf "main" ps 0 + 1))
      with (S (Z.to_nat (indexOf "main" ps 0))) by lia.
    rewrite <- delete_take_drop. apply sublist_delete.
  - eapply StronglySorted_sublist; [apply sublist_filter | exact Hps].
Qed.

End TabNames.

(** Three tasks whose tabs are first seen in the order web, main, db. *)
Definition prefixedTasks : list Task :=
  [mkTask "web-build" "" [] 1; mkTask "lint" "" [] 2; mkTask "db-up" "" [] 3].

Definition prefixedModel : TaskModel (lib := plainLib) :=
  mkTaskModel prefixedTasks prefixedTasks prefixedTasks 0 false "" "" DarkTheme
    true 0 0 "" "" 0 "demo" "" "" false 0 0 0 4 [] "" ∅ "alpha".

Lemma alpha_mode_sorts_the_tabs_witness :
  sortMode prefixedModel = "alpha" /\
  tabs (buildTabs prefixedModel) = ["main"; "db"; "web"] /\
  StronglySorted (fun a b => strings.ltb b a = false)
    (filter (fun t => t <> "main") (tabs (buildTabs prefixedModel))).
Proof.
  split; [reflexivity|]. split; [vm_compute; reflexivity|].
  exact (alpha_mode_sorts_the_tabs (lib := plainLib) prefixedModel eq_refl).
Defined.
